(** * Electohub backend: the analytics engine of [server.js]

    A shallow embedding of the analytics helpers of the marketplace
    backend (trend bucketing, KPI aggregation, customer segmentation,
    cohort retention, forecast, CSV export, JSON-file reads) together
    with the properties the specification states about them.

    Conventions of the embedding.
    - A JavaScript [Date] is its time value: milliseconds since the epoch
      as a [Z]; an Invalid Date (time value NaN) is [None].  Calendar
      fields ([getMonth], [setMonth], ...) are read in UTC, i.e. the
      server's local time zone is taken to be UTC.
    - Monetary amounts and counters are integers ([Z], [nat]).  Quotients
      are exact rationals ([Q]) wrapped in [jsnum], which keeps the three
      non-finite outcomes of an IEEE division (NaN, +Infinity, -Infinity);
      the rounding of binary floating point itself is not modelled.
    - A JavaScript object used as a dictionary is an association list in
      insertion order, which is the order [Object.keys]/[Object.entries]
      enumerate keys that are not array indices.  Identifiers of this
      program are of the form ['user_' + generateId()], never array
      indices and never names inherited from [Object.prototype]. *)

From Stdlib Require Import ZArith QArith Qround Lia Ascii String.
From Stdlib Require Import Lqa.
From stdpp Require Import list strings pretty sorting.

Open Scope Z_scope.

(** ** JavaScript numbers and dates *)

Module JS.

(** The result of a numeric computation that may leave the finite numbers. *)
Inductive jsnum : Type :=
| Num (q : Q)
| NaN
| Infinity
| NegInfinity.

(** [a / b] on finite operands. *)
Definition div (a b : Q) : jsnum :=
  if Qeq_bool b 0 then
    if Qeq_bool a 0 then NaN
    else if Qle_bool 0 a then Infinity else NegInfinity
  else Num (a / b).

(** [x * c] for a finite positive constant [c]. *)
Definition scale (x : jsnum) (c : Q) : jsnum :=
  match x with
  | Num q => Num (q * c)
  | other => other
  end.

Definition isFinite (x : jsnum) : bool :=
  match x with Num _ => true | _ => false end.

(** The value of [x.toFixed(d)]: the decimal string of [n / 10^d] for the
    integer [n] nearest to [x * 10^d] (the larger one on a tie), or one
    of the strings ["NaN"], ["Infinity"], ["-Infinity"]. *)
Inductive fixed : Type :=
| Fixed (n : Z)
| FixedNaN
| FixedInfinity
| FixedNegInfinity.

Definition round_half_up (q : Q) : Z := Qfloor (q + (1 # 2)).

Definition toFixed (d : nat) (x : jsnum) : fixed :=
  match x with
  | Num q =>
      let scaled := (q * inject_Z (10 ^ Z.of_nat d))%Q in
      if Qle_bool 0 q then Fixed (round_half_up scaled)
      else Fixed (- round_half_up (- scaled))
  | NaN => FixedNaN
  | Infinity => FixedInfinity
  | NegInfinity => FixedNegInfinity
  end.

(** The text is that of a number. *)
Definition is_number (f : fixed) : Prop :=
  match f with Fixed _ => True | _ => False end.

(** A property read from a JSON record and handed to [new Date(...)]:
    absent (or otherwise falsy), present but not a date, or a date. *)
Inductive datefield : Type :=
| Missing
| Garbage
| Stamp (t : Z).

(** [a || b] on two such properties. *)
Definition or_else (a b : datefield) : datefield :=
  match a with Missing => b | _ => a end.

(** [new Date(f)]: the time value, [None] for an Invalid Date. *)
Definition newDate (f : datefield) : option Z :=
  match f with Stamp t => Some t | _ => None end.

(** Relational operators between a possibly invalid date and a valid one;
    every comparison with NaN is false. *)
Definition ge (d : option Z) (t : Z) : bool :=
  match d with Some x => t <=? x | None => false end.
Definition le (d : option Z) (t : Z) : bool :=
  match d with Some x => x <=? t | None => false end.
Definition lt (d : option Z) (t : Z) : bool :=
  match d with Some x => x <? t | None => false end.

Definition msPerDay : Z := 24 * 60 * 60 * 1000.

(** Year of the 400-year era and day of that year (years starting on
    1 March) of day [doe] of an era. *)
Definition yoe_of (doe : Z) : Z :=
  (doe - doe / 1460 + doe / 36524 - doe / 146096) / 365.
Definition doy_of (doe : Z) : Z :=
  let yoe := yoe_of doe in doe - (365 * yoe + yoe / 4 - yoe / 100).

(** Days since the epoch to the civil date (year, month 0..11, day). *)
Definition civil_of_days (days : Z) : Z * Z * Z :=
  let z := days + 719468 in
  let era := z / 146097 in
  let doe := z - era * 146097 in
  let yoe := yoe_of doe in
  let doy := doy_of doe in
  let mp := (5 * doy + 2) / 153 in
  let d := doy - (153 * mp + 2) / 5 + 1 in
  let m := if mp <? 10 then mp + 2 else mp - 10 in
  let y := yoe + era * 400 + (if m <? 2 then 1 else 0) in
  (y, m, d).

(** The day number of the first day of month [n], months being counted
    from January of year 0 ([n = 12 * year + month]); [n] may be any
    integer, which is how [setMonth] carries into other years. *)
Definition month_start (n : Z) : Z :=
  let k := n - 2 in
  let y := k / 12 in
  let mp := k mod 12 in
  365 * y + y / 4 - y / 100 + y / 400 + (153 * mp + 2) / 5 - 719468.

Definition getFullYear (t : Z) : Z := fst (fst (civil_of_days (t / msPerDay))).
Definition getMonth (t : Z) : Z := snd (fst (civil_of_days (t / msPerDay))).
Definition getDate (t : Z) : Z := snd (civil_of_days (t / msPerDay)).

(** [d.setDate(d.getDate() + k)]. *)
Definition addDays (t k : Z) : Z := t + k * msPerDay.

(** [d.setMonth(d.getMonth() + k)]: same day of the month and time of
    day in the month [k] later; a day past the end of that month runs
    over into the next one. *)
Definition addMonths (t k : Z) : Z :=
  let n := 12 * getFullYear t + getMonth t + k in
  (month_start n + getDate t - 1) * msPerDay + t mod msPerDay.

Definition monthShort (m : Z) : string :=
  nth (Z.to_nat m)
    ["Jan"; "Feb"; "Mar"; "Apr"; "May"; "Jun";
     "Jul"; "Aug"; "Sep"; "Oct"; "Nov"; "Dec"] "".

End JS.


(** ** Data model: the records of [orders.json], [products.json] and [users.json] *)

Record order : Type := mkOrder {
  o_userId : option string;
  o_total : option Z;
  o_status : string;
  o_createdAt : JS.datefield;
  o_date : JS.datefield
}.

Record product : Type := mkProduct {
  p_id : string;
  p_stock : Z;
  p_salesCount : Z
}.

Record user : Type := mkUser {
  u_id : string;
  u_createdAt : JS.datefield;
  u_lastLogin : JS.datefield
}.

(** [order.total || 0] *)
Definition total_or_0 (o : order) : Z := default 0 (o_total o).

(** [new Date(order.createdAt || order.date)] *)
Definition orderDate (o : order) : option Z :=
  JS.newDate (JS.or_else (o_createdAt o) (o_date o)).

(** [if (order.userId)]: the identifier when it is truthy. *)
Definition truthy_userId (o : order) : option string :=
  match o_userId o with
  | Some s => if (s =? "")%string then None else Some s
  | None => None
  end.

(** [o.userId === user._id] *)
Definition placed_by (u : user) (o : order) : bool :=
  match o_userId o with
  | Some s => (s =? u_id u)%string
  | None => false
  end.

(** The sum of a list of numbers. *)
Definition sumZ (l : list Z) : Z := foldr Z.add 0 l.

(** ** KPI helpers *)

(** The filter of [calculateTotalRevenue] and [calculateAverageOrderValue]:
    [orderDate >= start && orderDate <= end && order.status === 'delivered'] *)
Definition delivered_in (start end_ : Z) (o : order) : bool :=
  JS.ge (orderDate o) start && JS.le (orderDate o) end_
  && (o_status o =? "delivered")%string.

Definition calculateTotalRevenue (orders : list order) (start end_ : Z) : Z :=
  foldl (fun sum o => sum + total_or_0 o) 0
        (filter (fun o => delivered_in start end_ o = true) orders).

(** What one order adds to the revenue of the range from [start] to [end_]. *)
Definition revenue_share (start end_ : Z) (o : order) : Z :=
  if delivered_in start end_ o then total_or_0 o else 0.

Definition calculateTotalOrders (orders : list order) (start end_ : Z) : nat :=
  length (filter (fun o => JS.ge (orderDate o) start && JS.le (orderDate o) end_ = true)
                 orders).

Definition calculateAverageOrderValue (orders : list order) (start end_ : Z) : JS.jsnum :=
  let filteredOrders := filter (fun o => delivered_in start end_ o = true) orders in
  if (length filteredOrders =? 0)%nat then JS.Num 0
  else
    let total := foldl (fun sum o => sum + total_or_0 o) 0 filteredOrders in
    JS.div (inject_Z total) (inject_Z (Z.of_nat (length filteredOrders))).

Definition calculateActiveCustomers (users : list user) (start end_ : Z) : nat :=
  length (filter (fun u =>
            match u_lastLogin u with
            | JS.Missing => false
            | f => JS.ge (JS.newDate f) start && JS.le (JS.newDate f) end_
            end = true) users).

Definition calculateNewCustomers (users : list user) (start end_ : Z) : nat :=
  length (filter (fun u =>
            JS.ge (JS.newDate (u_createdAt u)) start
            && JS.le (JS.newDate (u_createdAt u)) end_ = true) users).

(** ** Trend buckets *)

Record dataset : Type := mkDataset {
  ds_name : string;
  ds_data : list Z;
  ds_color : string
}.

Record trend : Type := mkTrend {
  labels : list string;
  datasets : list dataset
}.

Definition dataPoints (period : string) : nat :=
  if (period =? "daily")%string then 30%nat
  else if (period =? "weekly")%string then 12%nat
  else if (period =? "monthly")%string then 12%nat
  else 4%nat.

(** The instant [start] moved [i] buckets ahead: [pointStart] of bucket
    [i] and, with [i + 1], its [pointEnd]. *)
Definition pointAt (period : string) (start : Z) (i : Z) : Z :=
  if (period =? "daily")%string then JS.addDays start i
  else if (period =? "weekly")%string then JS.addDays start (i * 7)
  else if (period =? "monthly")%string then JS.addMonths start i
  else JS.addMonths start (i * 3).

Definition pointLabel (period : string) (start : Z) (i : nat) : string :=
  let pointStart := pointAt period start (Z.of_nat i) in
  if (period =? "daily")%string then
    JS.monthShort (JS.getMonth pointStart) +:+ " " +:+ pretty (JS.getDate pointStart)
  else if (period =? "weekly")%string then
    "Week " +:+ pretty (i / 4 + 1)%nat
  else if (period =? "monthly")%string then
    JS.monthShort (JS.getMonth pointStart)
  else
    "Q" +:+ pretty (i mod 4 + 1)%nat.

(** The values of the loop variable, [dataPoints - 1] down to [0]. *)
Definition loop_indices (n : nat) : list nat := rev (seq 0 n).

(** The arguments [products] and [end] are never read by the source. *)
Definition generateTrendData (orders : list order) (products : list product)
    (users : list user) (period : string) (start end_ : Z) : trend :=
  let idx := loop_indices (dataPoints period) in
  let pointStart i := pointAt period start (Z.of_nat i) in
  let pointEnd i := pointAt period start (Z.of_nat i + 1) in
  let revenueData :=
    map (fun i => calculateTotalRevenue orders (pointStart i) (pointEnd i)) idx in
  let orderData :=
    map (fun i => Z.of_nat (calculateTotalOrders orders (pointStart i) (pointEnd i))) idx in
  let customerData :=
    map (fun i => Z.of_nat (calculateNewCustomers users (pointStart i) (pointEnd i))) idx in
  {| labels := map (pointLabel period start) idx;
     datasets := [ mkDataset "Revenue" revenueData "#3b82f6";
                   mkDataset "Orders" orderData "#10b981";
                   mkDataset "New Customers" customerData "#8b5cf6" ] |}.

(** The [data] array of the dataset called [name]. *)
Definition dataset_data (name : string) (t : trend) : list Z :=
  match filter (fun d => ds_name d = name) (datasets t) with
  | d :: _ => ds_data d
  | [] => []
  end.

Definition revenueData (t : trend) : list Z := dataset_data "Revenue" t.

(** The loop indices of the buckets whose revenue filter lets order [o] in. *)
Definition buckets_counting (period : string) (start : Z) (o : order) : list nat :=
  filter (fun i => delivered_in (pointAt period start (Z.of_nat i))
                                (pointAt period start (Z.of_nat i + 1)) o = true)
         (loop_indices (dataPoints period)).

(** The conservation law as the specification words it: the revenues of
    the buckets add up to the total revenue of the range from [start] to
    [end_]. *)
Definition conserves_revenue (orders : list order) (products : list product)
    (users : list user) (period : string) (start end_ : Z) : Prop :=
  sumZ (revenueData (generateTrendData orders products users period start end_))
  = calculateTotalRevenue orders start end_.

(** Two delivered orders of 100: one dated exactly one day after the
    epoch, one dated 35 days after it. *)
Definition order_on_boundary : order :=
  mkOrder (Some "user_a") (Some 100) "delivered" (JS.Stamp JS.msPerDay) JS.Missing.

Definition order_on_day_35 : order :=
  mkOrder (Some "user_b") (Some 100) "delivered" (JS.Stamp (35 * JS.msPerDay)) JS.Missing.

(** ** KPIs of the analytics dashboard ([/api/admin/analytics/dashboard]) *)

Record kpis : Type := mkKpis {
  totalRevenue : Z;
  totalOrders : nat;
  avgOrderValue : JS.jsnum;
  activeCustomers : nat;
  cartAbandonment : Q;
  conversionRate : Q;
  newCustomers : nat;
  returningRate : Q
}.

Definition dashboard_kpis (orders : list order) (users : list user) (start end_ : Z) : kpis :=
  {| totalRevenue := calculateTotalRevenue orders start end_;
     totalOrders := calculateTotalOrders orders start end_;
     avgOrderValue := calculateAverageOrderValue orders start end_;
     activeCustomers := calculateActiveCustomers users start end_;
     cartAbandonment := 68.3;
     conversionRate := 3.2;
     newCustomers := calculateNewCustomers users start end_;
     returningRate := 42 |}.

(** ** Statistics of the admin dashboard ([/api/admin/dashboard/stats]) *)

Module DashboardStats.

Definition delivered (o : order) : Prop := o_status o = "delivered".

Definition totalRevenue (orders : list order) : Z :=
  foldl (fun sum o => sum + total_or_0 o) 0 (filter delivered orders).

(** [orders.length > 0 ? totalRevenue / delivered.length : 0] *)
Definition avgOrderValue (orders : list order) : JS.jsnum :=
  if (0 <? length orders)%nat then
    JS.div (inject_Z (totalRevenue orders))
           (inject_Z (Z.of_nat (length (filter delivered orders))))
  else JS.Num 0.

(** The [overview.avgOrderValue] field of the response: [avgOrderValue.toFixed(2)]. *)
Definition overview_avgOrderValue (orders : list order) : JS.fixed :=
  JS.toFixed 2 (avgOrderValue orders).

End DashboardStats.

(** ** Forecast *)

Module Forecast.

Record forecastMetrics : Type := mkMetrics {
  rSquared : Q;
  mape : Q;
  confidence : Q;
  nextPeriodGrowth : string
}.

Record forecastData : Type := mkForecast {
  historical : list Q;
  forecast : list Q;
  confidenceUpper : list Q;
  confidenceLower : list Q;
  metrics : forecastMetrics
}.

(** Computations that draw from [Math.random()]: the state is the number
    of draws made so far on a fixed stream of samples. *)
Definition Rand (A : Type) : Type := (nat -> Q) -> nat -> A * nat.

#[export] Instance rand_ret : MRet Rand := fun A a _ n => (a, n).
#[export] Instance rand_bind : MBind Rand := fun A B k m r n =>
  let '(a, n') := m r n in k a r n'.

Definition Math_random : Rand Q := fun r n => (r n, S n).

(** [for (let i = 6; i > 0; i--) historical.push(20000 + Math.random() * 5000)] *)
Fixpoint historical_loop (i : nat) (historical : list Q) : Rand (list Q) :=
  match i with
  | O => mret historical
  | S i' =>
      u ← Math_random;
      let base := 20000%Q in
      let variation := (u * 5000)%Q in
      historical_loop i' (historical ++ [(base + variation)%Q])
  end.

(** [for (let i = 1; i <= 3; i++) { ... }]; [todo] counts the remaining
    iterations and the accumulator holds the three arrays. *)
Fixpoint forecast_loop (lastValue : Q) (todo : nat) (i : Z)
    (acc : list Q * list Q * list Q) : Rand (list Q * list Q * list Q) :=
  match todo with
  | O => mret acc
  | S todo' =>
      u ← Math_random;
      let growth := (1 + u * 0.1)%Q in
      let forecastValue := (lastValue * growth ^ i)%Q in
      let '(f, up, lo) := acc in
      forecast_loop lastValue todo' (i + 1)
        (f ++ [forecastValue],
         up ++ [(forecastValue * 1.1)%Q],
         lo ++ [(forecastValue * 0.9)%Q])
  end.

Definition generateForecastData_rand : Rand forecastData :=
  historical ← historical_loop 6 [];
  let lastValue := List.last historical 0%Q in
  '(f, up, lo) ← forecast_loop lastValue 3 1 ([], [], []);
  mret (mkForecast historical f up lo (mkMetrics 0.94 6.8 92.4 "+12.5%")).

(** The forecast for the stream [random] of values of [Math.random()].
    The arguments [orders] and [period] of the source are never read. *)
Definition generateForecastData (random : nat -> Q) : forecastData :=
  fst (generateForecastData_rand random 0%nat).

(** The compounding as the specification words it: one sampled growth
    factor in the range from 1.0 to 1.10, and the point of period [k] is
    the last historical value times that factor to the power [k]. *)
Definition compounds_one_factor (data : forecastData) : Prop :=
  exists growth : Q,
    (1 <= growth /\ growth < 1.1)%Q
    /\ forall k : nat, (1 <= k <= 3)%nat ->
         (nth (k - 1) (forecast data) 0
          == List.last (historical data) 0 * growth ^ Z.of_nat k)%Q.

(** A run of [Math.random()] that yields 0.9 at its seventh call and 0 at
    every other call. *)
Definition high_then_low (n : nat) : Q := if (n =? 6)%nat then 0.9%Q else 0%Q.

End Forecast.

(** ** Customer segmentation *)

(** [Array.prototype.sort] with comparator [cmp]: a stable sort that puts
    [a] after [b] exactly when [cmp a b > 0].  (For a comparator that is
    not a consistent order, such as one returning NaN on invalid dates,
    the engine's result is implementation-defined and need not be this
    one: what is proved of the order of a sorted array is proved for
    consistent comparators.) *)
Fixpoint sort_insert {A} (cmp : A -> A -> Z) (x : A) (l : list A) : list A :=
  match l with
  | [] => [x]
  | y :: l' => if 0 <? cmp x y then y :: sort_insert cmp x l' else x :: y :: l'
  end.

Definition js_sort {A} (cmp : A -> A -> Z) (l : list A) : list A :=
  foldr (sort_insert cmp) [] l.

(** [arr.slice(a, b)] and [arr.slice(a)] for [0 <= a]. *)
Definition slice {A} (a b : nat) (l : list A) : list A := take (b - a) (drop a l).
Definition slice_from {A} (a : nat) (l : list A) : list A := drop a l.

(** [Math.ceil(n * f)] for an array length [n]. *)
Definition ceil_of (n : nat) (f : Q) : nat :=
  Z.to_nat (Qceiling (inject_Z (Z.of_nat n) * f)).

Module Segmentation.

Record segments : Type := mkSegments {
  highValue : list string;
  mediumValue : list string;
  lowValue : list string;
  new : list string;
  atRisk : list string;
  dormant : list string
}.

(** [obj[k] = (obj[k] || 0) + v] on an insertion-ordered object. *)
Fixpoint add_spend (obj : list (string * Z)) (k : string) (v : Z) : list (string * Z) :=
  match obj with
  | [] => [(k, 0 + v)]
  | (k', v') :: rest =>
      if (k' =? k)%string then (k', v' + v) :: rest
      else (k', v') :: add_spend rest k v
  end.

Definition customerSpending (orders : list order) : list (string * Z) :=
  foldl (fun obj o =>
           match truthy_userId o with
           | Some id => add_spend obj id (total_or_0 o)
           | None => obj
           end) [] orders.

(** Comparator [([,a], [,b]) => b - a] on the entries of [customerSpending]. *)
Definition by_spend (x y : string * Z) : Z := snd y - snd x.

(** [Object.entries(customerSpending).sort(([,a], [,b]) => b - a)] *)
Definition rankedCustomers (orders : list order) : list (string * Z) :=
  js_sort by_spend (customerSpending orders).

(** [... .map(([userId]) => userId)] *)
Definition sortedCustomers (orders : list order) : list string :=
  map fst (rankedCustomers orders).


(** The distinct customers that have at least one order. *)
Definition customers_with_orders (orders : list order) : list string :=
  remove_dups (omap truthy_userId orders).

(** Comparator [(a, b) => new Date(b.createdAt || b.date) - new Date(a.createdAt || a.date)];
    a NaN difference counts as 0. *)
Definition newest_first (a b : order) : Z :=
  match orderDate b, orderDate a with
  | Some tb, Some ta => tb - ta
  | _, _ => 0
  end.

(** [userOrders.sort(...)[0]].  When an order of the user has no valid
    date the comparator is not consistent and the order that comes first
    is up to the engine; that [lastOrder] is the latest order is proved for
    dated orders only ([lastOrder_latest]). *)
Definition lastOrder (orders : list order) (u : user) : option order :=
  head (js_sort newest_first (filter (fun o => placed_by u o = true) orders)).

Definition days (n : Z) : Z := n * 24 * 60 * 60 * 1000.

(** Body of [users.forEach(user => { ... })]: the recency tags of one user. *)
Definition tag_user (orders : list order) (now : Z) (s : segments) (u : user) : segments :=
  let createdAt := JS.newDate (u_createdAt u) in
  let thirtyDaysAgo := now - days 30 in
  let s1 :=
    if JS.ge createdAt thirtyDaysAgo
    then mkSegments (highValue s) (mediumValue s) (lowValue s)
                    (new s ++ [u_id u]) (atRisk s) (dormant s)
    else s in
  match lastOrder orders u with
  | Some lastOrder =>
      let lastOrderDate := orderDate lastOrder in
      let sixtyDaysAgo := now - days 60 in
      let oneTwentyDaysAgo := now - days 120 in
      if JS.lt lastOrderDate sixtyDaysAgo && JS.ge lastOrderDate oneTwentyDaysAgo
      then mkSegments (highValue s1) (mediumValue s1) (lowValue s1)
                      (new s1) (atRisk s1 ++ [u_id u]) (dormant s1)
      else if JS.lt lastOrderDate oneTwentyDaysAgo
      then mkSegments (highValue s1) (mediumValue s1) (lowValue s1)
                      (new s1) (atRisk s1) (dormant s1 ++ [u_id u])
      else s1
  | None => s1
  end.

(** The [segments] object just before it is converted for the front end;
    [now] is the value of [new Date()]. *)
Definition segment_members (users : list user) (orders : list order) (now : Z) : segments :=
  let sortedCustomers := sortedCustomers orders in
  let highValueCount := ceil_of (length sortedCustomers) 0.2 in
  let mediumValueCount := ceil_of (length sortedCustomers) 0.6 in
  let by_spend :=
    {| highValue := slice 0 highValueCount sortedCustomers;
       mediumValue := slice highValueCount (highValueCount + mediumValueCount) sortedCustomers;
       lowValue := slice_from (highValueCount + mediumValueCount) sortedCustomers;
       new := []; atRisk := []; dormant := [] |} in
  foldl (tag_user orders now) by_spend users.

Record segment_row : Type := mkRow {
  name : string;
  users_count : nat;
  color : string;
  criteria : string
}.

(** The names are the keys [highValue], ..., [dormant] after
    [key.replace(/([A-Z])/g, ' $1').replace(/^./, c => c.toUpperCase())]. *)
Definition segmentCustomers (users : list user) (orders : list order) (now : Z)
    : list segment_row :=
  let s := segment_members users orders now in
  [ mkRow "High Value" (length (highValue s)) "#3b82f6" "Top 20% by spending";
    mkRow "Medium Value" (length (mediumValue s)) "#10b981" "Middle 60% by spending";
    mkRow "Low Value" (length (lowValue s)) "#f59e0b" "Bottom 20% by spending";
    mkRow "New" (length (new s)) "#8b5cf6" "Joined in last 30 days";
    mkRow "At Risk" (length (atRisk s)) "#ef4444" "No purchase in 60+ days";
    mkRow "Dormant" (length (dormant s)) "#9ca3af" "No purchase in 120+ days" ].

(** The ten customers of scenario 4, with spends 1000, 900, ..., 100. *)
Definition one_order (id : string) (total : Z) : order :=
  mkOrder (Some id) (Some total) "delivered" (JS.Stamp 0) JS.Missing.

Definition ten_customers : list order :=
  [ one_order "user_a" 1000; one_order "user_b" 900; one_order "user_c" 800;
    one_order "user_d" 700; one_order "user_e" 600; one_order "user_f" 500;
    one_order "user_g" 400; one_order "user_h" 300; one_order "user_i" 200;
    one_order "user_j" 100 ].

End Segmentation.

(** ** Cohort retention *)

Module Retention.

Record cohort : Type := mkCohort {
  totalUsers : Z;
  month1 : Z;
  month2 : Z;
  month3 : Z;
  month6 : Z;
  month12 : Z
}.

Record cohort_row : Type := mkCohortRow {
  row_cohort : string;
  row_totalUsers : Z;
  row_month1 : JS.fixed;
  row_month2 : JS.fixed;
  row_month3 : JS.fixed;
  row_month6 : JS.fixed;
  row_month12 : JS.fixed
}.

(** [s.padStart(2, '0')] *)
Definition padStart2 (s : string) : string :=
  match String.length s with
  | 0%nat => "00" +:+ s
  | 1%nat => "0" +:+ s
  | _ => s
  end.

(** [`${joinDate.getFullYear()}-${String(joinDate.getMonth() + 1).padStart(2, '0')}`] *)
Definition cohortKey (joinDate : option Z) : string :=
  match joinDate with
  | Some t => pretty (JS.getFullYear t) +:+ "-" +:+ padStart2 (pretty (JS.getMonth t + 1))
  | None => "NaN-NaN"
  end.

Definition get (cohorts : list (string * cohort)) (k : string) : option cohort :=
  snd <$> find (fun kv => (fst kv =? k)%string) cohorts.

(** In-place update of the entry under [k]. *)
Definition modify (k : string) (f : cohort -> cohort) (cohorts : list (string * cohort))
    : list (string * cohort) :=
  map (fun kv => if (fst kv =? k)%string then (fst kv, f (snd kv)) else kv) cohorts.

(** [Math.floor((firstOrderDate - joinDate) / (30 * 24 * 60 * 60 * 1000))];
    [None] is NaN. *)
Definition monthsSinceJoin (firstOrderDate joinDate : option Z) : option Z :=
  match firstOrderDate, joinDate with
  | Some a, Some b => Some ((a - b) / (30 * 24 * 60 * 60 * 1000))
  | _, _ => None
  end.

(** [monthsSinceJoin <= k] *)
Definition within (m : option Z) (k : Z) : bool :=
  match m with Some z => z <=? k | None => false end.

Definition bump (b : bool) (n : Z) : Z := if b then n + 1 else n.

(** Body of [users.forEach(user => { ... })]. *)
Definition add_user (orders : list order) (cohorts : list (string * cohort)) (u : user)
    : list (string * cohort) :=
  let joinDate := JS.newDate (u_createdAt u) in
  let key := cohortKey joinDate in
  let cohorts1 :=
    match get cohorts key with
    | None => cohorts ++ [(key, mkCohort 0 0 0 0 0 0)]
    | Some _ => cohorts
    end in
  let cohorts2 :=
    modify key (fun c => mkCohort (totalUsers c + 1) (month1 c) (month2 c)
                                  (month3 c) (month6 c) (month12 c)) cohorts1 in
  let userOrders := filter (fun o => placed_by u o = true) orders in
  match userOrders with
  | first :: _ =>
      let firstOrderDate := orderDate first in
      let m := monthsSinceJoin firstOrderDate joinDate in
      modify key (fun c => mkCohort (totalUsers c)
                                    (bump (within m 1) (month1 c))
                                    (bump (within m 2) (month2 c))
                                    (bump (within m 3) (month3 c))
                                    (bump (within m 6) (month6 c))
                                    (bump (within m 12) (month12 c))) cohorts2
  | [] => cohorts2
  end.

Definition cohorts_of (users : list user) (orders : list order) : list (string * cohort) :=
  foldl (add_user orders) [] users.

(** [((count / data.totalUsers) * 100).toFixed(1)] *)
Definition percentage (count total : Z) : JS.fixed :=
  JS.toFixed 1 (JS.scale (JS.div (inject_Z count) (inject_Z total)) 100).

Definition analyzeRetention (users : list user) (orders : list order) : list cohort_row :=
  map (fun '(cohort, data) =>
         {| row_cohort := cohort;
            row_totalUsers := totalUsers data;
            row_month1 := percentage (month1 data) (totalUsers data);
            row_month2 := percentage (month2 data) (totalUsers data);
            row_month3 := percentage (month3 data) (totalUsers data);
            row_month6 := percentage (month6 data) (totalUsers data);
            row_month12 := percentage (month12 data) (totalUsers data) |})
      (cohorts_of users orders).

(** Membership of the horizons is cumulative. *)
Definition cumulative (c : cohort) : Prop :=
  0 <= month1 c /\ month1 c <= month2 c /\ month2 c <= month3 c
  /\ month3 c <= month6 c /\ month6 c <= month12 c.

(** The cohort has a member. *)
Definition populated (c : cohort) : Prop := 1 <= totalUsers c.

(** A percentage in tenths of a percent, as [toFixed(1)] prints it. *)
Definition tenths (count total : Z) : Z :=
  JS.round_half_up (inject_Z count / inject_Z total * 100 * inject_Z (10 ^ 1)).

(** The invariant of the cohort table. *)
Definition cohort_ok (kv : string * cohort) : Prop :=
  populated (snd kv) /\ cumulative (snd kv).

End Retention.

(** ** CSV export *)

Module Csv.

(** The scalar values of a flat record. *)
Inductive jsval : Type :=
| VUndefined
| VNull
| VBool (b : bool)
| VNum (z : Z)
| VStr (s : string).

(** An object: its own properties in enumeration order. *)
Definition record : Type := list (string * jsval).

(** The argument of [convertToCSV]: an array of records, or one value that
    is not an array. *)
Inductive export_data : Type :=
| DataArray (rows : list record)
| DataObject (r : record).

Definition comma : ascii := ","%char.
Definition dquote : ascii := "034"%char.
Definition newline : ascii := "010"%char.

(** ['' + value] *)
Definition to_str (v : jsval) : string :=
  match v with
  | VUndefined => "undefined"
  | VNull => "null"
  | VBool true => "true"
  | VBool false => "false"
  | VNum z => pretty z
  | VStr s => s
  end.

(** [Object.keys(r)] *)
Definition keys (r : record) : list string := map fst r.

(** [row[header]] *)
Definition get (row : record) (header : string) : jsval :=
  match find (fun kv => (fst kv =? header)%string) row with
  | Some kv => snd kv
  | None => VUndefined
  end.

(** [s.replace] of every double quote (global pattern) by two of them. *)
Fixpoint double_quotes (s : string) : string :=
  match s with
  | EmptyString => EmptyString
  | String c s' =>
      if Ascii.eqb c dquote then String dquote (String dquote (double_quotes s'))
      else String c (double_quotes s')
  end.

Definition special (c : ascii) : bool :=
  Ascii.eqb c comma || Ascii.eqb c dquote || Ascii.eqb c newline.

(** The test of [s] against the class of comma, double quote and line feed. *)
Fixpoint has_special (s : string) : bool :=
  match s with
  | EmptyString => false
  | String c s' => special c || has_special s'
  end.

(** One cell of a data row. *)
Definition cell (value : jsval) : string :=
  let escaped := double_quotes (to_str value) in
  if has_special escaped
  then String dquote (escaped +:+ String dquote EmptyString)
  else escaped.

(** [arr.join(sep)] *)
Definition join (sep : ascii) (l : list string) : string :=
  String.concat (String sep EmptyString) l.

Definition convertToCSV (data : export_data) : string :=
  let data := match data with DataArray rows => rows | DataObject r => [r] end in
  match data with
  | [] => ""
  | first :: _ =>
      let headers := keys first in
      let csvRows :=
        join comma headers
        :: map (fun row => join comma (map (fun header => cell (get row header)) headers))
               data in
      join newline csvRows
  end.

(** Modelled from the spec: the repository has no reader of CSV text; the
    round trip of the specification needs one.  This is the reader of the
    standard quoting the specification names: records are separated by
    line feeds and fields by commas; a field that starts with a double
    quote runs to the matching closing quote, a doubled quote inside it
    standing for one quote character. *)
Inductive mode : Type :=
| FieldStart
| InPlain
| InQuoted
| QuoteSeen.

(** [cur] is the current field, [row] the fields of the current line and
    [rows] the finished lines, all three most recent first. *)
Fixpoint parse_go (m : mode) (cur : list ascii) (row : list string)
    (rows : list (list string)) (s : string) : option (list (list string)) :=
  let field := string_of_list_ascii (rev cur) in
  match s with
  | EmptyString =>
      match m with
      | InQuoted => None
      | _ => Some (rev (rev (field :: row) :: rows))
      end
  | String c s' =>
      match m with
      | InQuoted =>
          if Ascii.eqb c dquote then parse_go QuoteSeen cur row rows s'
          else parse_go InQuoted (c :: cur) row rows s'
      | QuoteSeen =>
          if Ascii.eqb c dquote then parse_go InQuoted (c :: cur) row rows s'
          else if Ascii.eqb c comma then parse_go FieldStart [] (field :: row) rows s'
          else if Ascii.eqb c newline
               then parse_go FieldStart [] [] (rev (field :: row) :: rows) s'
          else None
      | FieldStart =>
          if Ascii.eqb c dquote then parse_go InQuoted [] row rows s'
          else if Ascii.eqb c comma then parse_go FieldStart [] (field :: row) rows s'
          else if Ascii.eqb c newline
               then parse_go FieldStart [] [] (rev (field :: row) :: rows) s'
          else parse_go InPlain (c :: cur) row rows s'
      | InPlain =>
          if Ascii.eqb c comma then parse_go FieldStart [] (field :: row) rows s'
          else if Ascii.eqb c newline
               then parse_go FieldStart [] [] (rev (field :: row) :: rows) s'
          else parse_go InPlain (c :: cur) row rows s'
      end
  end.

Definition parseCSV (s : string) : option (list (list string)) :=
  parse_go FieldStart [] [] [] s.

(** What the reader does once a field is complete: [rest] is what is left
    of the text, starting at the separator. *)
Definition after_field (field : string) (row : list string)
    (rows : list (list string)) (rest : string) : option (list (list string)) :=
  match rest with
  | EmptyString => Some (rev (rev (field :: row) :: rows))
  | String c rest' =>
      if Ascii.eqb c comma then parse_go FieldStart [] (field :: row) rows rest'
      else if Ascii.eqb c newline
           then parse_go FieldStart [] [] (rev (field :: row) :: rows) rest'
      else None
  end.

(** The text is at the end of a field, or of a line. *)
Definition at_field_end (rest : string) : Prop :=
  match rest with
  | EmptyString => True
  | String c _ => c = comma \/ c = newline
  end.

Definition at_line_end (rest : string) : Prop :=
  match rest with
  | EmptyString => True
  | String c _ => c = newline
  end.

(** A line of the text has at least one field: no field at all reads back
    as one empty field. *)
Definition as_read (fields : list string) : list string :=
  match fields with [] => [""] | _ => fields end.

(** The table a CSV text of [data] is read back to, when the columns are
    those of [headers]. *)
Definition table_of (headers : list string) (data : list record) : list (list string) :=
  as_read headers
  :: map (fun row => as_read (map (fun header => to_str (get row header)) headers)) data.

(** The round trip as the specification words it: the text parses into a
    header line and as many data lines as there are records, and every
    field of every record is found again, as text, in the column that
    carries the field's name. *)
Definition round_trip (data : list record) : Prop :=
  exists header rows,
    parseCSV (convertToCSV (DataArray data)) = Some (header :: rows)
    /\ length rows = length data
    /\ forall i r row k,
         data !! i = Some r -> rows !! i = Some row -> k ∈ keys r ->
         exists j, header !! j = Some k /\ row !! j = Some (to_str (get r k)).

(** The quoting rule as the specification words it: a value is wrapped in
    quotes exactly when it contains a comma, a double quote or a line
    feed, and its double quotes are doubled. *)
Definition quoted_field (s : string) : string :=
  if has_special s
  then String dquote (double_quotes s +:+ String dquote EmptyString)
  else s.

(** Records used as examples: a field name that holds a line feed, two
    records with different field names, and a product row whose name
    holds a comma and a double quote. *)
Definition split_name_record : record :=
  [(String "a" (String newline "b"), VNum 1)].

Definition only_a : record := [("a", VNum 1)].
Definition only_b : record := [("b", VNum 2)].

Definition product_row : record :=
  [("id", VStr "p1");
   ("name", VStr ("Monitor, 27" +:+ String dquote " wide"));
   ("price", VNum 249)].

(** One line of the text, every field written by the quoting rule. *)
Definition render_line (fields : list string) : string :=
  join comma (map quoted_field fields).

End Csv.

(** ** Reading a collection from its JSON file *)

Module Store.

(** The outcome of a call: a value, or an exception. *)
Inductive outcome (A : Type) : Type :=
| Returned (a : A)
| Thrown (e : string).
Arguments Returned {A} a.
Arguments Thrown {A} e.

(** What a call does to the outside world. *)
Inductive event : Type :=
| ReadFile (path : option string)
| ConsoleError (message : string) (error : string).

(** The file system and the JSON reader the program runs against; [item]
    is the type of the elements of a parsed collection.  The data files
    of the program hold arrays; a file whose JSON text is another value
    (such as [null]) is outside this model. *)
Record world (item : Type) : Type := mkWorld {
  readFileSync : string -> outcome string;
  JSON_parse : string -> outcome (list item)
}.
Arguments readFileSync {item} w path.
Arguments JSON_parse {item} w text.

(** [DATA_FILES[fileName]], relative to [DATA_DIR]; [None] is [undefined]. *)
Definition DATA_FILES (fileName : string) : option string :=
  if (fileName =? "users")%string then Some "users.json"
  else if (fileName =? "products")%string then Some "products.json"
  else if (fileName =? "orders")%string then Some "orders.json"
  else if (fileName =? "categories")%string then Some "categories.json"
  else None.

(** [fs.readFileSync(path, 'utf8')]; a path that is not a string is a
    [TypeError]. *)
Definition fs_read {item} (w : world item) (path : option string) : outcome string :=
  match path with
  | Some p => readFileSync w p
  | None => Thrown "ERR_INVALID_ARG_TYPE"
  end.

(** [readData]: the outcome of the call and the events it caused, in order. *)
Definition readData {item} (w : world item) (fileName : string)
    : outcome (list item) * list event :=
  let path := DATA_FILES fileName in
  match fs_read w path with
  | Returned data =>
      match JSON_parse w data with
      | Returned v => (Returned v, [ReadFile path])
      | Thrown error =>
          (Returned [], [ReadFile path; ConsoleError ("Error reading " +:+ fileName +:+ ":") error])
      end
  | Thrown error =>
      (Returned [], [ReadFile path; ConsoleError ("Error reading " +:+ fileName +:+ ":") error])
  end.

(** Propagation of a failed read as the specification words it: the
    exception of the read is the outcome of [readData]. *)
Definition propagates_failure {item} (w : world item) (fileName : string) : Prop :=
  forall e, fs_read w (DATA_FILES fileName) = Thrown e ->
            fst (readData w fileName) = Thrown e.

End Store.

(** ** More of the date object: clock fields and ISO text *)

Module Clock.

Definition msPerHour : Z := 60 * 60 * 1000.

(** [date.getHours()], [getMinutes()], [getSeconds()], [getMilliseconds()]. *)
Definition getHours (t : Z) : Z := (t mod JS.msPerDay) / msPerHour.
Definition getMinutes (t : Z) : Z := (t mod msPerHour) / 60000.
Definition getSeconds (t : Z) : Z := (t mod 60000) / 1000.
Definition getMilliseconds (t : Z) : Z := t mod 1000.

(** [date.getDay()]: 0 is Sunday; the epoch was a Thursday. *)
Definition getDay (t : Z) : Z := (t / JS.msPerDay + 4) mod 7.

Fixpoint zeros (n : nat) : string :=
  match n with O => "" | S n' => String "0" (zeros n') end.

(** [s.padStart(n, '0')] *)
Definition padStart (n : nat) (s : string) : string :=
  zeros (n - String.length s) +:+ s.

(** The year of an ISO text: four digits from 0 to 9999, otherwise a sign
    and six digits. *)
Definition isoYear (y : Z) : string :=
  if (0 <=? y) && (y <=? 9999) then padStart 4 (pretty y)
  else (if y <? 0 then "-" else "+") +:+ padStart 6 (pretty (Z.abs y)).

(** [date.toISOString()] of a valid date. *)
Definition toISOString (t : Z) : string :=
  isoYear (JS.getFullYear t) +:+ "-" +:+ padStart 2 (pretty (JS.getMonth t + 1))
  +:+ "-" +:+ padStart 2 (pretty (JS.getDate t))
  +:+ "T" +:+ padStart 2 (pretty (getHours t))
  +:+ ":" +:+ padStart 2 (pretty (getMinutes t))
  +:+ ":" +:+ padStart 2 (pretty (getSeconds t))
  +:+ "." +:+ padStart 3 (pretty (getMilliseconds t)) +:+ "Z".

(** [s.slice(0, n)] *)
Fixpoint prefix (n : nat) (s : string) : string :=
  match n, s with
  | S n', String c s' => String c (prefix n' s')
  | _, _ => ""
  end.

(** [s.split('T')[0]] *)
Fixpoint before_T (s : string) : string :=
  match s with
  | EmptyString => EmptyString
  | String c s' => if Ascii.eqb c "T"%char then EmptyString else String c (before_T s')
  end.

(** [new Date(year, month, day)]: midnight of that day; a year from 0 to
    99 stands for 1900 + year. *)
Definition dateOf (year month day : Z) : Z :=
  let y := if (0 <=? year) && (year <=? 99) then 1900 + year else year in
  (JS.month_start (12 * y + month) + day - 1) * JS.msPerDay.

(** [new Date(year, 0, 1)]: midnight of 1 January; a year from 0 to 99
    stands for 1900 + year. *)
Definition firstDayOfYear (year : Z) : Z :=
  let y := if (0 <=? year) && (year <=? 99) then 1900 + year else year in
  JS.month_start (12 * y) * JS.msPerDay.

(** [getWeekNumber(date)] of a valid date. *)
Definition getWeekNumber (t : Z) : Z :=
  let first := firstDayOfYear (JS.getFullYear t) in
  let pastDaysOfYear := (inject_Z (t - first) / 86400000)%Q in
  Qceiling ((pastDaysOfYear + inject_Z (getDay first) + 1) / 7).

End Clock.

(** ** Orders and products in full *)

(** A line of [order.items]. *)
Record line_item : Type := mkItem {
  li_productId : option string;
  li_quantity : option Z;
  li_price : option Z
}.

(** An order with its line items ([order.items], absent in some records)
    and the methods [order.payment?.method] and [order.shipping?.method]. *)
Record order_details : Type := mkDetails {
  od_order : order;
  od_items : option (list line_item);
  od_payment_method : option string;
  od_shipping_method : option string
}.

(** A product with its name, category and prices. *)
Record catalog_product : Type := mkCatalogProduct {
  cp_product : product;
  cp_name : option string;
  cp_category : option string;
  cp_price : option Z;
  cp_discountPrice : option Z
}.

(** [a || b] on a string that may be absent: the empty string is falsy. *)
Definition string_or (a : option string) (b : string) : string :=
  match a with
  | Some s => if (s =? "")%string then b else s
  | None => b
  end.

(** A value used as a property name: [undefined] reads ["undefined"]. *)
Definition property_name (a : option string) : string := default "undefined" a.

(** ** Daily series of the admin dashboard *)

Module Daily.

Record revenue_point : Type := mkRevenuePoint {
  rp_date : string;
  rp_revenue : Z
}.

Record growth_point : Type := mkGrowthPoint {
  gp_date : string;
  gp_users : nat;
  gp_cumulative : nat
}.

(** [orderDate >= date && orderDate < nextDay && o.status === 'delivered'] *)
Definition delivered_on (date nextDay : Z) (o : order) : bool :=
  JS.ge (orderDate o) date && JS.lt (orderDate o) nextDay
  && (o_status o =? "delivered")%string.

(** Body of the loop of [getRevenueTrend] for the loop variable [i]. *)
Definition revenue_of_day (orders : list order) (now : Z) (i : nat) : revenue_point :=
  let date := JS.addDays now (- Z.of_nat i) in
  let nextDay := JS.addDays date 1 in
  let dailyRevenue :=
    foldl (fun sum o => sum + total_or_0 o) 0
          (filter (fun o => delivered_on date nextDay o = true) orders) in
  {| rp_date := Clock.before_T (Clock.toISOString date); rp_revenue := dailyRevenue |}.

(** [getRevenueTrend(orders, days)]; [now] is the value of [new Date()]. *)
Definition getRevenueTrend (orders : list order) (days : nat) (now : Z) : list revenue_point :=
  map (revenue_of_day orders now) (loop_indices days).

(** [created >= date && created < nextDay] and [created < nextDay]. *)
Definition created_on (date nextDay : Z) (u : user) : bool :=
  JS.ge (JS.newDate (u_createdAt u)) date && JS.lt (JS.newDate (u_createdAt u)) nextDay.

Definition created_before (nextDay : Z) (u : user) : bool :=
  JS.lt (JS.newDate (u_createdAt u)) nextDay.

Definition growth_of_day (users : list user) (now : Z) (i : nat) : growth_point :=
  let date := JS.addDays now (- Z.of_nat i) in
  let nextDay := JS.addDays date 1 in
  {| gp_date := Clock.before_T (Clock.toISOString date);
     gp_users := length (filter (fun u => created_on date nextDay u = true) users);
     gp_cumulative := length (filter (fun u => created_before nextDay u = true) users) |}.

(** [getUserGrowth(users, days)] *)
Definition getUserGrowth (users : list user) (days : nat) (now : Z) : list growth_point :=
  map (growth_of_day users now) (loop_indices days).

(** Two users, created half a day and a day and a half after the epoch. *)
Definition two_users : list user :=
  [ mkUser "user_a" (JS.Stamp (JS.msPerDay / 2)) JS.Missing;
    mkUser "user_b" (JS.Stamp (JS.msPerDay + JS.msPerDay / 2)) JS.Missing ].

End Daily.

(** ** Distributions: how many records carry each value of a field *)

(** The names that every object inherits from [Object.prototype].  An
    object used as a map reads these as present before anything is stored
    under them; the association lists below stand for the object on the
    other keys. *)
Definition Object_prototype_names : list string :=
  [ "constructor"; "__defineGetter__"; "__defineSetter__"; "hasOwnProperty";
    "__lookupGetter__"; "__lookupSetter__"; "isPrototypeOf"; "propertyIsEnumerable";
    "toString"; "valueOf"; "__proto__"; "toLocaleString" ].

Definition plain_key (k : string) : Prop := k ∉ Object_prototype_names.

#[global] Instance plain_key_dec (k : string) : Decision (plain_key k).
Proof. unfold plain_key. apply _. Defined.

Module Distribution.

Record share : Type := mkShare {
  sh_key : string;
  sh_count : Z;
  sh_percentage : JS.fixed
}.

(** [distribution[k] = (distribution[k] || 0) + 1] over the keys [ks]. *)
Definition tally (ks : list string) : list (string * Z) :=
  foldl (fun distribution k => Segmentation.add_spend distribution k 1) [] ks.

(** [Object.entries(distribution).map(([k, count]) => ({k, count,
    percentage: (count / n * 100).toFixed(1)}))] *)
Definition shares (distribution : list (string * Z)) (n : nat) : list share :=
  map (fun '(k, count) =>
         mkShare k count
           (JS.toFixed 1 (JS.scale (JS.div (inject_Z count) (inject_Z (Z.of_nat n))) 100)))
      distribution.

(** [order.status || 'pending'] *)
Definition status_or_pending (o : order) : string :=
  if (o_status o =? "")%string then "pending" else o_status o.

Definition getOrderStatusDistribution (orders : list order) : list share :=
  shares (tally (map status_or_pending orders)) (length orders).

(** [order.payment?.method || 'unknown'] and [order.shipping?.method || 'standard'] *)
Definition getPaymentMethodDistribution (orders : list order_details) : list share :=
  shares (tally (map (fun o => string_or (od_payment_method o) "unknown") orders))
         (length orders).

Definition getShippingMethodDistribution (orders : list order_details) : list share :=
  shares (tally (map (fun o => string_or (od_shipping_method o) "standard") orders))
         (length orders).

(** [distribution[product.category]] *)
Definition getCategoryDistribution (products : list catalog_product) : list share :=
  shares (tally (map (fun p => property_name (cp_category p)) products))
         (length products).

(** The properties of a distribution over the keys [ks]: every key once,
    with a count of at least 1 and a percentage that is a number, the
    counts adding up to the number of keys. *)
Definition distributes (ks : list string) (rows : list share) : Prop :=
  NoDup (map sh_key rows)
  /\ sumZ (map sh_count rows) = Z.of_nat (length ks)
  /\ Forall (fun s => 1 <= sh_count s /\ JS.is_number (sh_percentage s)) rows
  /\ forall k, k ∈ map sh_key rows <-> k ∈ ks.

End Distribution.

(** ** Customer lifetime value and churn *)

Module Customers.

(** [if (!obj[k]) obj[k] = 0; obj[k] += v] *)
Fixpoint add_value (obj : list (string * Z)) (k : string) (v : Z) : list (string * Z) :=
  match obj with
  | [] => [(k, 0 + v)]
  | (k', v') :: rest =>
      if (k' =? k)%string then (k', (if v' =? 0 then 0 else v') + v) :: rest
      else (k', v') :: add_value rest k v
  end.

Definition customerValues (orders : list order) : list (string * Z) :=
  foldl (fun obj o =>
           match truthy_userId o with
           | Some id => add_value obj id (total_or_0 o)
           | None => obj
           end) [] orders.

(** [users] is not read by the source. *)
Definition calculateCustomerLifetimeValue (users : list user) (orders : list order)
    : JS.jsnum :=
  let values := map snd (customerValues orders) in
  if (length values =? 0)%nat then JS.Num 0
  else
    let avg := JS.div (inject_Z (foldl (fun sum val => sum + val) 0 values))
                      (inject_Z (Z.of_nat (length values))) in
    avg.

(** The value [calculateChurnRate] returns: the number 0, or the text of
    [toFixed(1)]. *)
Inductive churn : Type :=
| ChurnZero
| ChurnText (f : JS.fixed).

Definition is_active (orders : list order) (thirtyDaysAgo : Z) (u : user) : bool :=
  match Segmentation.lastOrder orders u with
  | None => false
  | Some lastOrder => JS.ge (orderDate lastOrder) thirtyDaysAgo
  end.

(** [now1] and [now2] are the values of the two calls of [Date.now()]. *)
Definition calculateChurnRate (users : list user) (orders : list order) (now1 now2 : Z)
    : churn :=
  let thirtyDaysAgo := now1 - Segmentation.days 30 in
  let ninetyDaysAgo := now2 - Segmentation.days 90 in
  let activeUsers := filter (fun u => is_active orders thirtyDaysAgo u = true) users in
  let totalActive :=
    length (filter (fun u => JS.ge (JS.newDate (u_createdAt u)) ninetyDaysAgo = true) users) in
  if (totalActive =? 0)%nat then ChurnZero
  else ChurnText
         (JS.toFixed 1
            (JS.scale (JS.div (inject_Z (Z.of_nat totalActive - Z.of_nat (length activeUsers)))
                              (inject_Z (Z.of_nat totalActive))) 100)).

End Customers.

(** What one order adds to the revenue of the days from [date] up to, not
    including, [nextDay]. *)
Definition Daily_share (date nextDay : Z) (o : order) : Z :=
  if Daily.delivered_on date nextDay o then total_or_0 o else 0.

(** The orders that are attributed to a customer, and their total. *)
Definition attributed_total (orders : list order) : Z :=
  sumZ (map total_or_0 (filter (fun o => is_Some (truthy_userId o)) orders)).

(** ** The recency conditions of [segmentCustomers], per user *)

(** [createdAt >= thirtyDaysAgo] *)
Definition joined_recently (now : Z) (u : user) : bool :=
  JS.ge (JS.newDate (u_createdAt u)) (now - Segmentation.days 30).

(** [lastOrder && lastOrderDate < sixtyDaysAgo && lastOrderDate >= oneTwentyDaysAgo] *)
Definition is_at_risk (orders : list order) (now : Z) (u : user) : bool :=
  match Segmentation.lastOrder orders u with
  | Some lastOrder =>
      JS.lt (orderDate lastOrder) (now - Segmentation.days 60)
      && JS.ge (orderDate lastOrder) (now - Segmentation.days 120)
  | None => false
  end.

(** [lastOrder && lastOrderDate < oneTwentyDaysAgo] *)
Definition is_dormant (orders : list order) (now : Z) (u : user) : bool :=
  match Segmentation.lastOrder orders u with
  | Some lastOrder => JS.lt (orderDate lastOrder) (now - Segmentation.days 120)
  | None => false
  end.

(** The date of the latest order of [u]: the largest of the dates of the
    orders placed by [u]; [None] when [u] has placed no dated order. *)
Definition latest_order_date (orders : list order) (u : user) : option Z :=
  match omap orderDate (filter (fun o => placed_by u o = true) orders) with
  | [] => None
  | t :: dates => Some (foldr Z.max t dates)
  end.

(** The latest order is more than 60 and at most 120 days old, and more
    than 120 days old. *)
Definition at_risk_by_date (orders : list order) (now : Z) (u : user) : bool :=
  match latest_order_date orders u with
  | Some t => (t <? now - Segmentation.days 60) && (now - Segmentation.days 120 <=? t)
  | None => false
  end.

Definition dormant_by_date (orders : list order) (now : Z) (u : user) : bool :=
  match latest_order_date orders u with
  | Some t => t <? now - Segmentation.days 120
  | None => false
  end.

(** The date of a dated order; 0 stands in for no date. *)
Definition date_or_0 (o : order) : Z := default 0 (orderDate o).

(** ** Order analytics ([/api/admin/analytics/orders]): hours and groups *)

(** [a >= b] and [a <= b] on two dates that may both be invalid. *)
Definition date_ge (a b : option Z) : bool :=
  match b with Some t => JS.ge a t | None => false end.
Definition date_le (a b : option Z) : bool :=
  match b with Some t => JS.le a t | None => false end.

Module Hourly.

Record hour_row : Type := mkHourRow {
  hr_hour : Z;
  hr_orders : Z;
  hr_revenue : Z
}.

(** [Array(24).fill(0).map((_, i) => ({hour: i, orders: 0, revenue: 0}))] *)
Definition empty_hours : list hour_row :=
  map (fun i => mkHourRow (Z.of_nat i) 0 0) (seq 0 24).

(** Body of [orders.forEach(order => { ... })].  For an Invalid Date
    [getHours()] is NaN and [hours[NaN]] is [undefined]: reading [.orders]
    of it throws a [TypeError]. *)
Definition add_sale (hours : list hour_row) (o : order) : Store.outcome (list hour_row) :=
  match orderDate o with
  | None => Store.Thrown "TypeError"
  | Some date =>
      let hour := Z.to_nat (Clock.getHours date) in
      match hours !! hour with
      | Some r =>
          Store.Returned
            (<[hour := mkHourRow (hr_hour r) (hr_orders r + 1) (hr_revenue r + total_or_0 o)]>
               hours)
      | None => Store.Thrown "TypeError"
      end
  end.

Fixpoint add_sales (hours : list hour_row) (orders : list order)
    : Store.outcome (list hour_row) :=
  match orders with
  | [] => Store.Returned hours
  | o :: rest =>
      match add_sale hours o with
      | Store.Returned hours' => add_sales hours' rest
      | Store.Thrown e => Store.Thrown e
      end
  end.

Definition getSalesByHour (orders : list order) : Store.outcome (list hour_row) :=
  add_sales empty_hours orders.

(** The order is dated in hour [h] of its day. *)
Definition in_hour (h : nat) (o : order) : Prop :=
  exists date, orderDate o = Some date /\ Z.to_nat (Clock.getHours date) = h.

#[global] Instance in_hour_dec h o : Decision (in_hour h o).
Proof.
  unfold in_hour. destruct (orderDate o) as [date|].
  - destruct (decide (Z.to_nat (Clock.getHours date) = h)) as [E|E].
    + left. exists date. auto.
    + right. intros (d & Hd & Hh). congruence.
  - right. intros (d & Hd & _). discriminate.
Defined.

End Hourly.

Module Grouping.

(** One entry of [groups]; the [Set] of customers is the list of its
    members in insertion order. *)
Record group : Type := mkGroup {
  g_orders : Z;
  g_revenue : Z;
  g_items : Z;
  g_customers : list string
}.

Record group_row : Type := mkGroupRow {
  gr_date : string;
  gr_orders : Z;
  gr_revenue : Z;
  gr_avgOrderValue : JS.jsnum;
  gr_itemsPerOrder : JS.jsnum;
  gr_uniqueCustomers : nat
}.

(** The key of an order dated [date]: a slice of [toISOString()], which
    throws a [RangeError] on an Invalid Date; the year and week number;
    or [undefined], which as a property name reads ["undefined"]. *)
Definition iso_slice (n : nat) (date : option Z) : Store.outcome string :=
  match date with
  | Some t => Store.Returned (Clock.prefix n (Clock.toISOString t))
  | None => Store.Thrown "RangeError"
  end.

Definition week_key (date : option Z) : string :=
  match date with
  | Some t => pretty (JS.getFullYear t) +:+ "-W" +:+ pretty (Clock.getWeekNumber t)
  | None => "NaN-WNaN"
  end.

Definition key_of (groupBy : string) (date : option Z) : Store.outcome string :=
  if (groupBy =? "hour")%string then iso_slice 13 date
  else if (groupBy =? "day")%string then iso_slice 10 date
  else if (groupBy =? "week")%string then Store.Returned (week_key date)
  else if (groupBy =? "month")%string then iso_slice 7 date
  else Store.Returned "undefined".

(** [customers.add(id)] *)
Definition set_add (s : list string) (id : string) : list string :=
  if decide (id ∈ s) then s else s ++ [id].

(** [order.items?.length || 0] *)
Definition items_length (o : order_details) : Z :=
  match od_items o with
  | Some items => Z.of_nat (length items)
  | None => 0
  end.

(** The four updates of [groups[key]]. *)
Definition count_order (g : group) (o : order_details) : group :=
  {| g_orders := g_orders g + 1;
     g_revenue := g_revenue g + total_or_0 (od_order o);
     g_items := g_items g + items_length o;
     g_customers :=
       match truthy_userId (od_order o) with
       | Some id => set_add (g_customers g) id
       | None => g_customers g
       end |}.

(** [if (!groups[key]) groups[key] = {...}] and the updates. *)
Fixpoint add_to_group (groups : list (string * group)) (key : string) (o : order_details)
    : list (string * group) :=
  match groups with
  | [] => [(key, count_order (mkGroup 0 0 0 []) o)]
  | (k, g) :: rest =>
      if (k =? key)%string then (k, count_order g o) :: rest
      else (k, g) :: add_to_group rest key o
  end.

Fixpoint add_orders (groupBy : string) (groups : list (string * group))
    (orders : list order_details) : Store.outcome (list (string * group)) :=
  match orders with
  | [] => Store.Returned groups
  | o :: rest =>
      match key_of groupBy (orderDate (od_order o)) with
      | Store.Returned key => add_orders groupBy (add_to_group groups key o) rest
      | Store.Thrown e => Store.Thrown e
      end
  end.

Definition to_row (entry : string * group) : group_row :=
  let '(date, data) := entry in
  {| gr_date := date;
     gr_orders := g_orders data;
     gr_revenue := g_revenue data;
     gr_avgOrderValue :=
       if 0 <? g_orders data
       then JS.div (inject_Z (g_revenue data)) (inject_Z (g_orders data))
       else JS.Num 0;
     gr_itemsPerOrder :=
       if 0 <? g_orders data
       then JS.div (inject_Z (g_items data)) (inject_Z (g_orders data))
       else JS.Num 0;
     gr_uniqueCustomers := length (g_customers data) |}.

(** [groupOrdersByDate(orders, groupBy)]; [localeCompare] is the collation
    of the host. *)
Definition groupOrdersByDate (localeCompare : string -> string -> Z)
    (orders : list order_details) (groupBy : string) : Store.outcome (list group_row) :=
  match add_orders groupBy [] orders with
  | Store.Returned groups =>
      Store.Returned
        (js_sort (fun a b => localeCompare (gr_date a) (gr_date b)) (map to_row groups))
  | Store.Thrown e => Store.Thrown e
  end.

(** The [groupBy] values whose key is cut from [toISOString()]. *)
Definition by_iso (groupBy : string) : Prop :=
  groupBy = "hour" \/ groupBy = "day" \/ groupBy = "month".

End Grouping.

(** A group that has been counted into at least once. *)
Definition counted (g : Grouping.group) : Prop :=
  1 <= Grouping.g_orders g
  /\ Z.of_nat (length (Grouping.g_customers g)) <= Grouping.g_orders g.

(** The bounds and the filter of the handler.  [startDate] and [endDate]
    are the query parameters; [now1] and [now2] are the values of
    [Date.now()] and [new Date()]. *)
Definition analytics_start (startDate : JS.datefield) (now1 : Z) : option Z :=
  match startDate with
  | JS.Missing => Some (now1 - Segmentation.days 30)
  | given => JS.newDate given
  end.

Definition analytics_end (endDate : JS.datefield) (now2 : Z) : option Z :=
  match endDate with
  | JS.Missing => Some now2
  | given => JS.newDate given
  end.

Definition filteredOrders (orders : list order_details) (start end_ : option Z)
    : list order_details :=
  filter (fun o => date_ge (orderDate (od_order o)) start
                   && date_le (orderDate (od_order o)) end_ = true) orders.

(** ** Top products of the filtered orders *)

Module TopProducts.

(** One entry of [productSales]. *)
Record sales : Type := mkSales {
  s_quantity : Z;
  s_revenue : Z;
  s_orders : Z
}.

Record top_row : Type := mkTopRow {
  tr_productId : string;
  tr_name : string;
  tr_category : string;
  tr_quantity : Z;
  tr_revenue : Z;
  tr_orders : Z
}.

(** [item.quantity || 1] and [item.price || 0] *)
Definition quantity_or_1 (item : line_item) : Z :=
  match li_quantity item with
  | Some q => if q =? 0 then 1 else q
  | None => 1
  end.

Definition price_or_0 (item : line_item) : Z := default 0 (li_price item).

(** The three updates of [productSales[productId]]. *)
Definition count_item (s : sales) (item : line_item) : sales :=
  {| s_quantity := s_quantity s + quantity_or_1 item;
     s_revenue := s_revenue s + price_or_0 item * quantity_or_1 item;
     s_orders := s_orders s + 1 |}.

(** [if (!productSales[productId]) productSales[productId] = {...}] and
    the updates. *)
Fixpoint add_item (productSales : list (string * sales)) (productId : string)
    (item : line_item) : list (string * sales) :=
  match productSales with
  | [] => [(productId, count_item (mkSales 0 0 0) item)]
  | (k, s) :: rest =>
      if (k =? productId)%string then (k, count_item s item) :: rest
      else (k, s) :: add_item rest productId item
  end.

(** [order.items?.forEach(...)] *)
Definition items_of (o : order_details) : list line_item := default [] (od_items o).

(** The line items in the order in which the two nested loops visit them. *)
Definition all_items (orders : list order_details) : list line_item :=
  concat (map items_of orders).

Definition productSales (orders : list order_details) : list (string * sales) :=
  foldl (fun sales item => add_item sales (property_name (li_productId item)) item)
        [] (all_items orders).

Definition to_row (products : list catalog_product) (entry : string * sales) : top_row :=
  let '(productId, data) := entry in
  let product := List.find (fun p => (p_id (cp_product p) =? productId)%string) products in
  {| tr_productId := productId;
     tr_name := string_or (product ≫= cp_name) "Unknown Product";
     tr_category := string_or (product ≫= cp_category) "Unknown";
     tr_quantity := s_quantity data;
     tr_revenue := s_revenue data;
     tr_orders := s_orders data |}.

(** Comparator [(a, b) => b.revenue - a.revenue] *)
Definition by_revenue (a b : top_row) : Z := tr_revenue b - tr_revenue a.

Definition getTopProductsFromOrders (orders : list order_details)
    (products : list catalog_product) (limit : nat) : list top_row :=
  slice 0 limit (js_sort by_revenue (map (to_row products) (productSales orders))).

(** An order of two products: two pieces at 5, and one line at 7 without
    a quantity. *)
Definition two_lines : list order_details :=
  [ mkDetails (Segmentation.one_order "user_a" 17)
              (Some [ mkItem (Some "p1") (Some 2) (Some 5); mkItem (Some "p2") None (Some 7) ])
              None None ].

(** What a line item is worth. *)
Definition item_revenue (item : line_item) : Z := price_or_0 item * quantity_or_1 item.

End TopProducts.

(** ** Pagination of a listing

    The same block closes the product listing, the products of a
    category, the admin user listing and the admin product listing.
    [pageNum] and [limitNum] are the values of [Number(page)] and
    [Number(limit)] when these are integers. *)

Module Pagination.

Record pagination : Type := mkPagination {
  pg_page : Z;
  pg_limit : Z;
  pg_total : nat;
  pg_pages : JS.jsnum;
  pg_hasNext : bool;
  pg_hasPrev : bool
}.

(** [arr.slice(start, end)] for integers: a negative index counts from
    the end of the array, and both are clamped to its bounds. *)
Definition js_slice {A} (start end_ : Z) (arr : list A) : list A :=
  let len := Z.of_nat (length arr) in
  let k := if start <? 0 then Z.max (len + start) 0 else Z.min start len in
  let final := if end_ <? 0 then Z.max (len + end_) 0 else Z.min end_ len in
  take (Z.to_nat (final - k)) (drop (Z.to_nat k) arr).

(** [Math.ceil(x)] *)
Definition Math_ceil (x : JS.jsnum) : JS.jsnum :=
  match x with
  | JS.Num q => JS.Num (inject_Z (Qceiling q))
  | other => other
  end.

(** [Math.ceil(items.length / limitNum)] *)
Definition pages {A} (items : list A) (limitNum : Z) : JS.jsnum :=
  Math_ceil (JS.div (inject_Z (Z.of_nat (length items))) (inject_Z limitNum)).

(** The [data] and [pagination] fields of the response. *)
Definition paginate {A} (items : list A) (pageNum limitNum : Z) : list A * pagination :=
  let startIndex := (pageNum - 1) * limitNum in
  let endIndex := startIndex + limitNum in
  let paginated := js_slice startIndex endIndex items in
  (paginated,
   {| pg_page := pageNum;
      pg_limit := limitNum;
      pg_total := length items;
      pg_pages := pages items limitNum;
      pg_hasNext := endIndex <? Z.of_nat (length items);
      pg_hasPrev := 0 <? startIndex |}).

End Pagination.

(** ** Slugs

    A string is the sequence of its code units, each below 256. *)

Module Slug.

Definition dash : ascii := "-"%char.

(** The class [a-z0-9]. *)
Definition is_alnum (c : ascii) : bool :=
  let n := N_of_ascii c in
  ((97 <=? n) && (n <=? 122) || (48 <=? n) && (n <=? 57))%N.

(** [toLowerCase()] of one code unit: the letters A-Z and the capital
    letters of Latin-1 (all but the multiplication sign) move up by 32. *)
Definition lower (c : ascii) : ascii :=
  let n := N_of_ascii c in
  if ((65 <=? n) && (n <=? 90) || (192 <=? n) && (n <=? 222) && negb (n =? 215))%N
  then ascii_of_N (n + 32) else c.

(** [s.replace(/[^a-z0-9]+/g, '-')]: every maximal run of other
    characters becomes one dash; [in_run] says that the run the scan is in
    has been replaced already. *)
Fixpoint replace_runs (in_run : bool) (s : list ascii) : list ascii :=
  match s with
  | [] => []
  | c :: s' =>
      if is_alnum c then c :: replace_runs false s'
      else if in_run then replace_runs true s'
      else dash :: replace_runs true s'
  end.

(** [s.replace(/^-+|-+$/g, '')]: the dashes at the start go, then the
    dashes at the end. *)
Fixpoint strip_leading (s : list ascii) : list ascii :=
  match s with
  | [] => []
  | c :: s' => if Ascii.eqb c dash then strip_leading s' else s
  end.

Fixpoint strip_trailing (s : list ascii) : list ascii :=
  match s with
  | [] => []
  | c :: s' =>
      match strip_trailing s' with
      | [] => if Ascii.eqb c dash then [] else [c]
      | rest => c :: rest
      end
  end.

Definition slug_of (name : list ascii) : list ascii :=
  strip_trailing (strip_leading (replace_runs false (map lower name))).

Definition generateSlug (name : string) : string :=
  string_of_list_ascii (slug_of (list_ascii_of_string name)).

(** No dash is followed by a dash. *)
Fixpoint no_adjacent_dashes (s : list ascii) : Prop :=
  match s with
  | c :: s' =>
      match s' with
      | d :: _ => ~ (c = dash /\ d = dash)
      | [] => True
      end /\ no_adjacent_dashes s'
  | [] => True
  end.

End Slug.

(** ** The admin middleware *)

Module Admin.

(** A record of [users.json], as far as the middleware reads it. *)
Record account : Type := mkAccount {
  ac_id : option string;
  ac_role : option string
}.

(** What the middleware does with a request: it answers with a status
    and an error, or it hands the request on with [req.user] set. *)
Inductive verdict : Type :=
| Reject (status : Z) (error : string)
| Next (user : account).

(** [s] without its prefix [pat], when it has that prefix. *)
Fixpoint strip_prefix (pat s : string) : option string :=
  match pat, s with
  | EmptyString, _ => Some s
  | String a pat', String b s' => if Ascii.eqb a b then strip_prefix pat' s' else None
  | String _ _, EmptyString => None
  end.

(** [s.replace(pat, '')] for a string [pat]: the first occurrence goes. *)
Fixpoint replace_first (pat s : string) : string :=
  match strip_prefix pat s with
  | Some rest => rest
  | None =>
      match s with
      | EmptyString => EmptyString
      | String c s' => String c (replace_first pat s')
      end
  end.

(** [verifyAdmin(req, res, next)].  [authorization] is the header;
    [jwt_verify token] is [jwt.verify(token, JWT_SECRET)] followed by the
    read of [.userId]: it returns that property or throws. *)
Definition verifyAdmin (jwt_verify : string -> Store.outcome (option string))
    (w : Store.world account) (authorization : option string) : verdict :=
  match authorization with
  | None => Reject 401 "No token provided"
  | Some authHeader =>
      if (authHeader =? "")%string then Reject 401 "No token provided"
      else
        let token := replace_first "Bearer " authHeader in
        if (token =? "")%string then Reject 401 "No token provided"
        else
          match jwt_verify token with
          | Store.Thrown _ => Reject 401 "Authentication failed"
          | Store.Returned userId =>
              match fst (Store.readData w "users") with
              | Store.Thrown _ => Reject 401 "Authentication failed"
              | Store.Returned users =>
                  match List.find (fun user => bool_decide (ac_id user = userId)) users with
                  | Some user =>
                      if bool_decide (ac_role user = Some "admin") then Next user
                      else Reject 403 "Admin access required"
                  | None => Reject 403 "Admin access required"
                  end
              end
          end
  end.

End Admin.

(** ** Counting as a special case of revenue

    A delivered order of total 1 with the dates of [o], and one with the
    creation date of [u]: the revenue of such orders over a range is the
    number of orders, or of users, dated in it. *)
Definition counted_as_order (o : order) : order :=
  mkOrder (o_userId o) (Some 1) "delivered" (o_createdAt o) (o_date o).

Definition joined_as_order (u : user) : order :=
  mkOrder None (Some 1) "delivered" (u_createdAt u) JS.Missing.

(** The delivered orders dated in a range. *)
Definition delivered_orders (orders : list order) (start end_ : Z) : list order :=
  filter (fun o => delivered_in start end_ o = true) orders.

(** ** More of the admin dashboard ([/api/admin/dashboard/stats]) *)

Module AdminStats.

(** [new Date(today.getFullYear(), today.getMonth(), 1)] *)
Definition monthStart (today : Z) : Z :=
  Clock.dateOf (JS.getFullYear today) (JS.getMonth today) 1.

(** [orderDate >= monthStart && o.status === 'delivered'] *)
Definition delivered_since (monthStart : Z) (o : order) : bool :=
  JS.ge (orderDate o) monthStart && (o_status o =? "delivered")%string.

Definition monthRevenue (orders : list order) (today : Z) : Z :=
  foldl (fun sum o => sum + total_or_0 o) 0
        (filter (fun o => delivered_since (monthStart today) o = true) orders).

Definition lowStockProducts (products : list product) : nat :=
  length (filter (fun p => (p_stock p <? 10) && (0 <? p_stock p) = true) products).

Definition outOfStockProducts (products : list product) : nat :=
  length (filter (fun p => (p_stock p <=? 0) = true) products).

End AdminStats.

(** ** Real-time statistics ([/api/admin/analytics/realtime]) *)

Module Realtime.

(** [new Date(now.getFullYear(), now.getMonth(), now.getDate())] *)
Definition todayStart (now : Z) : Z :=
  Clock.dateOf (JS.getFullYear now) (JS.getMonth now) (JS.getDate now).

Definition yesterdayStart (now : Z) : Z := todayStart now - 24 * 60 * 60 * 1000.

Definition todayOrders (orders : list order) (now : Z) : list order :=
  filter (fun o => JS.ge (orderDate o) (todayStart now) = true) orders.

Definition yesterdayOrders (orders : list order) (now : Z) : list order :=
  filter (fun o => JS.ge (orderDate o) (yesterdayStart now)
                   && JS.lt (orderDate o) (todayStart now) = true) orders.

(** [l.reduce((sum, order) => sum + (order.total || 0), 0)] *)
Definition revenue (l : list order) : Z := foldl (fun sum o => sum + total_or_0 o) 0 l.

(** [Number(text)] of the text of [toFixed(d)]. *)
Definition Number_of (d : nat) (text : JS.fixed) : JS.jsnum :=
  match text with
  | JS.Fixed n => JS.Num (inject_Z n / inject_Z (10 ^ Z.of_nat d))
  | JS.FixedNaN => JS.NaN
  | JS.FixedInfinity => JS.Infinity
  | JS.FixedNegInfinity => JS.NegInfinity
  end.

(** The [revenueGrowth] field of the response. *)
Definition revenueGrowth (orders : list order) (now : Z) : JS.jsnum :=
  let todayRevenue := revenue (todayOrders orders now) in
  let yesterdayRevenue := revenue (yesterdayOrders orders now) in
  if 0 <? yesterdayRevenue
  then Number_of 1
         (JS.toFixed 1
            (JS.scale (JS.div (inject_Z (todayRevenue - yesterdayRevenue))
                              (inject_Z yesterdayRevenue)) 100))
  else JS.Num 0.

(** [x >= c] for a number; false for NaN. *)
Definition at_least (c : Q) (x : JS.jsnum) : Prop :=
  match x with
  | JS.Num q => (c <= q)%Q
  | JS.Infinity => True
  | _ => False
  end.

End Realtime.

(** ** The customers export *)

Module CustomersExport.

Record customer_row : Type := mkCustomerRow {
  cr_id : string;
  cr_totalOrders : nat;
  cr_totalSpent : Z;
  cr_avgOrderValue : JS.jsnum
}.

(** The row of one user, as far as it depends on the orders. *)
Definition row_of (orders : list order) (u : user) : customer_row :=
  let userOrders := filter (fun o => placed_by u o = true) orders in
  {| cr_id := u_id u;
     cr_totalOrders := length userOrders;
     cr_totalSpent := foldl (fun sum o => sum + total_or_0 o) 0 userOrders;
     cr_avgOrderValue :=
       if (0 <? length userOrders)%nat
       then JS.div (inject_Z (foldl (fun sum o => sum + total_or_0 o) 0 userOrders))
                   (inject_Z (Z.of_nat (length userOrders)))
       else JS.Num 0 |}.

Definition getCustomersExportData (users : list user) (orders : list order)
    : list customer_row :=
  map (row_of orders) users.

End CustomersExport.

(** ** The top-selling product of the day *)

Module TopSelling.


(** [productSales[productId] = (productSales[productId] || 0) + (item.quantity || 1)]
    over the line items of the orders. *)
Definition productSales (todayOrders : list order_details) : list (string * Z) :=
  foldl (fun sales item =>
           Segmentation.add_spend sales (property_name (li_productId item))
                                  (TopProducts.quantity_or_1 item))
        [] (TopProducts.all_items todayOrders).




End TopSelling.

(** * Properties *)

(** ** The calendar *)

Lemma yoe_range doe : 0 <= doe < 146097 -> 0 <= JS.yoe_of doe <= 399.
Proof.
  intros H. unfold JS.yoe_of. Z.to_euclidean_division_equations. lia.
Qed.

Lemma doy_range doe : 0 <= doe < 146097 -> 0 <= JS.doy_of doe <= 365.
Proof.
  intros H. pose proof (yoe_range doe H) as Hy.
  unfold JS.doy_of. cbv zeta. unfold JS.yoe_of in *.
  assert (Hq2 : 0 <= doe / 36524 <= 4) by (Z.to_euclidean_division_equations; lia).
  assert (Hq3 : 0 <= doe / 146096 <= 1) by (Z.to_euclidean_division_equations; lia).
  set (q2 := doe / 36524) in *. set (q3 := doe / 146096) in *.
  assert (Hq : q2 = 0 \/ q2 = 1 \/ q2 = 2 \/ q2 = 3 \/ q2 = 4) by lia.
  assert (Hq' : q3 = 0 \/ q3 = 1) by lia.
  subst q2 q3.
  destruct Hq as [Hq|[Hq|[Hq|[Hq|Hq]]]]; destruct Hq' as [Hq'|Hq'];
    rewrite Hq, Hq' in *; Z.to_euclidean_division_equations; lia.
Qed.

(** The civil date of a day names that day again. *)
Lemma civil_of_days_inv days :
  let '(y, m, d) := JS.civil_of_days days in
  JS.month_start (12 * y + m) + d - 1 = days.
Proof.
  unfold JS.civil_of_days. cbv zeta.
  set (z := days + 719468).
  set (era := z / 146097).
  set (doe := z - era * 146097).
  assert (Hdoe : 0 <= doe < 146097)
    by (subst doe era; Z.to_euclidean_division_equations; lia).
  pose proof (yoe_range doe Hdoe) as Hy.
  pose proof (doy_range doe Hdoe) as Hd.
  assert (Hdoy : JS.doy_of doe =
                 doe - (365 * JS.yoe_of doe + JS.yoe_of doe / 4 - JS.yoe_of doe / 100))
    by reflexivity.
  set (yoe := JS.yoe_of doe) in *. set (doy := JS.doy_of doe) in *.
  set (mp := (5 * doy + 2) / 153).
  assert (Hmp : 0 <= mp <= 11) by (subst mp; Z.to_euclidean_division_equations; lia).
  set (m := if mp <? 10 then mp + 2 else mp - 10).
  set (y := yoe + era * 400 + (if m <? 2 then 1 else 0)).
  assert (Hk : 12 * y + m - 2 = 12 * (yoe + era * 400) + mp).
  { subst y m. destruct (mp <? 10) eqn:E1.
    - destruct (mp + 2 <? 2) eqn:E2; lia.
    - destruct (mp - 10 <? 2) eqn:E2; lia. }
  unfold JS.month_start. cbv zeta. rewrite Hk.
  replace ((12 * (yoe + era * 400) + mp) / 12) with (yoe + era * 400)
    by (Z.to_euclidean_division_equations; lia).
  replace ((12 * (yoe + era * 400) + mp) mod 12) with mp
    by (Z.to_euclidean_division_equations; lia).
  replace ((yoe + era * 400) / 4) with (yoe / 4 + era * 100)
    by (Z.to_euclidean_division_equations; lia).
  replace ((yoe + era * 400) / 100) with (yoe / 100 + era * 4)
    by (Z.to_euclidean_division_equations; lia).
  replace ((yoe + era * 400) / 400) with era
    by (Z.to_euclidean_division_equations; lia).
  subst doe z. lia.
Qed.

Lemma addMonths_0 t : JS.addMonths t 0 = t.
Proof.
  unfold JS.addMonths, JS.getFullYear, JS.getMonth, JS.getDate. cbv zeta.
  pose proof (civil_of_days_inv (t / JS.msPerDay)) as H.
  destruct (JS.civil_of_days (t / JS.msPerDay)) as [[y m] d]. simpl.
  rewrite Z.add_0_r, H.
  pose proof (Z.div_mod t JS.msPerDay). unfold JS.msPerDay in *. lia.
Qed.

Lemma month_start_succ n : JS.month_start n < JS.month_start (n + 1).
Proof.
  unfold JS.month_start. Z.to_euclidean_division_equations. lia.
Qed.

Lemma month_start_mono n k : 0 <= k -> JS.month_start n <= JS.month_start (n + k).
Proof.
  intros Hk. revert n. pattern k. apply natlike_ind; [| |exact Hk].
  - intros n. rewrite Z.add_0_r. lia.
  - intros j Hj IH n. pose proof (month_start_succ (n + j)) as Hs.
    specialize (IH n). replace (n + Z.succ j) with (n + j + 1) by lia. lia.
Qed.

Lemma addMonths_mono t i j : i <= j -> JS.addMonths t i <= JS.addMonths t j.
Proof.
  intros Hij. unfold JS.addMonths. cbv zeta.
  pose proof (month_start_mono (12 * JS.getFullYear t + JS.getMonth t + i) (j - i)) as H.
  replace (12 * JS.getFullYear t + JS.getMonth t + i + (j - i))
    with (12 * JS.getFullYear t + JS.getMonth t + j) in H by lia.
  unfold JS.msPerDay. lia.
Qed.

(** ** Trend buckets and the revenue total (C1) *)

Lemma sumZ_app (l1 l2 : list Z) : sumZ (l1 ++ l2) = sumZ l1 + sumZ l2.
Proof.
  unfold sumZ. induction l1 as [|x l1 IH]; simpl; [reflexivity|].
  rewrite IH. lia.
Qed.

Lemma sumZ_rev (l : list Z) : sumZ (rev l) = sumZ l.
Proof.
  induction l as [|x l IH]; [reflexivity|].
  simpl. rewrite sumZ_app, IH. unfold sumZ. simpl. lia.
Qed.

Section Buckets.

Variable orders : list order.

Lemma foldl_add_from (f : order -> Z) (l : list order) (acc : Z) :
  foldl (fun sum o => sum + f o) acc l = acc + foldl (fun sum o => sum + f o) 0 l.
Proof.
  revert acc. induction l as [|o l IH]; intros acc; simpl; [lia|].
  rewrite (IH (acc + f o)), (IH (0 + f o)). lia.
Qed.

Lemma revenue_as_shares_of (l : list order) (a c : Z) :
  calculateTotalRevenue l a c = sumZ (map (revenue_share a c) l).
Proof.
  unfold calculateTotalRevenue, sumZ.
  induction l as [|o l IH]; [reflexivity|].
  rewrite filter_cons. simpl. unfold revenue_share at 1.
  destruct (decide (delivered_in a c o = true)) as [Hd|Hd].
  - rewrite Hd. simpl. rewrite foldl_add_from, IH. lia.
  - apply not_true_is_false in Hd. rewrite Hd, IH. lia.
Qed.

Lemma share_split (a b c : Z) (o : order) :
  a <= b <= c -> revenue_share a b o + revenue_share b c o = revenue_share a c o + revenue_share b b o.
Proof.
  intros Hab. unfold revenue_share, delivered_in, JS.ge, JS.le.
  destruct (orderDate o) as [t|]; [|reflexivity].
  destruct (o_status o =? "delivered")%string; rewrite ?andb_false_r; [|reflexivity].
  rewrite !andb_true_r.
  destruct (a <=? t) eqn:E1, (t <=? b) eqn:E2, (b <=? t) eqn:E3, (t <=? c) eqn:E4;
    simpl; lia.
Qed.

Lemma revenue_split (a b c : Z) :
  a <= b <= c ->
  calculateTotalRevenue orders a b + calculateTotalRevenue orders b c
  = calculateTotalRevenue orders a c + calculateTotalRevenue orders b b.
Proof.
  intros Hab. rewrite !revenue_as_shares_of.
  induction orders as [|o l IH]; [reflexivity|].
  unfold sumZ in *. simpl. pose proof (share_split a b c o Hab). lia.
Qed.

(** Revenue of delivered orders dated exactly [b]: nothing, when no
    delivered order carries that date. *)
Lemma revenue_at_instant (b : Z) :
  (forall o, o ∈ orders -> o_status o = "delivered" -> orderDate o <> Some b) ->
  calculateTotalRevenue orders b b = 0.
Proof.
  intros H. rewrite revenue_as_shares_of.
  induction orders as [|o l IH]; [reflexivity|].
  unfold sumZ in *. simpl. rewrite IH.
  - assert (Hs : revenue_share b b o = 0); [|lia].
    unfold revenue_share, delivered_in, JS.ge, JS.le.
    destruct (orderDate o) as [t|] eqn:Et; [|reflexivity].
    destruct (String.eqb_spec (o_status o) "delivered") as [Hst|Hst];
      rewrite ?andb_false_r; [|reflexivity].
    destruct (b <=? t) eqn:E1, (t <=? b) eqn:E2; try reflexivity.
    exfalso. apply (H o); [left|exact Hst|]. rewrite Et. f_equal. lia.
  - intros o' Ho'. apply H. right. exact Ho'.
Qed.

(** Buckets with boundaries [bnd 0 <= bnd 1 <= ...]: their revenues add up
    to the revenue of the whole span plus what lies exactly on the inner
    boundaries, which two neighbouring buckets both count. *)
Lemma buckets_telescope (bnd : nat -> Z) (n : nat) :
  (forall i, bnd i <= bnd (S i)) ->
  sumZ (map (fun i => calculateTotalRevenue orders (bnd i) (bnd (S i))) (seq 0 (S n)))
  = calculateTotalRevenue orders (bnd 0%nat) (bnd (S n))
    + sumZ (map (fun i => calculateTotalRevenue orders (bnd i) (bnd i)) (seq 1 n)).
Proof.
  intros Hmono.
  assert (Hle : forall i, bnd 0%nat <= bnd i).
  { induction i as [|i IH]; [lia|]. specialize (Hmono i). lia. }
  induction n as [|n IH].
  - unfold sumZ. simpl. lia.
  - rewrite seq_S, map_app, sumZ_app, IH.
    rewrite (seq_S n), map_app, sumZ_app.
    unfold sumZ at 2 4. simpl.
    pose proof (revenue_split (bnd 0%nat) (bnd (S n)) (bnd (S (S n)))
                  (conj (Hle (S n)) (Hmono (S n)))).
    lia.
Qed.

End Buckets.

Lemma sumZ_zero {A} (f : A -> Z) (l : list A) :
  (forall x, x ∈ l -> f x = 0) -> sumZ (map f l) = 0.
Proof.
  intros H. induction l as [|x l IH]; [reflexivity|].
  unfold sumZ in *. simpl. rewrite IH, (H x); [lia|left|].
  intros y Hy. apply H. right. exact Hy.
Qed.

Lemma pointAt_0 period start : pointAt period start 0 = start.
Proof.
  unfold pointAt, JS.addDays.
  repeat match goal with |- context [if ?b then _ else _] => destruct b end;
    rewrite ?addMonths_0; lia.
Qed.

Lemma pointAt_mono period start i j :
  i <= j -> pointAt period start i <= pointAt period start j.
Proof.
  intros Hij. unfold pointAt, JS.addDays, JS.msPerDay.
  repeat match goal with |- context [if ?b then _ else _] => destruct b end;
    try lia; apply addMonths_mono; lia.
Qed.

Lemma revenueData_generateTrendData orders products users period start end_ :
  revenueData (generateTrendData orders products users period start end_)
  = map (fun i => calculateTotalRevenue orders (pointAt period start (Z.of_nat i))
                                        (pointAt period start (Z.of_nat i + 1)))
        (loop_indices (dataPoints period)).
Proof. reflexivity. Qed.

Lemma dataPoints_pos period : exists n, dataPoints period = S n.
Proof.
  unfold dataPoints.
  repeat match goal with |- context [if ?b then _ else _] => destruct b end; eauto.
Qed.

Lemma generateTrendData_ignores_end orders products users period start end_ end' :
  generateTrendData orders products users period start end'
  = generateTrendData orders products users period start end_.
Proof. reflexivity. Qed.

Lemma revenueData_length orders products users period start end_ :
  length (revenueData (generateTrendData orders products users period start end_))
  = dataPoints period.
Proof.
  rewrite revenueData_generateTrendData, length_map.
  unfold loop_indices. rewrite length_rev. apply length_seq.
Qed.

Lemma dataPoints_by_keyword period :
  (period = "daily" -> dataPoints period = 30%nat)
  /\ (period = "weekly" -> dataPoints period = 12%nat)
  /\ (period = "monthly" -> dataPoints period = 12%nat)
  /\ (period <> "daily" -> period <> "weekly" -> period <> "monthly" ->
      dataPoints period = 4%nat).
Proof.
  unfold dataPoints. repeat split.
  - intros ->. reflexivity.
  - intros ->. reflexivity.
  - intros ->. reflexivity.
  - intros H1 H2 H3.
    destruct (String.eqb_spec period "daily"); [contradiction|].
    destruct (String.eqb_spec period "weekly"); [contradiction|].
    destruct (String.eqb_spec period "monthly"); [contradiction|]. reflexivity.
Qed.

Lemma trend_revenue_span orders products users period start end_ :
  (forall (o : order) (i : nat),
      o ∈ orders -> o_status o = "delivered" ->
      (0 < i < dataPoints period)%nat ->
      orderDate o <> Some (pointAt period start (Z.of_nat i))) ->
  sumZ (revenueData (generateTrendData orders products users period start end_))
  = calculateTotalRevenue orders start
      (pointAt period start (Z.of_nat (dataPoints period))).
Proof.
  intros Hclear. rewrite revenueData_generateTrendData.
  unfold loop_indices. rewrite map_rev, sumZ_rev.
  destruct (dataPoints_pos period) as [n Hn]. rewrite Hn in *.
  pose (bnd := fun i : nat => pointAt period start (Z.of_nat i)).
  assert (Hstep : forall i : nat, Z.of_nat i + 1 = Z.of_nat (S i)) by (intros; lia).
  erewrite map_ext; [|intros i; rewrite Hstep; reflexivity].
  change (sumZ (map (fun i => calculateTotalRevenue orders (bnd i) (bnd (S i))) (seq 0 (S n)))
          = calculateTotalRevenue orders start (bnd (S n))).
  rewrite buckets_telescope.
  - rewrite sumZ_zero.
    + unfold bnd. simpl Z.of_nat at 1. rewrite pointAt_0. lia.
    + intros i Hi. apply list_elem_of_In, in_seq in Hi.
      apply revenue_at_instant. intros o Ho Hst. apply Hclear; [exact Ho|exact Hst|lia].
  - intros i. unfold bnd. apply pointAt_mono. lia.
Qed.

(** C1, amended.  [generateTrendData] produces a number of buckets that is
    fixed by the [period] keyword (30, 12, 12 or 4), starting at [start];
    the [end] argument plays no part.  Whenever no delivered order is
    dated exactly on a boundary between two buckets, the per-bucket
    revenues add up to [calculateTotalRevenue] over the span the buckets
    cover, from [start] to the end of the last bucket.  (What happens to
    an order dated exactly on such a boundary is left out.) *)
Theorem trend_revenue_conservation orders products users period start end_ :
  length (revenueData (generateTrendData orders products users period start end_))
  = dataPoints period
  /\ ((period = "daily" -> dataPoints period = 30%nat)
      /\ (period = "weekly" -> dataPoints period = 12%nat)
      /\ (period = "monthly" -> dataPoints period = 12%nat)
      /\ (period <> "daily" -> period <> "weekly" -> period <> "monthly" ->
          dataPoints period = 4%nat))
  /\ pointAt period start 0 = start
  /\ (forall end', generateTrendData orders products users period start end'
                   = generateTrendData orders products users period start end_)
  /\ ((forall (o : order) (i : nat),
         o ∈ orders -> o_status o = "delivered" ->
         (0 < i < dataPoints period)%nat ->
         orderDate o <> Some (pointAt period start (Z.of_nat i))) ->
      sumZ (revenueData (generateTrendData orders products users period start end_))
      = calculateTotalRevenue orders start
          (pointAt period start (Z.of_nat (dataPoints period)))).
Proof.
  split; [apply revenueData_length|].
  split; [apply dataPoints_by_keyword|].
  split; [apply pointAt_0|].
  split; [intros end'; apply generateTrendData_ignores_end|].
  apply trend_revenue_span.
Qed.

Lemma trend_revenue_conservation_witness :
  let o := mkOrder (Some "user_a") (Some 100) "delivered"
                   (JS.Stamp (JS.msPerDay + 1)) JS.Missing in
  sumZ (revenueData (generateTrendData [o] [] [] "daily" 0 0))
  = calculateTotalRevenue [o] 0 (pointAt "daily" 0 (Z.of_nat (dataPoints "daily"))).
Proof.
  apply (trend_revenue_conservation
           [mkOrder (Some "user_a") (Some 100) "delivered"
                    (JS.Stamp (JS.msPerDay + 1)) JS.Missing] [] [] "daily" 0 0).
  intros o i Ho _ _. apply list_elem_of_singleton in Ho. subst o.
  unfold orderDate, pointAt, JS.addDays, JS.msPerDay. simpl.
  intros Heq. injection Heq. lia.
Defined.

(** C1 as stated fails on the code.  First, an order dated exactly on the
    boundary between two buckets is counted in both of them (the buckets
    of loop index 1 and 0), which add up to 200 against a total of 100.
    Second, the buckets do not follow [end]: with a range of 40 days, an
    order of day 35 is inside the range and in none of the 30 daily
    buckets, which add up to 0 against a total of 100. *)
Lemma trend_conservation_fails :
  (buckets_counting "daily" 0 order_on_boundary = [1%nat; 0%nat]
   /\ ~ conserves_revenue [order_on_boundary] [] [] "daily" 0 (30 * JS.msPerDay))
  /\ (buckets_counting "daily" 0 order_on_day_35 = []
      /\ ~ conserves_revenue [order_on_day_35] [] [] "daily" 0 (40 * JS.msPerDay)).
Proof.
  repeat split; try (vm_compute; reflexivity);
    unfold conserves_revenue; vm_compute; discriminate.
Qed.

Example trend_conservation_values :
  sumZ (revenueData (generateTrendData [order_on_boundary] [] [] "daily" 0 (30 * JS.msPerDay)))
  = 200
  /\ calculateTotalRevenue [order_on_boundary] 0 (30 * JS.msPerDay) = 100
  /\ sumZ (revenueData (generateTrendData [order_on_day_35] [] [] "daily" 0 (40 * JS.msPerDay)))
     = 0
  /\ calculateTotalRevenue [order_on_day_35] 0 (40 * JS.msPerDay) = 100.
Proof. vm_compute. repeat split; reflexivity. Qed.

(** Scenario 1 of the specification: two delivered orders of 100 and 200 on
    the same day fall in one daily bucket, whose revenue is 300; their
    average is 150. *)
Example scenario_same_day :
  let t := 5 * JS.msPerDay + 1000 in
  let os := [ mkOrder (Some "user_a") (Some 100) "delivered" (JS.Stamp t) JS.Missing;
              mkOrder (Some "user_a") (Some 200) "delivered" (JS.Stamp (t + 1)) JS.Missing ] in
  calculateTotalRevenue os (5 * JS.msPerDay) (6 * JS.msPerDay) = 300
  /\ calculateTotalOrders os (5 * JS.msPerDay) (6 * JS.msPerDay) = 2%nat
  /\ calculateAverageOrderValue os (5 * JS.msPerDay) (6 * JS.msPerDay) = JS.Num (300 # 2)
  /\ sumZ (revenueData (generateTrendData os [] [] "daily" 0 0)) = 300.
Proof. vm_compute. repeat split; reflexivity. Qed.

(** ** Averages over no orders (C4) *)

Lemma no_delivered_revenue orders start end_ :
  filter (fun o => delivered_in start end_ o = true) orders = [] ->
  calculateTotalRevenue orders start end_ = 0.
Proof. unfold calculateTotalRevenue. intros ->. reflexivity. Qed.

(** [calculateAverageOrderValue] returns 0 when no delivered order lies in
    the range; it never divides by zero. *)
Lemma calculateAverageOrderValue_empty orders start end_ :
  filter (fun o => delivered_in start end_ o = true) orders = [] ->
  calculateAverageOrderValue orders start end_ = JS.Num 0.
Proof. unfold calculateAverageOrderValue. intros ->. reflexivity. Qed.

(** X1.  [calculateAverageOrderValue] never yields NaN or Infinity: its
    result is a finite number for every list of orders and every range,
    because the division is only reached with a positive count. *)
Lemma calculateAverageOrderValue_finite orders start end_ :
  JS.isFinite (calculateAverageOrderValue orders start end_) = true.
Proof.
  unfold calculateAverageOrderValue. cbv zeta.
  destruct (filter _ orders) as [|o l]; [reflexivity|].
  simpl length. cbn [Nat.eqb]. unfold JS.div.
  destruct (Qeq_bool (inject_Z (Z.of_nat (S (length l)))) 0) eqn:E; [|reflexivity].
  apply Qeq_bool_eq in E. unfold Qeq in E. simpl in E. lia.
Qed.

(** In the zero-orders case the KPIs of the analytics dashboard are 0. *)
Lemma dashboard_kpis_no_orders orders users start end_ :
  filter (fun o => delivered_in start end_ o = true) orders = [] ->
  totalRevenue (dashboard_kpis orders users start end_) = 0
  /\ avgOrderValue (dashboard_kpis orders users start end_) = JS.Num 0.
Proof.
  intros H. simpl. split.
  - apply no_delivered_revenue, H.
  - apply calculateAverageOrderValue_empty, H.
Qed.

(** The admin dashboard guards its average with [orders.length > 0]: with
    no order at all the average is 0. *)
Lemma stats_avgOrderValue_no_orders : DashboardStats.avgOrderValue [] = JS.Num 0.
Proof. reflexivity. Qed.

(** C4, at the failing input.  The guard of the admin dashboard tests the
    number of all orders, not of the delivered ones: one pending order
    and no delivered one make it divide 0 by 0, and the response carries
    the text NaN instead of 0. *)
Theorem stats_avgOrderValue_NaN :
  let pending := mkOrder (Some "user_a") (Some 50) "pending" (JS.Stamp 0) JS.Missing in
  calculateAverageOrderValue [pending] 0 1 = JS.Num 0
  /\ DashboardStats.totalRevenue [pending] = 0
  /\ DashboardStats.avgOrderValue [pending] = JS.NaN
  /\ DashboardStats.overview_avgOrderValue [pending] = JS.FixedNaN.
Proof. vm_compute. repeat split; reflexivity. Qed.

(** ** Forecast (C5) *)

(** C5, amended.  The forecast has exactly three points.  Point [k] is
    the last historical value times [growth ^ k] for a growth factor in
    the range from 1.0 (included) to 1.10 (excluded) that is sampled
    afresh for that point (sample number [5 + k] of the run), not one
    factor for the three points; the confidence bounds are the point
    times 1.1 and times 0.9. *)
Theorem forecast_shape (random : nat -> Q) :
  (forall n, 0 <= random n /\ random n < 1)%Q ->
  length (Forecast.forecast (Forecast.generateForecastData random)) = 3%nat
  /\ length (Forecast.confidenceUpper (Forecast.generateForecastData random)) = 3%nat
  /\ length (Forecast.confidenceLower (Forecast.generateForecastData random)) = 3%nat
  /\ forall k : nat, (1 <= k <= 3)%nat ->
       let growth := (1 + random (5 + k)%nat * 0.1)%Q in
       let point := nth (k - 1) (Forecast.forecast (Forecast.generateForecastData random)) 0%Q in
       (1 <= growth /\ growth < 1.1)%Q
       /\ point
          = (List.last (Forecast.historical (Forecast.generateForecastData random)) 0
             * growth ^ Z.of_nat k)%Q
       /\ nth (k - 1) (Forecast.confidenceUpper (Forecast.generateForecastData random)) 0%Q
          = (point * 1.1)%Q
       /\ nth (k - 1) (Forecast.confidenceLower (Forecast.generateForecastData random)) 0%Q
          = (point * 0.9)%Q.
Proof.
  intros Hr.
  split; [reflexivity|]. split; [reflexivity|]. split; [reflexivity|].
  intros k Hk. cbv zeta.
  assert (Hcases : k = 1%nat \/ k = 2%nat \/ k = 3%nat) by lia.
  destruct (Hr (5 + k)%nat) as [H0 H1].
  split; [split; lra|].
  destruct Hcases as [-> | [-> | ->]]; repeat split; reflexivity.
Qed.

Lemma forecast_shape_witness :
  length (Forecast.forecast (Forecast.generateForecastData (fun _ => 1 # 2))) = 3%nat
  /\ nth 1 (Forecast.forecast (Forecast.generateForecastData (fun _ => 1 # 2))) 0%Q
     = (List.last (Forecast.historical (Forecast.generateForecastData (fun _ => 1 # 2))) 0
        * (1 + (1 # 2) * 0.1) ^ 2)%Q.
Proof.
  pose proof (forecast_shape (fun _ => 1 # 2)) as H.
  destruct H as (Hlen & _ & _ & Hk).
  - intros n. split; [discriminate | reflexivity].
  - split; [exact Hlen|].
    destruct (Hk 2%nat) as (_ & Hp & _); [lia|]. exact Hp.
Defined.

(** C5 as stated fails: the growth factor is drawn again for every point,
    so no single factor fits the three points.  With a first factor of
    1.09 and then two factors of 1, the forecast on a last value of 20000
    is 21800, 20000, 20000: it falls after the first period. *)
Lemma forecast_one_factor_fails :
  ~ Forecast.compounds_one_factor (Forecast.generateForecastData Forecast.high_then_low).
Proof.
  intros (growth & [Hlo Hhi] & Hk).
  pose proof (Hk 1%nat ltac:(lia)) as H1. pose proof (Hk 2%nat ltac:(lia)) as H2.
  clear Hk.
  change (nth (1 - 1) (Forecast.forecast
                         (Forecast.generateForecastData Forecast.high_then_low)) 0)%Q
    with ((20000 + 0 * 5000) * (1 + 0.9 * 0.1) ^ 1)%Q in H1.
  change (nth (2 - 1) (Forecast.forecast
                         (Forecast.generateForecastData Forecast.high_then_low)) 0)%Q
    with ((20000 + 0 * 5000) * (1 + 0 * 0.1) ^ (1 + 1))%Q in H2.
  change (List.last (Forecast.historical
                       (Forecast.generateForecastData Forecast.high_then_low)) 0)%Q
    with (20000 + 0 * 5000)%Q in H1, H2.
  change (growth ^ Z.of_nat 1)%Q with growth in H1.
  change (growth ^ Z.of_nat 2)%Q with (growth * growth)%Q in H2.
  change ((1 + 0.9 * 0.1) ^ 1)%Q with (1 + 0.9 * 0.1)%Q in H1.
  change ((1 + 0 * 0.1) ^ (1 + 1))%Q with ((1 + 0 * 0.1) * (1 + 0 * 0.1))%Q in H2.
  assert (Hg : (growth == 109 # 100)%Q) by lra.
  rewrite Hg in H2. vm_compute in H2. discriminate H2.
Qed.

Example forecast_falls :
  Forall2 Qeq
    (Forecast.forecast (Forecast.generateForecastData Forecast.high_then_low))
    [21800; 20000; 20000]%Q.
Proof. repeat constructor. Qed.

(** X11.  The six historical values lie between 20000 and 25000. *)
Lemma historical_values (random : nat -> Q) :
  (forall n, 0 <= random n /\ random n < 1)%Q ->
  length (Forecast.historical (Forecast.generateForecastData random)) = 6%nat
  /\ Forall (fun h => 20000 <= h /\ h < 25000)%Q
            (Forecast.historical (Forecast.generateForecastData random)).
Proof.
  intros Hr. split; [reflexivity|].
  pose proof (Hr 0%nat). pose proof (Hr 1%nat). pose proof (Hr 2%nat).
  pose proof (Hr 3%nat). pose proof (Hr 4%nat). pose proof (Hr 5%nat).
  cbn. repeat (constructor; [split; lra|]). constructor.
Qed.

(** ** Spend tiers (C2) *)

Lemma sort_insert_perm {A} (cmp : A -> A -> Z) (x : A) (l : list A) :
  sort_insert cmp x l ≡ₚ x :: l.
Proof.
  induction l as [|y l IH]; simpl; [reflexivity|].
  destruct (0 <? cmp x y); [|reflexivity].
  rewrite IH. apply Permutation_swap.
Qed.

Lemma js_sort_perm {A} (cmp : A -> A -> Z) (l : list A) : js_sort cmp l ≡ₚ l.
Proof.
  induction l as [|x l IH]; simpl; [reflexivity|].
  rewrite sort_insert_perm, IH. reflexivity.
Qed.



Lemma add_spend_keys obj k v :
  map fst (Segmentation.add_spend obj k v)
  = if decide (k ∈ map fst obj) then map fst obj else map fst obj ++ [k].
Proof.
  induction obj as [|[k' v'] obj IH].
  - simpl. destruct (decide (k ∈ [])) as [Hin|_]; [|reflexivity].
    apply elem_of_nil in Hin. contradiction.
  - cbn [Segmentation.add_spend map fst].
    destruct (String.eqb_spec k' k) as [->|Hne].
    + destruct (decide (k ∈ k :: map fst obj)) as [_|Hn]; [reflexivity|].
      exfalso. apply Hn. left.
    + cbn [map fst]. rewrite IH.
      destruct (decide (k ∈ map fst obj)) as [Hin|Hin];
        destruct (decide (k ∈ k' :: map fst obj)) as [Hin'|Hin']; try reflexivity.
      * exfalso. apply Hin'. right. exact Hin.
      * exfalso. apply elem_of_cons in Hin' as [->|Hin']; [congruence|tauto].
Qed.

Lemma spending_keys_from (orders : list order) (acc : list (string * Z)) :
  NoDup (map fst acc) ->
  let obj := foldl (fun obj o =>
                      match truthy_userId o with
                      | Some id => Segmentation.add_spend obj id (total_or_0 o)
                      | None => obj
                      end) acc orders in
  NoDup (map fst obj)
  /\ forall k, k ∈ map fst obj <-> k ∈ map fst acc \/ k ∈ omap truthy_userId orders.
Proof.
  revert acc. induction orders as [|o orders IH]; intros acc Hnd; simpl.
  - split; [exact Hnd|]. intros k. rewrite elem_of_nil. tauto.
  - destruct (truthy_userId o) as [id|] eqn:Eid.
    + destruct (IH (Segmentation.add_spend acc id (total_or_0 o))) as [H1 H2].
      * rewrite add_spend_keys. destruct (decide (id ∈ map fst acc)); [exact Hnd|].
        apply NoDup_app. repeat split; [exact Hnd| |apply NoDup_singleton].
        intros x Hx Hx'. apply list_elem_of_singleton in Hx'. congruence.
      * split; [exact H1|]. intros k. rewrite H2, add_spend_keys, elem_of_cons.
        destruct (decide (id ∈ map fst acc)) as [Hin|Hin].
        -- split; [tauto|]. intros [?|[->|?]]; tauto.
        -- rewrite elem_of_app, list_elem_of_singleton. tauto.
    + apply IH, Hnd.
Qed.

Lemma customerSpending_keys orders :
  NoDup (map fst (Segmentation.customerSpending orders))
  /\ forall k, k ∈ map fst (Segmentation.customerSpending orders)
               <-> k ∈ Segmentation.customers_with_orders orders.
Proof.
  destruct (spending_keys_from orders [] (NoDup_nil_2)) as [H1 H2].
  split; [exact H1|]. intros k. unfold Segmentation.customers_with_orders.
  rewrite elem_of_remove_dups. unfold Segmentation.customerSpending.
  rewrite H2. simpl. rewrite elem_of_nil. tauto.
Qed.

Lemma sortedCustomers_perm orders :
  Segmentation.sortedCustomers orders ≡ₚ Segmentation.customers_with_orders orders.
Proof.
  unfold Segmentation.sortedCustomers, Segmentation.rankedCustomers.
  rewrite js_sort_perm.
  destruct (customerSpending_keys orders) as [H1 H2].
  apply NoDup_Permutation; [exact H1| |exact H2].
  apply NoDup_remove_dups.
Qed.

Lemma tag_user_tiers orders now s u :
  Segmentation.highValue (Segmentation.tag_user orders now s u) = Segmentation.highValue s
  /\ Segmentation.mediumValue (Segmentation.tag_user orders now s u) = Segmentation.mediumValue s
  /\ Segmentation.lowValue (Segmentation.tag_user orders now s u) = Segmentation.lowValue s.
Proof.
  unfold Segmentation.tag_user. cbv zeta.
  repeat match goal with
         | |- context [match ?x with _ => _ end] => destruct x; simpl
         end; auto.
Qed.

Lemma tag_users_tiers orders now users s :
  Segmentation.highValue (foldl (Segmentation.tag_user orders now) s users)
  = Segmentation.highValue s
  /\ Segmentation.mediumValue (foldl (Segmentation.tag_user orders now) s users)
     = Segmentation.mediumValue s
  /\ Segmentation.lowValue (foldl (Segmentation.tag_user orders now) s users)
     = Segmentation.lowValue s.
Proof.
  revert s. induction users as [|u users IH]; intros s; simpl; [auto|].
  destruct (IH (Segmentation.tag_user orders now s u)) as (-> & -> & ->).
  apply tag_user_tiers.
Qed.

(** The three tiers are consecutive slices of the ranking. *)
Lemma spend_tiers_slices users orders now :
  let sorted := Segmentation.sortedCustomers orders in
  let h := ceil_of (length sorted) 0.2 in
  let m := ceil_of (length sorted) 0.6 in
  Segmentation.highValue (Segmentation.segment_members users orders now) = take h sorted
  /\ Segmentation.mediumValue (Segmentation.segment_members users orders now)
     = take m (drop h sorted)
  /\ Segmentation.lowValue (Segmentation.segment_members users orders now)
     = drop m (drop h sorted).
Proof.
  cbv zeta. unfold Segmentation.segment_members. cbv zeta.
  match goal with
  | |- context [foldl ?f ?s users] =>
      destruct (tag_users_tiers orders now users s) as (-> & -> & ->)
  end.
  simpl. unfold slice, slice_from. rewrite drop_drop, drop_0, Nat.sub_0_r.
  repeat split. f_equal. lia.
Qed.

Lemma tiers_concat users orders now :
  Segmentation.highValue (Segmentation.segment_members users orders now)
  ++ Segmentation.mediumValue (Segmentation.segment_members users orders now)
  ++ Segmentation.lowValue (Segmentation.segment_members users orders now)
  = Segmentation.sortedCustomers orders.
Proof.
  destruct (spend_tiers_slices users orders now) as (-> & -> & ->).
  rewrite take_drop, take_drop. reflexivity.
Qed.





(** Scenario 4 on the data of the specification. *)
Example scenario_ten_customers :
  Segmentation.highValue (Segmentation.segment_members [] Segmentation.ten_customers 0)
  = ["user_a"; "user_b"]
  /\ Segmentation.mediumValue (Segmentation.segment_members [] Segmentation.ten_customers 0)
     = ["user_c"; "user_d"; "user_e"; "user_f"; "user_g"; "user_h"]
  /\ Segmentation.lowValue (Segmentation.segment_members [] Segmentation.ten_customers 0)
     = ["user_i"; "user_j"].
Proof. vm_compute. repeat split; reflexivity. Qed.

(** ** Recency tags of a customer without orders (C8) *)

Lemma tag_user_members orders now s u x :
  (x ∈ Segmentation.new (Segmentation.tag_user orders now s u) ->
   x ∈ Segmentation.new s
   \/ (u_id u = x
       /\ JS.ge (JS.newDate (u_createdAt u)) (now - Segmentation.days 30) = true))
  /\ (x ∈ Segmentation.atRisk (Segmentation.tag_user orders now s u) ->
      x ∈ Segmentation.atRisk s \/ (u_id u = x /\ is_Some (Segmentation.lastOrder orders u)))
  /\ (x ∈ Segmentation.dormant (Segmentation.tag_user orders now s u) ->
      x ∈ Segmentation.dormant s \/ (u_id u = x /\ is_Some (Segmentation.lastOrder orders u))).
Proof.
  unfold Segmentation.tag_user. cbv zeta.
  destruct (JS.ge (JS.newDate (u_createdAt u)) (now - Segmentation.days 30)) eqn:Enew;
    destruct (Segmentation.lastOrder orders u) as [lo|] eqn:Elast; simpl;
    repeat match goal with
           | |- context [if ?b then _ else _] => destruct b; simpl
           end;
    repeat split; intros Hx;
    rewrite ?elem_of_app, ?list_elem_of_singleton in Hx;
    try (destruct Hx as [Hx| ->]); eauto.
Qed.

Lemma tag_users_members orders now users : forall s x,
  (x ∈ Segmentation.new (foldl (Segmentation.tag_user orders now) s users) ->
   x ∈ Segmentation.new s
   \/ exists u, u ∈ users /\ u_id u = x
                /\ JS.ge (JS.newDate (u_createdAt u)) (now - Segmentation.days 30) = true)
  /\ (x ∈ Segmentation.atRisk (foldl (Segmentation.tag_user orders now) s users) ->
      x ∈ Segmentation.atRisk s
      \/ exists u, u ∈ users /\ u_id u = x /\ is_Some (Segmentation.lastOrder orders u))
  /\ (x ∈ Segmentation.dormant (foldl (Segmentation.tag_user orders now) s users) ->
      x ∈ Segmentation.dormant s
      \/ exists u, u ∈ users /\ u_id u = x /\ is_Some (Segmentation.lastOrder orders u)).
Proof.
  induction users as [|u users IH]; intros s x; simpl.
  - repeat split; intros Hx; left; exact Hx.
  - destruct (IH (Segmentation.tag_user orders now s u) x) as (Hn & Ha & Hd).
    destruct (tag_user_members orders now s u x) as (Hn1 & Ha1 & Hd1).
    repeat split; intros Hx.
    + destruct (Hn Hx) as [H|(u' & Hu' & Hid & Hge)].
      * destruct (Hn1 H) as [?|[Hid Hge]]; [left; assumption|].
        right. exists u. split; [left|]. split; assumption.
      * right. exists u'. split; [right; exact Hu'|]. split; assumption.
    + destruct (Ha Hx) as [H|(u' & Hu' & Hid & Hl)].
      * destruct (Ha1 H) as [?|[Hid Hl]]; [left; assumption|].
        right. exists u. split; [left|]. split; assumption.
      * right. exists u'. split; [right; exact Hu'|]. split; assumption.
    + destruct (Hd Hx) as [H|(u' & Hu' & Hid & Hl)].
      * destruct (Hd1 H) as [?|[Hid Hl]]; [left; assumption|].
        right. exists u. split; [left|]. split; assumption.
      * right. exists u'. split; [right; exact Hu'|]. split; assumption.
Qed.

Lemma lastOrder_none orders u :
  (forall o, o ∈ orders -> placed_by u o = false) ->
  Segmentation.lastOrder orders u = None.
Proof.
  intros H. unfold Segmentation.lastOrder.
  replace (filter (fun o => placed_by u o = true) orders) with (@nil order); [reflexivity|].
  symmetry. apply elem_of_nil_inv. intros o Ho.
  apply list_elem_of_filter in Ho as [Hp Ho]. rewrite (H o Ho) in Hp. discriminate.
Qed.

Lemma tier_member_has_order orders x :
  x ∈ Segmentation.sortedCustomers orders ->
  exists o, o ∈ orders /\ o_userId o = Some x.
Proof.
  rewrite sortedCustomers_perm. unfold Segmentation.customers_with_orders.
  rewrite elem_of_remove_dups, list_elem_of_omap.
  intros (o & Ho & Hid). exists o. split; [exact Ho|].
  unfold truthy_userId in Hid. destruct (o_userId o) as [s|]; [|discriminate].
  destruct (s =? "")%string; [discriminate|]. exact Hid.
Qed.

(** C8.  A user without any order who joined more than 30 days before
    [now] is pushed to none of the six membership lists: the loop body
    leaves the segments as they are for that user, and the user's
    identifier (which no other user record carries) is neither in a
    recency segment nor in a spend tier.  [segment_members] is a total
    function, so the computation completes on every input. *)
Theorem no_orders_old_user_in_no_segment users orders now u t :
  (forall u', u' ∈ users -> u_id u' = u_id u -> u' = u) ->
  (forall o, o ∈ orders -> placed_by u o = false) ->
  u_createdAt u = JS.Stamp t ->
  t < now - Segmentation.days 30 ->
  (forall s, Segmentation.tag_user orders now s u = s)
  /\ (u_id u ∉ Segmentation.new (Segmentation.segment_members users orders now))
  /\ (u_id u ∉ Segmentation.atRisk (Segmentation.segment_members users orders now))
  /\ (u_id u ∉ Segmentation.dormant (Segmentation.segment_members users orders now))
  /\ (u_id u ∉ Segmentation.highValue (Segmentation.segment_members users orders now))
  /\ (u_id u ∉ Segmentation.mediumValue (Segmentation.segment_members users orders now))
  /\ (u_id u ∉ Segmentation.lowValue (Segmentation.segment_members users orders now)).
Proof.
  intros Huniq Hnone Hjoin Hold.
  pose proof (lastOrder_none orders u Hnone) as Hlast.
  assert (Hnew : JS.ge (JS.newDate (u_createdAt u)) (now - Segmentation.days 30) = false).
  { rewrite Hjoin. simpl. apply Z.leb_gt. exact Hold. }
  assert (Htier : u_id u ∉ Segmentation.sortedCustomers orders).
  { intros Hin. destruct (tier_member_has_order orders _ Hin) as (o & Ho & Hid).
    specialize (Hnone o Ho). unfold placed_by in Hnone. rewrite Hid in Hnone.
    rewrite String.eqb_refl in Hnone. discriminate. }
  split.
  { intros s. unfold Segmentation.tag_user. cbv zeta. rewrite Hnew, Hlast. reflexivity. }
  unfold Segmentation.segment_members at 1 2 3. cbv zeta.
  match goal with
  | |- context [foldl ?f ?s0 users] =>
      destruct (tag_users_members orders now users s0 (u_id u)) as (Hn & Ha & Hd)
  end.
  rewrite <- (tiers_concat users orders now) in Htier.
  rewrite !elem_of_app in Htier.
  repeat split; try tauto.
  - intros Hx. destruct (Hn Hx) as [H|(u' & Hu' & Hid & Hge)].
    + simpl in H. apply elem_of_nil in H. exact H.
    + rewrite (Huniq u' Hu' Hid) in Hge. congruence.
  - intros Hx. destruct (Ha Hx) as [H|(u' & Hu' & Hid & Hl)].
    + simpl in H. apply elem_of_nil in H. exact H.
    + rewrite (Huniq u' Hu' Hid), Hlast in Hl. destruct Hl as [? Hl]. discriminate.
  - intros Hx. destruct (Hd Hx) as [H|(u' & Hu' & Hid & Hl)].
    + simpl in H. apply elem_of_nil in H. exact H.
    + rewrite (Huniq u' Hu' Hid), Hlast in Hl. destruct Hl as [? Hl]. discriminate.
Qed.

Lemma no_orders_old_user_in_no_segment_witness :
  (forall s, Segmentation.tag_user Segmentation.ten_customers (Segmentation.days 40) s
               (mkUser "user_z" (JS.Stamp 0) JS.Missing) = s)
  /\ ("user_z" ∉ Segmentation.new
        (Segmentation.segment_members [mkUser "user_z" (JS.Stamp 0) JS.Missing]
           Segmentation.ten_customers (Segmentation.days 40)))
  /\ ("user_z" ∉ Segmentation.atRisk
        (Segmentation.segment_members [mkUser "user_z" (JS.Stamp 0) JS.Missing]
           Segmentation.ten_customers (Segmentation.days 40)))
  /\ ("user_z" ∉ Segmentation.dormant
        (Segmentation.segment_members [mkUser "user_z" (JS.Stamp 0) JS.Missing]
           Segmentation.ten_customers (Segmentation.days 40))).
Proof.
  destruct (no_orders_old_user_in_no_segment
              [mkUser "user_z" (JS.Stamp 0) JS.Missing] Segmentation.ten_customers
              (Segmentation.days 40) (mkUser "user_z" (JS.Stamp 0) JS.Missing) 0)
    as (H0 & H1 & H2 & H3 & _).
  - intros u' Hu' _. apply list_elem_of_singleton in Hu'. exact Hu'.
  - intros o Ho. unfold Segmentation.ten_customers in Ho.
    repeat (apply elem_of_cons in Ho as [-> | Ho]; [reflexivity|]).
    apply elem_of_nil in Ho. contradiction.
  - reflexivity.
  - vm_compute. reflexivity.
  - repeat split; assumption.
Defined.

(** Scenario 3 of the specification: a customer who joined 40 days ago and
    has no order is counted in no recency segment. *)
Example scenario_joined_40_days_ago :
  map (fun r => (Segmentation.name r, Segmentation.users_count r))
      (Segmentation.segmentCustomers [mkUser "user_z" (JS.Stamp 0) JS.Missing] []
         (Segmentation.days 40))
  = [ ("High Value", 0%nat); ("Medium Value", 0%nat); ("Low Value", 0%nat);
      ("New", 0%nat); ("At Risk", 0%nat); ("Dormant", 0%nat) ].
Proof. vm_compute. reflexivity. Qed.

(** ** Cohort retention (C3, C7) *)

Lemma within_mono m k k' :
  k <= k' -> Retention.within m k = true -> Retention.within m k' = true.
Proof.
  unfold Retention.within. destruct m as [z|]; [|discriminate].
  rewrite !Z.leb_le. lia.
Qed.

Lemma Forall_modify (P : string * Retention.cohort -> Prop) k f l :
  (forall kv, kv ∈ l ->
     if (fst kv =? k)%string then P (fst kv, f (snd kv)) else P kv) ->
  Forall P (Retention.modify k f l).
Proof.
  intros H. unfold Retention.modify. apply Forall_forall. intros kv Hkv.
  apply list_elem_of_fmap in Hkv as (kv0 & -> & Hkv0).
  specialize (H kv0 Hkv0). destruct (fst kv0 =? k)%string; exact H.
Qed.

Lemma add_user_ok orders cohorts u :
  Forall Retention.cohort_ok cohorts -> Forall Retention.cohort_ok (Retention.add_user orders cohorts u).
Proof.
  intros Hok. unfold Retention.add_user. cbv zeta.
  set (key := Retention.cohortKey (JS.newDate (u_createdAt u))).
  set (cohorts1 := match Retention.get cohorts key with
                   | Some _ => cohorts
                   | None => cohorts ++ [(key, Retention.mkCohort 0 0 0 0 0 0)]
                   end).
  assert (H1 : forall kv, kv ∈ cohorts1 ->
                 (0 <= Retention.totalUsers (snd kv) /\ Retention.cumulative (snd kv))
                 /\ (fst kv <> key -> Retention.cohort_ok kv)).
  { intros kv Hkv.
    assert (Hcases : kv ∈ cohorts \/ kv = (key, Retention.mkCohort 0 0 0 0 0 0)).
    { subst cohorts1. destruct (Retention.get cohorts key); [left; exact Hkv|].
      apply elem_of_app in Hkv as [?|Hkv]; [left; assumption|].
      apply list_elem_of_singleton in Hkv. right. exact Hkv. }
    destruct Hcases as [Hin| ->].
    - pose proof (proj1 (Forall_forall _ _) Hok kv Hin) as [Hp Hc].
      split; [split; [unfold Retention.populated in Hp; lia|exact Hc]|].
      intros _. split; assumption.
    - simpl. split; [|intros Hne; congruence].
      unfold Retention.cumulative. simpl. lia. }
  set (cohorts2 := Retention.modify key _ cohorts1).
  assert (H2 : Forall Retention.cohort_ok cohorts2).
  { apply Forall_modify. intros kv Hkv. destruct (H1 kv Hkv) as [[Ht Hc] Hother].
    destruct (String.eqb_spec (fst kv) key) as [Heq|Hne]; [|auto].
    split; [unfold Retention.populated; simpl; lia|exact Hc]. }
  destruct (filter _ orders) as [|first rest]; [exact H2|].
  apply Forall_modify. intros kv Hkv.
  pose proof (proj1 (Forall_forall _ _) H2 kv Hkv) as [Hp Hc].
  destruct (fst kv =? key)%string; [|split; assumption].
  split; [exact Hp|].
  set (m := Retention.monthsSinceJoin _ _).
  pose proof (within_mono m 1 2 ltac:(lia)) as W12.
  pose proof (within_mono m 2 3 ltac:(lia)) as W23.
  pose proof (within_mono m 3 6 ltac:(lia)) as W36.
  pose proof (within_mono m 6 12 ltac:(lia)) as W612.
  unfold Retention.cumulative in *. simpl. unfold Retention.bump.
  destruct (Retention.within m 1), (Retention.within m 2), (Retention.within m 3),
    (Retention.within m 6), (Retention.within m 12);
    try (specialize (W12 eq_refl)); try (specialize (W23 eq_refl));
    try (specialize (W36 eq_refl)); try (specialize (W612 eq_refl));
    try congruence; lia.
Qed.

Lemma cohorts_ok users orders : Forall Retention.cohort_ok (Retention.cohorts_of users orders).
Proof.
  unfold Retention.cohorts_of.
  assert (H : forall acc, Forall Retention.cohort_ok acc ->
                Forall Retention.cohort_ok (foldl (Retention.add_user orders) acc users)).
  { induction users as [|u users IH]; intros acc Hacc; simpl; [exact Hacc|].
    apply IH, add_user_ok, Hacc. }
  apply H. constructor.
Qed.

Lemma Qdiv_nonneg (c t : Z) :
  0 <= c -> 1 <= t -> (0 <= inject_Z c / inject_Z t)%Q.
Proof.
  intros Hc Ht. unfold Qdiv. apply Qmult_le_0_compat.
  - change 0%Q with (inject_Z 0). rewrite <- Zle_Qle. exact Hc.
  - apply Qinv_le_0_compat. change 0%Q with (inject_Z 0). rewrite <- Zle_Qle. lia.
Qed.

Lemma Qdiv_mono (c1 c2 t : Z) :
  c1 <= c2 -> 1 <= t -> (inject_Z c1 / inject_Z t <= inject_Z c2 / inject_Z t)%Q.
Proof.
  intros Hc Ht. unfold Qdiv. apply Qmult_le_compat_r.
  - rewrite <- Zle_Qle. exact Hc.
  - apply Qinv_le_0_compat. change 0%Q with (inject_Z 0). rewrite <- Zle_Qle. lia.
Qed.

(** With a member in the cohort the division is an ordinary one. *)
Lemma percentage_number count total :
  0 <= count -> 1 <= total ->
  JS.div (inject_Z count) (inject_Z total) = JS.Num (inject_Z count / inject_Z total)
  /\ Retention.percentage count total = JS.Fixed (Retention.tenths count total).
Proof.
  intros Hc Ht. unfold Retention.percentage, JS.div.
  destruct (Qeq_bool (inject_Z total) 0) eqn:E.
  { apply Qeq_bool_eq in E. unfold Qeq in E. simpl in E. lia. }
  split; [reflexivity|]. simpl JS.scale. unfold JS.toFixed.
  destruct (Qle_bool 0 (inject_Z count / inject_Z total * 100)) eqn:E'; [reflexivity|].
  exfalso. apply not_true_iff_false in E'. apply E', Qle_bool_iff.
  pose proof (Qdiv_nonneg count total Hc Ht). lra.
Qed.

Lemma tenths_mono c1 c2 total :
  c1 <= c2 -> 1 <= total -> Retention.tenths c1 total <= Retention.tenths c2 total.
Proof.
  intros Hc Ht. unfold Retention.tenths, JS.round_half_up.
  apply Qfloor_resp_le. pose proof (Qdiv_mono c1 c2 total Hc Ht).
  change (inject_Z (10 ^ 1)) with 10%Q. lra.
Qed.

(** C3.  For every cohort row the five retention percentages are numbers
    and do not decrease as the horizon grows: month1 <= month2 <= month3
    <= month6 <= month12.  The reason is that membership is cumulative: a
    customer who counts toward one horizon counts toward the next one. *)
Theorem retention_horizons_monotone users orders :
  (forall m,
     implb (Retention.within m 1) (Retention.within m 2)
     && implb (Retention.within m 2) (Retention.within m 3)
     && implb (Retention.within m 3) (Retention.within m 6)
     && implb (Retention.within m 6) (Retention.within m 12) = true)
  /\ Forall (fun row =>
       exists n1 n2 n3 n6 n12,
         Retention.row_month1 row = JS.Fixed n1
         /\ Retention.row_month2 row = JS.Fixed n2
         /\ Retention.row_month3 row = JS.Fixed n3
         /\ Retention.row_month6 row = JS.Fixed n6
         /\ Retention.row_month12 row = JS.Fixed n12
         /\ n1 <= n2 /\ n2 <= n3 /\ n3 <= n6 /\ n6 <= n12)
     (Retention.analyzeRetention users orders).
Proof.
  split.
  { intros m.
    pose proof (within_mono m 1 2 ltac:(lia)) as W12.
    pose proof (within_mono m 2 3 ltac:(lia)) as W23.
    pose proof (within_mono m 3 6 ltac:(lia)) as W36.
    pose proof (within_mono m 6 12 ltac:(lia)) as W612.
    destruct (Retention.within m 1), (Retention.within m 2), (Retention.within m 3),
      (Retention.within m 6), (Retention.within m 12); simpl; auto. }
  unfold Retention.analyzeRetention. apply Forall_fmap, Forall_forall.
  intros [key c] Hkv.
  pose proof (proj1 (Forall_forall _ _) (cohorts_ok users orders) _ Hkv) as [Hp Hc].
  unfold Retention.populated, Retention.cumulative in *. simpl in *.
  destruct Hc as (H0 & H1 & H2 & H3 & H6).
  exists (Retention.tenths (Retention.month1 c) (Retention.totalUsers c)),
         (Retention.tenths (Retention.month2 c) (Retention.totalUsers c)),
         (Retention.tenths (Retention.month3 c) (Retention.totalUsers c)),
         (Retention.tenths (Retention.month6 c) (Retention.totalUsers c)),
         (Retention.tenths (Retention.month12 c) (Retention.totalUsers c)).
  repeat split; try (apply percentage_number; lia); apply tenths_mono; lia.
Qed.

(** A cohort of two: one member ordered 61 days after joining, the other
    never.  Half of the cohort is retained from month 2 on. *)
Example retention_example :
  Retention.analyzeRetention
    [mkUser "user_a" (JS.Stamp 0) JS.Missing; mkUser "user_b" (JS.Stamp 5) JS.Missing]
    [mkOrder (Some "user_a") (Some 5) "pending" (JS.Stamp (61 * JS.msPerDay)) JS.Missing]
  = [ Retention.mkCohortRow "1970-01" 2 (JS.Fixed 0) (JS.Fixed 500) (JS.Fixed 500)
        (JS.Fixed 500) (JS.Fixed 500) ].
Proof. vm_compute. reflexivity. Qed.

(** C7.  Every cohort row has at least one user, so each of the five
    divisions has a nonzero divisor and a finite quotient, and the five
    percentages of the row are numbers, never NaN or Infinity. *)
Theorem retention_rows_populated users orders :
  Forall (fun kv =>
       1 <= Retention.totalUsers (snd kv)
       /\ Forall (fun count =>
            JS.isFinite (JS.div (inject_Z count)
                                (inject_Z (Retention.totalUsers (snd kv)))) = true)
          [Retention.month1 (snd kv); Retention.month2 (snd kv); Retention.month3 (snd kv);
           Retention.month6 (snd kv); Retention.month12 (snd kv)])
    (Retention.cohorts_of users orders)
  /\ Forall (fun row =>
       1 <= Retention.row_totalUsers row
       /\ JS.is_number (Retention.row_month1 row)
       /\ JS.is_number (Retention.row_month2 row)
       /\ JS.is_number (Retention.row_month3 row)
       /\ JS.is_number (Retention.row_month6 row)
       /\ JS.is_number (Retention.row_month12 row))
     (Retention.analyzeRetention users orders).
Proof.
  split.
  - eapply Forall_impl; [apply cohorts_ok|]. intros [key c] [Hp Hc].
    unfold Retention.populated, Retention.cumulative in *. simpl in *.
    split; [exact Hp|].
    repeat constructor;
      match goal with
      | |- JS.isFinite (JS.div (inject_Z ?a) (inject_Z ?b)) = true =>
          rewrite (proj1 (percentage_number a b ltac:(lia) ltac:(lia))); reflexivity
      end.
  - unfold Retention.analyzeRetention. apply Forall_fmap, Forall_forall.
    intros [key c] Hkv.
    pose proof (proj1 (Forall_forall _ _) (cohorts_ok users orders) _ Hkv) as [Hp Hc].
    unfold Retention.populated, Retention.cumulative in *. simpl in *.
    split; [exact Hp|].
    repeat split;
      match goal with
      | |- JS.is_number (Retention.percentage ?a ?b) =>
          rewrite (proj2 (percentage_number a b ltac:(lia) ltac:(lia))); exact I
      end.
Qed.

(** ** Reading a collection (C9) *)

(** C9, amended.  When the read of the file fails, [readData] catches the
    exception: it returns normally with an empty collection in place of
    the data, after one read attempt (it does not retry) and one error
    message on the console.  Nothing is propagated to the caller. *)
Theorem readData_failure_yields_empty {item} (w : Store.world item) fileName e :
  Store.fs_read w (Store.DATA_FILES fileName) = Store.Thrown e ->
  Store.readData w fileName
  = (Store.Returned [],
     [Store.ReadFile (Store.DATA_FILES fileName);
      Store.ConsoleError ("Error reading " +:+ fileName +:+ ":") e]).
Proof. intros H. unfold Store.readData. cbv zeta. rewrite H. reflexivity. Qed.

Lemma readData_failure_yields_empty_witness :
  Store.readData (Store.mkWorld nat (fun _ => Store.Thrown "ENOENT")
                                    (fun _ => Store.Returned [])) "orders"
  = (Store.Returned [],
     [Store.ReadFile (Some "orders.json");
      Store.ConsoleError "Error reading orders:" "ENOENT"]).
Proof.
  apply (readData_failure_yields_empty
           (Store.mkWorld nat (fun _ => Store.Thrown "ENOENT")
                              (fun _ => Store.Returned [])) "orders" "ENOENT").
  reflexivity.
Defined.

(** C9 as stated fails: the exception of a failed read is not the outcome
    of [readData]. *)
Lemma readData_does_not_propagate :
  ~ Store.propagates_failure
      (Store.mkWorld nat (fun _ => Store.Thrown "ENOENT") (fun _ => Store.Returned []))
      "orders".
Proof.
  unfold Store.propagates_failure. intros H.
  specialize (H "ENOENT" eq_refl). vm_compute in H. discriminate H.
Qed.

(** X2.  [readData] never throws: whatever the file read and the parser
    do, return or throw, no exception reaches the caller. *)
Lemma readData_never_throws {item} (w : Store.world item) fileName :
  forall e, fst (Store.readData w fileName) <> Store.Thrown e.
Proof.
  intros e. unfold Store.readData. cbv zeta.
  destruct (Store.fs_read w (Store.DATA_FILES fileName)) as [data|e1]; [|discriminate].
  destruct (Store.JSON_parse w data) as [v|e2]; discriminate.
Qed.

(** ** CSV export (C6, C10) *)

(** C10.  With no record at all [convertToCSV] returns the empty text: no
    header line, no failure.  So does the export of any table built row
    by row from an empty collection. *)
Theorem convertToCSV_empty :
  Csv.convertToCSV (Csv.DataArray []) = ""
  /\ forall (A : Type) (to_row : A -> Csv.record),
       Csv.convertToCSV (Csv.DataArray (map to_row [])) = "".
Proof. split; reflexivity. Qed.

Lemma append_nil_r (s : string) : s +:+ "" = s.
Proof.
  induction s as [|c s IH]; [reflexivity|].
  change (String c (s +:+ "") = String c s). f_equal. exact IH.
Qed.

Lemma append_assoc (s1 s2 s3 : string) : (s1 +:+ s2) +:+ s3 = s1 +:+ (s2 +:+ s3).
Proof.
  induction s1 as [|c s1 IH]; [reflexivity|].
  change (String c ((s1 +:+ s2) +:+ s3) = String c (s1 +:+ (s2 +:+ s3))).
  f_equal. exact IH.
Qed.

Lemma string_of_list_ascii_snoc (l : list ascii) (c : ascii) (s : string) :
  string_of_list_ascii (l ++ [c]) +:+ s = string_of_list_ascii l +:+ String c s.
Proof.
  induction l as [|d l IH]; [reflexivity|].
  change (String d (string_of_list_ascii (l ++ [c]) +:+ s)
          = String d (string_of_list_ascii l +:+ String c s)).
  f_equal. exact IH.
Qed.

Lemma special_false c :
  Csv.special c = false ->
  Ascii.eqb c Csv.comma = false /\ Ascii.eqb c Csv.dquote = false
  /\ Ascii.eqb c Csv.newline = false.
Proof.
  unfold Csv.special. intros H.
  apply orb_false_iff in H as [H H3]. apply orb_false_iff in H as [H1 H2]. auto.
Qed.

(** The pattern test gives the same answer before and after the quotes
    are doubled, so the code quotes a value exactly when the value itself
    holds a comma, a double quote or a line feed. *)
Lemma has_special_double_quotes s :
  Csv.has_special (Csv.double_quotes s) = Csv.has_special s.
Proof.
  induction s as [|c s IH]; [reflexivity|]. cbn [Csv.double_quotes].
  destruct (Ascii.eqb_spec c Csv.dquote) as [->|Hne]; cbn [Csv.has_special]; rewrite IH.
  - change (Csv.special Csv.dquote) with true. reflexivity.
  - reflexivity.
Qed.

Lemma double_quotes_plain s : Csv.has_special s = false -> Csv.double_quotes s = s.
Proof.
  induction s as [|c s IH]; [reflexivity|]. cbn [Csv.has_special Csv.double_quotes].
  intros H. apply orb_false_iff in H as [Hc Hs].
  apply special_false in Hc as (_ & -> & _). rewrite (IH Hs). reflexivity.
Qed.

(** The cell the code writes is the field the quoting rule describes. *)
Lemma cell_quoted_field v : Csv.cell v = Csv.quoted_field (Csv.to_str v).
Proof.
  unfold Csv.cell, Csv.quoted_field. cbv zeta.
  rewrite has_special_double_quotes.
  destruct (Csv.has_special (Csv.to_str v)) eqn:E; [reflexivity|].
  apply double_quotes_plain, E.
Qed.

Lemma quoted_field_plain s : Csv.has_special s = false -> Csv.quoted_field s = s.
Proof. unfold Csv.quoted_field. intros ->. reflexivity. Qed.

Section Reader.

Variables (row : list string) (rows : list (list string)).

(** Outside quotes, a separator or the end of the text completes the field. *)
Lemma parse_go_field_end m cur rest :
  m <> Csv.InQuoted -> Csv.at_field_end rest ->
  Csv.parse_go m cur row rows rest
  = Csv.after_field (string_of_list_ascii (rev cur)) row rows rest.
Proof.
  intros Hm Hb. destruct rest as [|c rest].
  - destruct m; try reflexivity. contradiction.
  - simpl in Hb. destruct Hb as [-> | ->]; destruct m; try reflexivity; contradiction.
Qed.

Lemma parse_go_plain_char m cur c s :
  m = Csv.FieldStart \/ m = Csv.InPlain -> Csv.special c = false ->
  Csv.parse_go m cur row rows (String c s) = Csv.parse_go Csv.InPlain (c :: cur) row rows s.
Proof.
  intros Hm Hc. apply special_false in Hc as (H1 & H2 & H3).
  destruct Hm as [-> | ->]; simpl; rewrite ?H1, ?H2, ?H3; reflexivity.
Qed.

(** A value without special characters, written as it is, reads back. *)
Lemma parse_go_plain s : forall m cur rest,
  m = Csv.FieldStart \/ m = Csv.InPlain ->
  Csv.has_special s = false -> Csv.at_field_end rest ->
  Csv.parse_go m cur row rows (s +:+ rest)
  = Csv.after_field (string_of_list_ascii (rev cur) +:+ s) row rows rest.
Proof.
  induction s as [|c s IH]; intros m cur rest Hm Hs Hb.
  - rewrite append_nil_r. simpl. apply parse_go_field_end; [|exact Hb].
    destruct Hm as [-> | ->]; discriminate.
  - simpl in Hs. apply orb_false_iff in Hs as [Hc Hs].
    change (String c s +:+ rest) with (String c (s +:+ rest)).
    rewrite parse_go_plain_char by assumption.
    rewrite IH by auto. simpl rev. rewrite string_of_list_ascii_snoc. reflexivity.
Qed.

(** The inside of a quoted value, with its quotes doubled and the closing
    quote after it, reads back. *)
Lemma parse_go_quoted s : forall cur rest,
  Csv.at_field_end rest ->
  Csv.parse_go Csv.InQuoted cur row rows
    (Csv.double_quotes s +:+ String Csv.dquote rest)
  = Csv.after_field (string_of_list_ascii (rev cur) +:+ s) row rows rest.
Proof.
  induction s as [|c s IH]; intros cur rest Hb.
  - rewrite append_nil_r. simpl.
    change (Csv.parse_go Csv.QuoteSeen cur row rows rest
            = Csv.after_field (string_of_list_ascii (rev cur)) row rows rest).
    apply parse_go_field_end; [discriminate|exact Hb].
  - simpl Csv.double_quotes.
    destruct (Ascii.eqb_spec c Csv.dquote) as [->|Hne].
    + change (Csv.parse_go Csv.InQuoted (Csv.dquote :: cur) row rows
                (Csv.double_quotes s +:+ String Csv.dquote rest)
              = Csv.after_field (string_of_list_ascii (rev cur) +:+ String Csv.dquote s)
                  row rows rest).
      rewrite IH by exact Hb. simpl rev. rewrite string_of_list_ascii_snoc. reflexivity.
    + apply Ascii.eqb_neq in Hne.
      change (String c (Csv.double_quotes s) +:+ String Csv.dquote rest)
        with (String c (Csv.double_quotes s +:+ String Csv.dquote rest)).
      simpl Csv.parse_go. rewrite Hne.
      rewrite IH by exact Hb. simpl rev. rewrite string_of_list_ascii_snoc. reflexivity.
Qed.

(** One field, quoted by the rule, reads back. *)
Lemma parse_go_quoted_field s rest :
  Csv.at_field_end rest ->
  Csv.parse_go Csv.FieldStart [] row rows (Csv.quoted_field s +:+ rest)
  = Csv.after_field s row rows rest.
Proof.
  intros Hb. unfold Csv.quoted_field. destruct (Csv.has_special s) eqn:Hs.
  - change (String Csv.dquote (Csv.double_quotes s +:+ String Csv.dquote "") +:+ rest)
      with (String Csv.dquote ((Csv.double_quotes s +:+ String Csv.dquote "") +:+ rest)).
    rewrite append_assoc.
    change (Csv.parse_go Csv.InQuoted [] row rows
              (Csv.double_quotes s +:+ String Csv.dquote rest)
            = Csv.after_field s row rows rest).
    rewrite parse_go_quoted by exact Hb. reflexivity.
  - rewrite parse_go_plain by auto. reflexivity.
Qed.

End Reader.

Lemma join_cons sep (x y : string) (l : list string) :
  Csv.join sep (x :: y :: l) = x +:+ String sep (Csv.join sep (y :: l)).
Proof. reflexivity. Qed.

(** A line of fields reads back as those fields, added to the line. *)
Lemma parse_go_line init : forall last row rows rest,
  Csv.at_line_end rest ->
  Csv.parse_go Csv.FieldStart [] row rows (Csv.render_line (init ++ [last]) +:+ rest)
  = Csv.after_field last (rev init ++ row) rows rest.
Proof.
  induction init as [|f init IH]; intros last row rows rest Hb.
  - change (Csv.render_line ([] ++ [last])) with (Csv.quoted_field last).
    apply parse_go_quoted_field. destruct rest; [exact I|]. right. exact Hb.
  - unfold Csv.render_line in *.
    assert (Hne : exists y l, map Csv.quoted_field (init ++ [last]) = y :: l).
    { destruct init; simpl; eauto. }
    destruct Hne as (y & l & Hyl).
    change (map Csv.quoted_field ((f :: init) ++ [last]))
      with (Csv.quoted_field f :: map Csv.quoted_field (init ++ [last])).
    rewrite Hyl, join_cons, <- Hyl, append_assoc.
    change (String Csv.comma (Csv.join Csv.comma (map Csv.quoted_field (init ++ [last]))) +:+ rest)
      with (String Csv.comma
              (Csv.join Csv.comma (map Csv.quoted_field (init ++ [last])) +:+ rest)).
    rewrite parse_go_quoted_field by (left; reflexivity).
    change (Csv.parse_go Csv.FieldStart [] (f :: row) rows
              (Csv.join Csv.comma (map Csv.quoted_field (init ++ [last])) +:+ rest)
            = Csv.after_field last (rev (f :: init) ++ row) rows rest).
    rewrite IH by exact Hb. simpl rev. rewrite <- app_assoc. reflexivity.
Qed.

Lemma nonempty_snoc {A} (l : list A) : l <> [] -> exists init last, l = init ++ [last].
Proof.
  intros Hne. destruct (exists_last Hne) as (init & last & ->). eauto.
Qed.

(** A text of lines, each with at least one field, reads back as those lines. *)
Lemma parse_go_table lines : forall line rows,
  Forall (fun l => l <> []) (line :: lines) ->
  Csv.parse_go Csv.FieldStart [] [] rows
    (Csv.join Csv.newline (map Csv.render_line (line :: lines)))
  = Some (rev rows ++ line :: lines).
Proof.
  induction lines as [|line2 lines IH]; intros line rows Hne.
  - apply Forall_cons in Hne as [Hline _].
    destruct (nonempty_snoc line Hline) as (init & last & ->).
    change (Csv.join Csv.newline (map Csv.render_line [init ++ [last]]))
      with (Csv.render_line (init ++ [last])).
    rewrite <- (append_nil_r (Csv.render_line (init ++ [last]))).
    rewrite parse_go_line by exact I.
    unfold Csv.after_field. rewrite app_nil_r. simpl rev.
    rewrite rev_involutive. reflexivity.
  - apply Forall_cons in Hne as [Hline Hrest].
    destruct (nonempty_snoc line Hline) as (init & last & ->).
    change (map Csv.render_line ((init ++ [last]) :: line2 :: lines))
      with (Csv.render_line (init ++ [last])
            :: Csv.render_line line2 :: map Csv.render_line lines).
    rewrite join_cons.
    rewrite parse_go_line by reflexivity.
    change (Csv.parse_go Csv.FieldStart [] [] (rev (last :: rev init ++ []) :: rows)
              (Csv.join Csv.newline (map Csv.render_line (line2 :: lines)))
            = Some (rev rows ++ (init ++ [last]) :: line2 :: lines)).
    rewrite IH by exact Hrest.
    rewrite app_nil_r. simpl rev. rewrite rev_involutive.
    rewrite <- app_assoc. reflexivity.
Qed.

Lemma render_line_as_read fields : Csv.render_line (Csv.as_read fields) = Csv.render_line fields.
Proof. destruct fields; reflexivity. Qed.

Lemma as_read_nonempty fields : Csv.as_read fields <> [].
Proof. destruct fields; discriminate. Qed.

Lemma render_line_plain fields :
  Forall (fun h => Csv.has_special h = false) fields ->
  Csv.render_line fields = Csv.join Csv.comma fields.
Proof.
  intros H. unfold Csv.render_line. f_equal.
  induction H as [|h l Hh Hl IH]; [reflexivity|].
  simpl. rewrite (quoted_field_plain h Hh), IH. reflexivity.
Qed.

(** The text [convertToCSV] writes, line by line. *)
Lemma convertToCSV_lines first rest :
  Forall (fun h => Csv.has_special h = false) (Csv.keys first) ->
  Csv.convertToCSV (Csv.DataArray (first :: rest))
  = Csv.join Csv.newline (map Csv.render_line (Csv.table_of (Csv.keys first) (first :: rest))).
Proof.
  intros Hclean. unfold Csv.convertToCSV, Csv.table_of. cbv zeta.
  f_equal.
  change (map Csv.render_line (?x :: ?l)) with (Csv.render_line x :: map Csv.render_line l).
  rewrite render_line_as_read, (render_line_plain _ Hclean).
  f_equal. rewrite map_map. apply map_ext. intros row.
  rewrite render_line_as_read. unfold Csv.render_line. rewrite map_map.
  f_equal. apply map_ext. intros h. apply cell_quoted_field.
Qed.

Lemma parseCSV_convertToCSV first rest :
  Forall (fun h => Csv.has_special h = false) (Csv.keys first) ->
  Csv.parseCSV (Csv.convertToCSV (Csv.DataArray (first :: rest)))
  = Some (Csv.table_of (Csv.keys first) (first :: rest)).
Proof.
  intros Hclean. rewrite (convertToCSV_lines first rest Hclean).
  unfold Csv.parseCSV, Csv.table_of. rewrite parse_go_table; [reflexivity|].
  apply Forall_cons. split; [apply as_read_nonempty|].
  apply Forall_fmap, Forall_forall. intros row _. apply as_read_nonempty.
Qed.

Lemma csv_reads_back first rest :
  Forall (fun h => Csv.has_special h = false) (Csv.keys first) ->
  exists header rows,
    Csv.parseCSV (Csv.convertToCSV (Csv.DataArray (first :: rest))) = Some (header :: rows)
    /\ length rows = length (first :: rest)
    /\ forall i r row k,
         (first :: rest) !! i = Some r -> rows !! i = Some row ->
         k ∈ Csv.keys first ->
         exists j, header !! j = Some k
                   /\ row !! j = Some (Csv.to_str (Csv.get r k)).
Proof.
  intros Hclean.
  rewrite (parseCSV_convertToCSV first rest Hclean). unfold Csv.table_of.
  eexists _, _. split; [reflexivity|]. split; [apply length_map|].
  intros i r row k Hr Hrow Hk.
  change (map ?f ?l) with (f <$> l) in Hrow.
  rewrite list_lookup_fmap, Hr in Hrow. simpl in Hrow. injection Hrow as <-.
  apply list_elem_of_lookup in Hk as [j Hj]. exists j.
  destruct (Csv.keys first) as [|h hs] eqn:Ekeys; [rewrite lookup_nil in Hj; discriminate|].
  split; [exact Hj|]. unfold Csv.as_read.
  change (map ?f ?l) with (f <$> l). cbn [fmap list_fmap].
  change (Csv.to_str (Csv.get r h) :: ((fun header => Csv.to_str (Csv.get r header)) <$> hs))
    with ((fun header => Csv.to_str (Csv.get r header)) <$> (h :: hs)).
  rewrite list_lookup_fmap, Hj. reflexivity.
Qed.

(** C6, amended.  For every non-empty list of records, [convertToCSV]
    writes the first record's field names as the header line, as they
    are (unquoted), and one line per record with the values under those
    names, comma-joined; a value is wrapped in quotes, its quotes doubled,
    exactly when it holds a comma, a double quote or a line feed.  When
    no field name of the first record holds one of these three
    characters, the text reads back (every line a row, an empty line a row
    of one empty field) as the header and one row per record, and the
    value a record has under any of the first record's field names is
    found again, as text, in the column of that name. *)
Theorem csv_round_trip_on_header_columns first rest :
  (forall v, Csv.cell v = Csv.quoted_field (Csv.to_str v))
  /\ Csv.convertToCSV (Csv.DataArray (first :: rest))
     = Csv.join Csv.newline
         (Csv.join Csv.comma (Csv.keys first)
          :: map (fun row =>
                    Csv.join Csv.comma
                      (map (fun header => Csv.quoted_field (Csv.to_str (Csv.get row header)))
                           (Csv.keys first)))
                 (first :: rest))
  /\ (Forall (fun h => Csv.has_special h = false) (Csv.keys first) ->
      exists header rows,
        Csv.parseCSV (Csv.convertToCSV (Csv.DataArray (first :: rest)))
        = Some (header :: rows)
        /\ length rows = length (first :: rest)
        /\ forall i r row k,
             (first :: rest) !! i = Some r -> rows !! i = Some row ->
             k ∈ Csv.keys first ->
             exists j, header !! j = Some k
                       /\ row !! j = Some (Csv.to_str (Csv.get r k))).
Proof.
  split; [exact cell_quoted_field|]. split.
  - unfold Csv.convertToCSV. cbv zeta. do 2 f_equal.
    apply map_ext. intros row. f_equal. apply map_ext. intros h. apply cell_quoted_field.
  - apply csv_reads_back.
Qed.

Lemma csv_round_trip_on_header_columns_witness :
  exists header rows,
    Csv.parseCSV (Csv.convertToCSV (Csv.DataArray [Csv.product_row; Csv.only_a]))
    = Some (header :: rows)
    /\ length rows = 2%nat.
Proof.
  destruct (csv_round_trip_on_header_columns Csv.product_row [Csv.only_a])
    as (_ & _ & Hback).
  destruct Hback as (header & rows & Hparse & Hlen & _).
  - vm_compute. repeat constructor.
  - exists header, rows. split; [exact Hparse|exact Hlen].
Defined.

(** C6 as stated fails.  Field names are written to the header line as
    they are: one that holds a line feed splits the header in two lines,
    so the text reads back with one row too many.  And the columns are
    those of the first record only: a field that a later record has under
    another name is not in the text at all. *)
Lemma csv_round_trip_fails :
  ~ Csv.round_trip [Csv.split_name_record]
  /\ ~ Csv.round_trip [Csv.only_a; Csv.only_b].
Proof.
  split.
  - intros (header & rows & Hparse & Hlen & _).
    vm_compute in Hparse. injection Hparse as <- <-. discriminate Hlen.
  - intros (header & rows & Hparse & _ & Hcols).
    vm_compute in Hparse. injection Hparse as <- <-.
    destruct (Hcols 1%nat Csv.only_b ["undefined"] "b" eq_refl eq_refl) as (j & Hj & _).
    + left.
    + destruct j as [|j]; [discriminate Hj|]. destruct j; discriminate Hj.
Qed.

(** What the two texts read back to. *)
Example csv_examples :
  Csv.parseCSV (Csv.convertToCSV (Csv.DataArray [Csv.split_name_record]))
  = Some [["a"]; ["b"]; ["1"]]
  /\ Csv.parseCSV (Csv.convertToCSV (Csv.DataArray [Csv.only_a; Csv.only_b]))
     = Some [["a"]; ["1"]; ["undefined"]]
  /\ Csv.parseCSV (Csv.convertToCSV (Csv.DataArray [Csv.product_row]))
     = Some [["id"; "name"; "price"];
             ["p1"; "Monitor, 27" +:+ String Csv.dquote " wide"; "249"]].
Proof. vm_compute. repeat split; reflexivity. Qed.

(** * Further properties of the analytics helpers *)

(** ** The daily series of the admin dashboard *)

Lemma daily_revenue_as_shares (l : list order) (a b : Z) :
  foldl (fun sum o => sum + total_or_0 o) 0
        (filter (fun o => Daily.delivered_on a b o = true) l)
  = sumZ (map (Daily_share a b) l).
Proof.
  unfold sumZ. induction l as [|o l IH]; [reflexivity|].
  rewrite filter_cons. simpl. unfold Daily_share at 1.
  destruct (decide (Daily.delivered_on a b o = true)) as [Hd|Hd].
  - rewrite Hd. simpl. rewrite foldl_add_from, IH. lia.
  - apply not_true_is_false in Hd. rewrite Hd, IH. lia.
Qed.

Lemma daily_share_split (a b c : Z) (o : order) :
  a <= b <= c -> Daily_share a b o + Daily_share b c o = Daily_share a c o.
Proof.
  intros Hab. unfold Daily_share, Daily.delivered_on, JS.ge, JS.lt.
  destruct (orderDate o) as [t|]; [|reflexivity].
  destruct (o_status o =? "delivered")%string; rewrite ?andb_false_r; [|reflexivity].
  rewrite !andb_true_r.
  destruct (a <=? t) eqn:E1, (t <? b) eqn:E2, (b <=? t) eqn:E3, (t <? c) eqn:E4;
    simpl; lia.
Qed.

Lemma daily_shares_split (l : list order) (a b c : Z) :
  a <= b <= c ->
  sumZ (map (Daily_share a b) l) + sumZ (map (Daily_share b c) l)
  = sumZ (map (Daily_share a c) l).
Proof.
  intros Hab. induction l as [|o l IH]; [reflexivity|].
  unfold sumZ in *. simpl. pose proof (daily_share_split a b c o Hab). lia.
Qed.

Lemma daily_share_empty (a b : Z) (o : order) : b <= a -> Daily_share a b o = 0.
Proof.
  intros Hba. unfold Daily_share, Daily.delivered_on, JS.ge, JS.lt.
  destruct (orderDate o) as [t|]; [|reflexivity].
  destruct (Z.leb_spec a t), (Z.ltb_spec t b); simpl; try reflexivity; lia.
Qed.

Lemma loop_indices_S n : loop_indices (S n) = n :: loop_indices n.
Proof. unfold loop_indices. rewrite seq_S, rev_app_distr. reflexivity. Qed.

Lemma getRevenueTrend_total orders days now :
  sumZ (map Daily.rp_revenue (Daily.getRevenueTrend orders days now))
  = foldl (fun sum o => sum + total_or_0 o) 0
      (filter (fun o => Daily.delivered_on (JS.addDays now (1 - Z.of_nat days))
                                           (JS.addDays now 1) o = true) orders).
Proof.
  rewrite daily_revenue_as_shares. unfold Daily.getRevenueTrend.
  induction days as [|n IH].
  - simpl. symmetry. apply sumZ_zero. intros o _.
    apply daily_share_empty. unfold JS.addDays. simpl. lia.
  - rewrite loop_indices_S. cbn [map]. unfold sumZ in *. cbn [foldr].
    fold (sumZ (map Daily.rp_revenue (map (Daily.revenue_of_day orders now) (loop_indices n)))).
    unfold sumZ. rewrite IH. cbn [Daily.revenue_of_day Daily.rp_revenue].
    rewrite daily_revenue_as_shares.
    replace (JS.addDays (JS.addDays now (- Z.of_nat n)) 1)
      with (JS.addDays now (1 - Z.of_nat n)) by (unfold JS.addDays; lia).
    replace (JS.addDays now (- Z.of_nat n))
      with (JS.addDays now (1 - Z.of_nat (S n))) by (unfold JS.addDays; lia).
    apply daily_shares_split. unfold JS.addDays, JS.msPerDay. lia.
Qed.

(** X3.  The daily buckets of [getRevenueTrend] are half-open, so they
    conserve revenue: the revenues of the series add up to the total of
    the delivered orders dated from the first day of the series up to, not
    including, the instant one day after [now]; no order is counted
    twice. *)
Theorem getRevenueTrend_conserves_revenue orders days now :
  sumZ (map Daily.rp_revenue (Daily.getRevenueTrend orders days now))
  = foldl (fun sum o => sum + total_or_0 o) 0
      (filter (fun o => Daily.delivered_on (JS.addDays now (1 - Z.of_nat days))
                                           (JS.addDays now 1) o = true) orders).
Proof. apply getRevenueTrend_total. Qed.

Lemma loop_indices_lookup n : forall j,
  (j < n)%nat -> loop_indices n !! j = Some (n - 1 - j)%nat.
Proof.
  induction n as [|n IH]; intros j Hj; [lia|].
  rewrite loop_indices_S. destruct j as [|j]; simpl.
  - f_equal. lia.
  - rewrite IH by lia. f_equal. lia.
Qed.

Lemma loop_indices_length n : length (loop_indices n) = n.
Proof. unfold loop_indices. rewrite length_rev. apply length_seq. Qed.

Lemma getUserGrowth_lookup users days now j e :
  Daily.getUserGrowth users days now !! j = Some e ->
  (j < days)%nat /\ e = Daily.growth_of_day users now (days - 1 - j).
Proof.
  unfold Daily.getUserGrowth. intros H.
  change (map ?f ?l) with (f <$> l) in H.
  rewrite list_lookup_fmap in H.
  destruct (loop_indices days !! j) as [i|] eqn:Ei; [|discriminate].
  simpl in H. injection H as <-.
  assert (Hj : (j < days)%nat).
  { apply lookup_lt_Some in Ei. rewrite loop_indices_length in Ei. exact Ei. }
  split; [exact Hj|].
  rewrite loop_indices_lookup in Ei by exact Hj. injection Ei as <-. reflexivity.
Qed.

(** X4.  In the series of [getUserGrowth] the cumulative count of a day is
    the cumulative count of the day before plus the users created on that
    day. *)
Theorem getUserGrowth_cumulative users days now j e1 e2 :
  Daily.getUserGrowth users days now !! j = Some e1 ->
  Daily.getUserGrowth users days now !! S j = Some e2 ->
  Daily.gp_cumulative e2 = (Daily.gp_cumulative e1 + Daily.gp_users e2)%nat.
Proof.
  intros H1 H2.
  apply getUserGrowth_lookup in H1 as [Hj1 ->].
  apply getUserGrowth_lookup in H2 as [Hj2 ->].
  replace (days - 1 - j)%nat with (S (days - 1 - S j)) by lia.
  set (i := (days - 1 - S j)%nat). cbn [Daily.growth_of_day Daily.gp_cumulative Daily.gp_users].
  replace (JS.addDays (JS.addDays now (- Z.of_nat (S i))) 1)
    with (JS.addDays now (- Z.of_nat i)) by (unfold JS.addDays; lia).
  set (date := JS.addDays now (- Z.of_nat i)).
  set (nextDay := JS.addDays date 1).
  assert (Hle : date <= nextDay) by (subst nextDay; unfold JS.addDays, JS.msPerDay; lia).
  clearbody date nextDay. clear -Hle.
  induction users as [|u users IH]; [reflexivity|].
  rewrite !filter_cons.
  assert (Hu : Daily.created_before nextDay u
               = Daily.created_before date u || Daily.created_on date nextDay u
               /\ (Daily.created_before date u && Daily.created_on date nextDay u = false)).
  { unfold Daily.created_before, Daily.created_on, JS.ge, JS.lt.
    destruct (JS.newDate (u_createdAt u)) as [t|]; [|split; reflexivity].
    destruct (t <? nextDay) eqn:E1, (t <? date) eqn:E2, (date <=? t) eqn:E3;
      simpl; split; try reflexivity; lia. }
  destruct Hu as [Hu1 Hu2].
  destruct (Daily.created_before date u) eqn:Eb, (Daily.created_on date nextDay u) eqn:Eo;
    simpl in Hu1, Hu2; try discriminate; rewrite Hu1;
    repeat match goal with
           | |- context [decide (?b = true)] => destruct (decide (b = true)); try congruence
           end;
    simpl; lia.
Qed.

Lemma getUserGrowth_cumulative_witness :
  Daily.gp_cumulative (Daily.growth_of_day Daily.two_users (2 * JS.msPerDay - 1) 0)
  = (Daily.gp_cumulative (Daily.growth_of_day Daily.two_users (2 * JS.msPerDay - 1) 1)
     + Daily.gp_users (Daily.growth_of_day Daily.two_users (2 * JS.msPerDay - 1) 0))%nat.
Proof.
  apply (getUserGrowth_cumulative Daily.two_users 2 (2 * JS.msPerDay - 1) 0); reflexivity.
Defined.

(** ** Distributions *)

Lemma add_spend_sum obj k v :
  sumZ (map snd (Segmentation.add_spend obj k v)) = sumZ (map snd obj) + v.
Proof.
  unfold sumZ. induction obj as [|[k' v'] obj IH]; simpl; [lia|].
  destruct (k' =? k)%string; simpl; [lia|]. rewrite IH. lia.
Qed.

Lemma add_spend_pos obj k v :
  1 <= v -> Forall (fun kv => 1 <= snd kv) obj ->
  Forall (fun kv : string * Z => 1 <= snd kv) (Segmentation.add_spend obj k v).
Proof.
  intros Hv. induction 1 as [|[k' v'] obj Hkv Hobj IH]; simpl.
  - constructor; [simpl; lia|constructor].
  - destruct (k' =? k)%string; constructor; simpl in *; auto; lia.
Qed.

Lemma tally_from ks : forall acc,
  NoDup (map fst acc) -> Forall (fun kv => 1 <= snd kv) acc ->
  let d := foldl (fun distribution k => Segmentation.add_spend distribution k 1) acc ks in
  NoDup (map fst d)
  /\ Forall (fun kv => 1 <= snd kv) d
  /\ sumZ (map snd d) = sumZ (map snd acc) + Z.of_nat (length ks)
  /\ forall k, k ∈ map fst d <-> k ∈ map fst acc \/ k ∈ ks.
Proof.
  induction ks as [|k ks IH]; intros acc Hnd Hpos; cbn zeta.
  - simpl. split; [exact Hnd|]. split; [exact Hpos|]. split; [lia|].
    intros k. rewrite elem_of_nil. tauto.
  - simpl foldl.
    destruct (IH (Segmentation.add_spend acc k 1)) as (H1 & H2 & H3 & H4).
    + rewrite add_spend_keys. destruct (decide (k ∈ map fst acc)); [exact Hnd|].
      apply NoDup_app. repeat split; [exact Hnd| |apply NoDup_singleton].
      intros x Hx Hx'. apply list_elem_of_singleton in Hx'. congruence.
    + apply add_spend_pos; [lia|exact Hpos].
    + cbn zeta in *. split; [exact H1|]. split; [exact H2|]. split.
      * rewrite H3, add_spend_sum. simpl length. lia.
      * intros x. rewrite H4, add_spend_keys, elem_of_cons.
        destruct (decide (k ∈ map fst acc)) as [Hin|Hin].
        -- split; [tauto|]. intros [?|[->|?]]; tauto.
        -- rewrite elem_of_app, list_elem_of_singleton. tauto.
Qed.

Lemma js_div_pos (c t : Z) :
  1 <= t -> JS.div (inject_Z c) (inject_Z t) = JS.Num (inject_Z c / inject_Z t).
Proof.
  intros Ht. unfold JS.div.
  destruct (Qeq_bool (inject_Z t) 0) eqn:E; [|reflexivity].
  apply Qeq_bool_eq in E. unfold Qeq in E. simpl in E. lia.
Qed.

Lemma toFixed_number d q : JS.is_number (JS.toFixed d (JS.Num q)).
Proof. unfold JS.toFixed. destruct (Qle_bool 0 q); exact I. Qed.

Lemma shares_tally_distributes (ks : list string) :
  Distribution.distributes ks (Distribution.shares (Distribution.tally ks) (length ks)).
Proof.
  unfold Distribution.distributes, Distribution.tally.
  destruct (tally_from ks [] (NoDup_nil_2) (Forall_nil_2 _)) as (H1 & H2 & H3 & H4).
  cbn zeta in *.
  set (d := foldl _ [] _) in *.
  assert (Hkeys : map Distribution.sh_key (Distribution.shares d (length ks)) = map fst d).
  { unfold Distribution.shares. rewrite map_map. apply map_ext. intros [k c]. reflexivity. }
  assert (Hcounts : map Distribution.sh_count (Distribution.shares d (length ks))
                    = map snd d).
  { unfold Distribution.shares. rewrite map_map. apply map_ext. intros [k c]. reflexivity. }
  rewrite Hkeys, Hcounts. repeat split.
  - exact H1.
  - rewrite H3. simpl. lia.
  - destruct ks as [|k0 ks]; [subst d; simpl; constructor|].
    unfold Distribution.shares. apply Forall_fmap. eapply Forall_impl; [exact H2|].
    intros [k c] Hc. cbn [snd] in Hc.
    cbn [compose Distribution.sh_count Distribution.sh_percentage].
    split; [exact Hc|].
    rewrite js_div_pos by (simpl length; lia). apply toFixed_number.
  - intros Hk. apply H4 in Hk as [Hk|Hk]; [|exact Hk].
    apply elem_of_nil in Hk. contradiction.
  - intros Hk. apply H4. right. exact Hk.
Qed.

(** X5.  In the result of [getOrderStatusDistribution] every status
    appears once, with a count of at least 1 and a percentage that is a
    number; the counts add up to the number of orders.  An order without
    status is counted as pending.  (The statuses are taken not to be names
    that an object inherits, such as [constructor].) *)
Theorem getOrderStatusDistribution_counts orders :
  Forall plain_key (map Distribution.status_or_pending orders) ->
  Distribution.distributes (map Distribution.status_or_pending orders)
                           (Distribution.getOrderStatusDistribution orders).
Proof.
  intros _. unfold Distribution.getOrderStatusDistribution.
  rewrite <- (length_map Distribution.status_or_pending orders).
  apply shares_tally_distributes.
Qed.

Lemma getOrderStatusDistribution_counts_witness :
  Forall plain_key (map Distribution.status_or_pending Segmentation.ten_customers)
  /\ sumZ (map Distribution.sh_count
               (Distribution.getOrderStatusDistribution Segmentation.ten_customers)) = 10.
Proof.
  assert (H : Forall plain_key
                (map Distribution.status_or_pending Segmentation.ten_customers)).
  { apply (bool_decide_unpack _). vm_compute. reflexivity. }
  split; [exact H|].
  exact (proj1 (proj2 (getOrderStatusDistribution_counts Segmentation.ten_customers H))).
Defined.

(** The payment methods, shipping methods and categories of three
    records. *)
Example three_methods :
  map Distribution.sh_key
      (Distribution.getPaymentMethodDistribution
         [ mkDetails (Segmentation.one_order "user_a" 10) None (Some "card") None;
           mkDetails (Segmentation.one_order "user_b" 10) None None None;
           mkDetails (Segmentation.one_order "user_c" 10) None (Some "card") (Some "") ])
  = ["card"; "unknown"].
Proof. vm_compute. reflexivity. Qed.

(** X6.  In the results of [getPaymentMethodDistribution],
    [getShippingMethodDistribution] and [getCategoryDistribution] every
    key appears once, with a count of at least 1 and a percentage that is
    a number, and the counts add up to the number of records.  An order
    without payment method counts as unknown, one without shipping method
    as standard, and a product without category under the name undefined.
    (The keys are taken not to be names that an object inherits.) *)
Theorem method_and_category_distributions orders products :
  Forall plain_key (map (fun o => string_or (od_payment_method o) "unknown") orders) ->
  Forall plain_key (map (fun o => string_or (od_shipping_method o) "standard") orders) ->
  Forall plain_key (map (fun p => property_name (cp_category p)) products) ->
  Distribution.distributes (map (fun o => string_or (od_payment_method o) "unknown") orders)
                           (Distribution.getPaymentMethodDistribution orders)
  /\ Distribution.distributes
       (map (fun o => string_or (od_shipping_method o) "standard") orders)
       (Distribution.getShippingMethodDistribution orders)
  /\ Distribution.distributes (map (fun p => property_name (cp_category p)) products)
                              (Distribution.getCategoryDistribution products).
Proof.
  intros _ _ _.
  unfold Distribution.getPaymentMethodDistribution,
    Distribution.getShippingMethodDistribution, Distribution.getCategoryDistribution.
  split; [|split].
  - rewrite <- (length_map (fun o => string_or (od_payment_method o) "unknown") orders).
    apply shares_tally_distributes.
  - rewrite <- (length_map (fun o => string_or (od_shipping_method o) "standard") orders).
    apply shares_tally_distributes.
  - rewrite <- (length_map (fun p => property_name (cp_category p)) products).
    apply shares_tally_distributes.
Qed.

Lemma method_and_category_distributions_witness :
  let orders :=
    [ mkDetails (Segmentation.one_order "user_a" 10) None (Some "card") None;
      mkDetails (Segmentation.one_order "user_b" 10) None None (Some "express") ] in
  let products := [ mkCatalogProduct (mkProduct "p1" 5 0) (Some "Phone") None (Some 100) None ] in
  Forall plain_key (map (fun o => string_or (od_payment_method o) "unknown") orders)
  /\ Forall plain_key (map (fun o => string_or (od_shipping_method o) "standard") orders)
  /\ Forall plain_key (map (fun p => property_name (cp_category p)) products)
  /\ Distribution.distributes (map (fun p => property_name (cp_category p)) products)
                              (Distribution.getCategoryDistribution products).
Proof.
  intros orders products.
  assert (H1 : Forall plain_key
                 (map (fun o => string_or (od_payment_method o) "unknown") orders)).
  { apply (bool_decide_unpack _). vm_compute. reflexivity. }
  assert (H2 : Forall plain_key
                 (map (fun o => string_or (od_shipping_method o) "standard") orders)).
  { apply (bool_decide_unpack _). vm_compute. reflexivity. }
  assert (H3 : Forall plain_key (map (fun p => property_name (cp_category p)) products)).
  { apply (bool_decide_unpack _). vm_compute. reflexivity. }
  split; [exact H1|]. split; [exact H2|]. split; [exact H3|].
  exact (proj2 (proj2 (method_and_category_distributions orders products H1 H2 H3))).
Defined.

(** ** Customer lifetime value and churn *)

Lemma add_value_add_spend obj k v :
  Customers.add_value obj k v = Segmentation.add_spend obj k v.
Proof.
  induction obj as [|[k' v'] obj IH]; simpl; [reflexivity|].
  destruct (k' =? k)%string; [|rewrite IH; reflexivity].
  destruct (Z.eqb_spec v' 0) as [->|_]; reflexivity.
Qed.

Lemma customerValues_customerSpending orders :
  Customers.customerValues orders = Segmentation.customerSpending orders.
Proof.
  unfold Customers.customerValues, Segmentation.customerSpending.
  generalize (@nil (string * Z)). induction orders as [|o orders IH]; intros acc; simpl.
  - reflexivity.
  - destruct (truthy_userId o); [rewrite add_value_add_spend|]; apply IH.
Qed.

Lemma customerSpending_sum_from orders : forall acc,
  sumZ (map snd (foldl (fun obj o =>
                          match truthy_userId o with
                          | Some id => Segmentation.add_spend obj id (total_or_0 o)
                          | None => obj
                          end) acc orders))
  = sumZ (map snd acc) + attributed_total orders.
Proof.
  unfold attributed_total.
  induction orders as [|o orders IH]; intros acc; simpl.
  - unfold sumZ. simpl. lia.
  - rewrite filter_cons. destruct (truthy_userId o) as [id|] eqn:E.
    + rewrite IH, add_spend_sum.
      destruct (decide (is_Some (Some id))) as [_|Hn]; [|exfalso; apply Hn; eauto].
      unfold sumZ. simpl. lia.
    + rewrite IH.
      destruct (decide (is_Some (@None string))) as [[? Hs]|_]; [discriminate|].
      reflexivity.
Qed.

Lemma foldl_add_sumZ (l : list Z) : foldl (fun sum val => sum + val) 0 l = sumZ l.
Proof.
  rewrite <- (Z.add_0_l (sumZ l)). generalize 0.
  unfold sumZ. induction l as [|x l IH]; intros a; simpl; [lia|].
  rewrite IH. lia.
Qed.

(** X7.  [calculateCustomerLifetimeValue] is 0 when no order carries a
    customer; otherwise it is the total of the orders that carry one,
    divided by the number of distinct customers: a finite number.  (The
    customer identifiers are taken not to be names that an object
    inherits.) *)
Theorem calculateCustomerLifetimeValue_is_mean users orders :
  Forall plain_key (omap truthy_userId orders) ->
  Customers.calculateCustomerLifetimeValue users orders
  = match Segmentation.customers_with_orders orders with
    | [] => JS.Num 0
    | _ :: _ =>
        JS.Num (inject_Z (attributed_total orders)
                / inject_Z (Z.of_nat (length (Segmentation.customers_with_orders orders))))
    end.
Proof.
  intros _.
  unfold Customers.calculateCustomerLifetimeValue. cbv zeta.
  rewrite customerValues_customerSpending, foldl_add_sumZ, length_map.
  assert (Hlen : length (Segmentation.customerSpending orders)
                 = length (Segmentation.customers_with_orders orders)).
  { rewrite <- (length_map fst). apply Permutation_length.
    destruct (customerSpending_keys orders) as [H1 H2].
    apply NoDup_Permutation; [exact H1|apply NoDup_remove_dups|exact H2]. }
  pose proof (customerSpending_sum_from orders []) as Hsum.
  change (foldl _ [] orders) with (Segmentation.customerSpending orders) in Hsum.
  rewrite Hsum, Hlen. unfold sumZ at 1. simpl foldr. rewrite Z.add_0_l.
  destruct (Segmentation.customers_with_orders orders) as [|c cs]; [reflexivity|].
  simpl length. cbn [Nat.eqb]. apply js_div_pos. lia.
Qed.

Lemma calculateCustomerLifetimeValue_is_mean_witness :
  Forall plain_key (omap truthy_userId Segmentation.ten_customers)
  /\ Customers.calculateCustomerLifetimeValue [] Segmentation.ten_customers
     = JS.Num (inject_Z 5500 / inject_Z 10).
Proof.
  assert (H : Forall plain_key (omap truthy_userId Segmentation.ten_customers)).
  { apply (bool_decide_unpack _). vm_compute. reflexivity. }
  split; [exact H|].
  rewrite (calculateCustomerLifetimeValue_is_mean [] Segmentation.ten_customers H).
  vm_compute. reflexivity.
Defined.

Lemma Qdiv_le_1 (c t : Z) : 1 <= t -> c <= t -> (inject_Z c / inject_Z t <= 1)%Q.
Proof.
  intros Ht Hc. apply Qle_shift_div_r.
  - change 0%Q with (inject_Z 0). rewrite <- Zlt_Qlt. lia.
  - rewrite Qmult_1_l. rewrite <- Zle_Qle. exact Hc.
Qed.





(** A churn rate below zero: two long-standing customers ordered in the
    last month and the one user of the last 90 days did not. *)
Example churn_rate_negative :
  Customers.calculateChurnRate
    [ mkUser "user_a" (JS.Stamp 0) JS.Missing; mkUser "user_b" (JS.Stamp 0) JS.Missing;
      mkUser "user_z" (JS.Stamp (Segmentation.days 390)) JS.Missing ]
    [ mkOrder (Some "user_a") (Some 10) "delivered" (JS.Stamp (Segmentation.days 395)) JS.Missing;
      mkOrder (Some "user_b") (Some 10) "delivered" (JS.Stamp (Segmentation.days 395)) JS.Missing ]
    (Segmentation.days 400) (Segmentation.days 400)
  = Customers.ChurnText (JS.Fixed (-1000)).
Proof. vm_compute. reflexivity. Qed.

(** ** The recency segments, user by user *)

Lemma tag_user_pushes orders now s u :
  Segmentation.new (Segmentation.tag_user orders now s u)
  = Segmentation.new s ++ (if joined_recently now u then [u_id u] else [])
  /\ Segmentation.atRisk (Segmentation.tag_user orders now s u)
     = Segmentation.atRisk s ++ (if is_at_risk orders now u then [u_id u] else [])
  /\ Segmentation.dormant (Segmentation.tag_user orders now s u)
     = Segmentation.dormant s ++ (if is_dormant orders now u then [u_id u] else []).
Proof.
  unfold Segmentation.tag_user, joined_recently, is_at_risk, is_dormant. cbv zeta.
  destruct (JS.ge (JS.newDate (u_createdAt u)) (now - Segmentation.days 30));
    destruct (Segmentation.lastOrder orders u) as [lo|]; simpl;
    rewrite ?app_nil_r; auto.
  - unfold JS.lt, JS.ge.
    destruct (orderDate lo) as [t|]; simpl; rewrite ?app_nil_r; auto.
    destruct (Z.ltb_spec t (now - Segmentation.days 60)),
             (Z.leb_spec (now - Segmentation.days 120) t),
             (Z.ltb_spec t (now - Segmentation.days 120));
      simpl; rewrite ?app_nil_r; auto; lia.
  - unfold JS.lt, JS.ge.
    destruct (orderDate lo) as [t|]; simpl; rewrite ?app_nil_r; auto.
    destruct (Z.ltb_spec t (now - Segmentation.days 60)),
             (Z.leb_spec (now - Segmentation.days 120) t),
             (Z.ltb_spec t (now - Segmentation.days 120));
      simpl; rewrite ?app_nil_r; auto; lia.
Qed.

Lemma filter_map_snoc {A B} (p : A -> bool) (f : A -> B) (l : list A) (x : A) :
  map f (filter (fun a => p a = true) (l ++ [x]))
  = map f (filter (fun a => p a = true) l) ++ (if p x then [f x] else []).
Proof.
  rewrite filter_app, map_app. f_equal. rewrite filter_cons, filter_nil.
  destruct (decide (p x = true)) as [->|H]; [reflexivity|].
  apply not_true_is_false in H. rewrite H. reflexivity.
Qed.

Lemma tag_users_pushes orders now users : forall s,
  Segmentation.new (foldl (Segmentation.tag_user orders now) s users)
  = Segmentation.new s ++ map u_id (filter (fun u => joined_recently now u = true) users)
  /\ Segmentation.atRisk (foldl (Segmentation.tag_user orders now) s users)
     = Segmentation.atRisk s
       ++ map u_id (filter (fun u => is_at_risk orders now u = true) users)
  /\ Segmentation.dormant (foldl (Segmentation.tag_user orders now) s users)
     = Segmentation.dormant s
       ++ map u_id (filter (fun u => is_dormant orders now u = true) users).
Proof.
  induction users as [|u users IH] using rev_ind; intros s.
  - simpl. rewrite !app_nil_r. auto.
  - rewrite foldl_app. simpl foldl.
    destruct (tag_user_pushes orders now (foldl (Segmentation.tag_user orders now) s users) u)
      as (-> & -> & ->).
    destruct (IH s) as (-> & -> & ->).
    rewrite !filter_map_snoc, !app_assoc. auto.
Qed.

Lemma sort_insert_descending {A} (key : A -> Z) x l :
  StronglySorted (fun a b => key b <= key a) l ->
  StronglySorted (fun a b => key b <= key a) (sort_insert (fun a b => key b - key a) x l).
Proof.
  induction 1 as [|y l Hs IH Hy]; simpl.
  - repeat constructor.
  - destruct (0 <? key y - key x) eqn:E.
    + apply Z.ltb_lt in E. constructor; [exact IH|].
      rewrite (sort_insert_perm _ x l). constructor; [lia|exact Hy].
    + apply Z.ltb_ge in E. constructor; [constructor; assumption|].
      constructor; [lia|]. eapply Forall_impl; [exact Hy|]. simpl. intros z Hz. lia.
Qed.

Lemma js_sort_descending {A} (key : A -> Z) (l : list A) :
  StronglySorted (fun a b => key b <= key a) (js_sort (fun a b => key b - key a) l).
Proof.
  unfold js_sort. induction l as [|x l IH]; simpl; [constructor|].
  apply sort_insert_descending, IH.
Qed.

Lemma sort_insert_ext {A} (cmp cmp' : A -> A -> Z) (x : A) (l : list A) :
  (forall y, y ∈ l -> cmp x y = cmp' x y) ->
  sort_insert cmp x l = sort_insert cmp' x l.
Proof.
  induction l as [|y l IH]; intros H; [reflexivity|].
  simpl. rewrite (H y) by left. rewrite IH; [reflexivity|].
  intros z Hz. apply H. right. exact Hz.
Qed.

Lemma js_sort_ext {A} (cmp cmp' : A -> A -> Z) (l : list A) :
  (forall x y, x ∈ l -> y ∈ l -> cmp x y = cmp' x y) ->
  js_sort cmp l = js_sort cmp' l.
Proof.
  induction l as [|x l IH]; intros H; [reflexivity|].
  simpl. rewrite IH by (intros a b Ha Hb; apply H; right; assumption).
  apply sort_insert_ext. intros y Hy. apply H; [left|].
  right. rewrite <- (js_sort_perm cmp' l). exact Hy.
Qed.

(** On dated orders the comparator of [lastOrder] is the difference of
    the dates, a consistent order. *)
Lemma newest_first_dated a b :
  is_Some (orderDate a) -> is_Some (orderDate b) ->
  Segmentation.newest_first a b = date_or_0 b - date_or_0 a.
Proof.
  intros [ta Ha] [tb Hb]. unfold Segmentation.newest_first, date_or_0.
  rewrite Ha, Hb. reflexivity.
Qed.

Lemma omap_orderDate_dated (l : list order) :
  Forall (fun o => is_Some (orderDate o)) l -> omap orderDate l = map date_or_0 l.
Proof.
  induction 1 as [|o l [t Ho] Hl IH]; [reflexivity|].
  change (omap orderDate (o :: l))
    with (match orderDate o with
          | Some t => t :: omap orderDate l
          | None => omap orderDate l
          end).
  change (map date_or_0 (o :: l)) with (date_or_0 o :: map date_or_0 l).
  unfold date_or_0 at 1. rewrite Ho, IH. reflexivity.
Qed.

Lemma foldr_max_spec (t : Z) (ts : list Z) :
  foldr Z.max t ts ∈ t :: ts /\ Forall (fun x => x <= foldr Z.max t ts) (t :: ts).
Proof.
  induction ts as [|x ts [IHin IHle]]; simpl.
  - split; [left|]. constructor; [lia|constructor].
  - split.
    + destruct (Z.max_spec x (foldr Z.max t ts)) as [[_ ->] | [_ ->]].
      * apply elem_of_cons in IHin as [-> | Hin]; [left|]. right. right. exact Hin.
      * right. left.
    + apply Forall_cons in IHle as [Ht Hts].
      constructor; [lia|]. constructor; [lia|].
      eapply Forall_impl; [exact Hts|]. simpl. intros y Hy. lia.
Qed.

(** When all orders are dated, the order that [lastOrder] picks carries
    the latest date of the orders of the user. *)
Lemma lastOrder_latest orders u :
  Forall (fun o => is_Some (orderDate o)) orders ->
  Segmentation.lastOrder orders u ≫= orderDate = latest_order_date orders u.
Proof.
  intros Hdated. unfold Segmentation.lastOrder, latest_order_date.
  set (l := filter (fun o => placed_by u o = true) orders).
  assert (Hl : Forall (fun o => is_Some (orderDate o)) l).
  { apply Forall_forall. intros o Ho. apply list_elem_of_filter in Ho as [_ Ho].
    rewrite Forall_forall in Hdated. apply Hdated, Ho. }
  clearbody l. rewrite (omap_orderDate_dated l Hl).
  rewrite (js_sort_ext Segmentation.newest_first
             (fun a b => date_or_0 b - date_or_0 a) l).
  2:{ intros a b Ha Hb. rewrite Forall_forall in Hl.
      apply newest_first_dated; apply Hl; assumption. }
  pose proof (js_sort_descending date_or_0 l) as Hs.
  pose proof (js_sort_perm (fun a b => date_or_0 b - date_or_0 a) l) as Hp.
  destruct (js_sort (fun a b => date_or_0 b - date_or_0 a) l) as [|h rest].
  - apply Permutation_nil_l in Hp. rewrite <- Hp. reflexivity.
  - change (head (h :: rest) ≫= orderDate) with (orderDate h).
    assert (Hh : h ∈ l) by (rewrite <- Hp; left).
    assert (Hdate : orderDate h = Some (date_or_0 h)).
    { rewrite Forall_forall in Hl. destruct (Hl h Hh) as [t Ht].
      unfold date_or_0. rewrite Ht. reflexivity. }
    rewrite Hdate.
    destruct l as [|o0 l']; [apply Permutation_nil_r in Hp; discriminate|].
    change (map date_or_0 (o0 :: l')) with (date_or_0 o0 :: map date_or_0 l').
    f_equal.
    destruct (foldr_max_spec (date_or_0 o0) (map date_or_0 l')) as [Hin Hle].
    change (date_or_0 o0 :: map date_or_0 l') with (map date_or_0 (o0 :: l')) in Hin, Hle.
    assert (H1 : date_or_0 h <= foldr Z.max (date_or_0 o0) (map date_or_0 l')).
    { rewrite Forall_forall in Hle. apply Hle. apply list_elem_of_fmap. exists h. auto. }
    assert (H2 : foldr Z.max (date_or_0 o0) (map date_or_0 l') <= date_or_0 h).
    { apply list_elem_of_fmap in Hin as (x & Hx & Hxl). rewrite Hx.
      rewrite <- Hp in Hxl. apply elem_of_cons in Hxl as [-> | Hxl]; [lia|].
      apply StronglySorted_inv in Hs as [_ Hs]. rewrite Forall_forall in Hs.
      apply Hs, Hxl. }
    lia.
Qed.

Lemma recency_by_date orders now u :
  Forall (fun o => is_Some (orderDate o)) orders ->
  is_at_risk orders now u = at_risk_by_date orders now u
  /\ is_dormant orders now u = dormant_by_date orders now u.
Proof.
  intros Hdated. pose proof (lastOrder_latest orders u Hdated) as H.
  unfold is_at_risk, is_dormant, at_risk_by_date, dormant_by_date.
  destruct (Segmentation.lastOrder orders u) as [lo|]; simpl in H; rewrite <- H.
  - unfold JS.lt, JS.ge. destruct (orderDate lo); split; reflexivity.
  - split; reflexivity.
Qed.

(** X9.  When every order has a valid date, the recency lists of
    [segmentCustomers] hold, in the order of the users, the identifiers
    of the users that joined in the last 30 days, of those whose latest
    order is more than 60 and at most 120 days old, and of those whose
    latest order is more than 120 days old.  No user is both at risk and
    dormant, so the two counts together never exceed the number of
    users. *)
Theorem recency_segments_by_user users orders now :
  Forall (fun o => is_Some (orderDate o)) orders ->
  Segmentation.new (Segmentation.segment_members users orders now)
  = map u_id (filter (fun u => joined_recently now u = true) users)
  /\ Segmentation.atRisk (Segmentation.segment_members users orders now)
     = map u_id (filter (fun u => at_risk_by_date orders now u = true) users)
  /\ Segmentation.dormant (Segmentation.segment_members users orders now)
     = map u_id (filter (fun u => dormant_by_date orders now u = true) users)
  /\ (forall u, at_risk_by_date orders now u && dormant_by_date orders now u = false)
  /\ (length (Segmentation.atRisk (Segmentation.segment_members users orders now))
      + length (Segmentation.dormant (Segmentation.segment_members users orders now))
      <= length users)%nat.
Proof.
  intros Hdated.
  assert (Hex : forall u, at_risk_by_date orders now u && dormant_by_date orders now u = false).
  { intros u. unfold at_risk_by_date, dormant_by_date.
    destruct (latest_order_date orders u) as [t|]; [|reflexivity].
    destruct (Z.ltb_spec t (now - Segmentation.days 60)),
             (Z.leb_spec (now - Segmentation.days 120) t),
             (Z.ltb_spec t (now - Segmentation.days 120)); simpl; try reflexivity; lia. }
  assert (Hrisk : filter (fun u => is_at_risk orders now u = true) users
                  = filter (fun u => at_risk_by_date orders now u = true) users).
  { apply list_filter_iff. intros u.
    rewrite (proj1 (recency_by_date orders now u Hdated)). reflexivity. }
  assert (Hdorm : filter (fun u => is_dormant orders now u = true) users
                  = filter (fun u => dormant_by_date orders now u = true) users).
  { apply list_filter_iff. intros u.
    rewrite (proj2 (recency_by_date orders now u Hdated)). reflexivity. }
  unfold Segmentation.segment_members. cbv zeta.
  match goal with
  | |- context [foldl ?f ?s0 users] =>
      destruct (tag_users_pushes orders now users s0) as (-> & -> & ->)
  end.
  simpl. rewrite Hrisk, Hdorm. repeat split; auto.
  rewrite !length_map. clear -Hex.
  induction users as [|u users IH]; [simpl; lia|].
  rewrite !filter_cons. specialize (Hex u).
  destruct (at_risk_by_date orders now u), (dormant_by_date orders now u); try discriminate;
    repeat match goal with
           | |- context [decide (?b = true)] => destruct (decide (b = true)); try congruence
           end;
    simpl; lia.
Qed.

Lemma recency_segments_by_user_witness :
  Forall (fun o => is_Some (orderDate o)) Segmentation.ten_customers
  /\ Segmentation.dormant
       (Segmentation.segment_members
          [mkUser "user_a" (JS.Stamp 0) JS.Missing] Segmentation.ten_customers
          (Segmentation.days 200))
     = ["user_a"].
Proof.
  assert (H : Forall (fun o => is_Some (orderDate o)) Segmentation.ten_customers).
  { repeat constructor; eexists; reflexivity. }
  split; [exact H|].
  rewrite (proj1 (proj2 (proj2 (recency_segments_by_user
                                  [mkUser "user_a" (JS.Stamp 0) JS.Missing]
                                  Segmentation.ten_customers (Segmentation.days 200) H)))).
  vm_compute. reflexivity.
Defined.


(** ** The ranking of customers by spend *)



(** ** The historical values of the forecast *)

Lemma historical_values_witness :
  (forall n : nat, 0 <= (fun _ : nat => 1 # 2) n /\ (fun _ : nat => 1 # 2) n < 1)%Q
  /\ length (Forecast.historical (Forecast.generateForecastData (fun _ => 1 # 2))) = 6%nat.
Proof.
  assert (H : (forall n : nat, 0 <= (fun _ : nat => 1 # 2) n
                               /\ (fun _ : nat => 1 # 2) n < 1)%Q).
  { intros n. split; [discriminate|reflexivity]. }
  split; [exact H|].
  exact (proj1 (historical_values (fun _ => 1 # 2) H)).
Defined.

(** ** Sales by hour *)

Lemma getHours_range t : 0 <= Clock.getHours t < 24.
Proof.
  unfold Clock.getHours, Clock.msPerHour, JS.msPerDay.
  pose proof (Z.mod_pos_bound t (24 * 60 * 60 * 1000) ltac:(lia)) as H.
  split; [apply Z.div_pos; lia|].
  apply Z.div_lt_upper_bound; lia.
Qed.

Lemma sumZ_insert {A} (f : A -> Z) (l : list A) (i : nat) (x y : A) :
  l !! i = Some x ->
  sumZ (map f (<[i := y]> l)) = sumZ (map f l) - f x + f y.
Proof.
  revert i. induction l as [|z l IH]; intros [|i] H; try discriminate.
  - injection H as ->. unfold sumZ. simpl. lia.
  - simpl in H. specialize (IH i H). unfold sumZ in *. simpl.
    change (foldr Z.add 0 (map f (<[i:=y]> l)) = foldr Z.add 0 (map f l) - f x + f y) in IH.
    rewrite IH. lia.
Qed.

(** What the loop of [getSalesByHour] does to an array of 24 rows. *)
Lemma add_sales_spec orders : forall hours,
  length hours = 24%nat ->
  match Hourly.add_sales hours orders with
  | Store.Returned hours' =>
      Forall (fun o => is_Some (orderDate o)) orders
      /\ length hours' = 24%nat
      /\ sumZ (map Hourly.hr_orders hours')
         = sumZ (map Hourly.hr_orders hours) + Z.of_nat (length orders)
      /\ sumZ (map Hourly.hr_revenue hours')
         = sumZ (map Hourly.hr_revenue hours) + sumZ (map total_or_0 orders)
      /\ forall (h : nat) r, hours !! h = Some r ->
           hours' !! h
           = Some (Hourly.mkHourRow
                     (Hourly.hr_hour r)
                     (Hourly.hr_orders r + Z.of_nat (length (filter (Hourly.in_hour h) orders)))
                     (Hourly.hr_revenue r
                      + sumZ (map total_or_0 (filter (Hourly.in_hour h) orders))))
  | Store.Thrown e => e = "TypeError" /\ Exists (fun o => orderDate o = None) orders
  end.
Proof.
  induction orders as [|o orders IH]; intros hours Hlen.
  - simpl. split; [constructor|]. split; [exact Hlen|].
    split; [lia|]. split; [unfold sumZ; simpl; lia|].
    intros h [hh ho hr] Hh. rewrite Hh. unfold sumZ. simpl. f_equal. f_equal; lia.
  - simpl. unfold Hourly.add_sale.
    destruct (orderDate o) as [date|] eqn:Ed.
    + pose proof (getHours_range date) as Hr.
      destruct (lookup_lt_is_Some_2 hours (Z.to_nat (Clock.getHours date))) as [r0 Hr0];
        [lia|].
      cbv zeta. rewrite Hr0.
      specialize (IH (<[Z.to_nat (Clock.getHours date) :=
                          Hourly.mkHourRow (Hourly.hr_hour r0) (Hourly.hr_orders r0 + 1)
                            (Hourly.hr_revenue r0 + total_or_0 o)]> hours)).
      rewrite length_insert in IH. specialize (IH Hlen).
      destruct (Hourly.add_sales _ orders) as [hours'|e].
      * destruct IH as (Hv & Hl & Hso & Hsr & Hrows).
        split; [constructor; [rewrite Ed; eauto|exact Hv]|]. split; [exact Hl|].
        rewrite (sumZ_insert _ _ _ _ _ Hr0) in Hso.
        rewrite (sumZ_insert _ _ _ _ _ Hr0) in Hsr.
        split; [rewrite Hso; simpl; lia|].
        split; [rewrite Hsr; unfold sumZ; simpl; lia|].
        intros h r Hh. rewrite filter_cons.
        destruct (decide (Hourly.in_hour h o)) as [Hin|Hin].
        -- destruct Hin as (d & Hd & Hhd). rewrite Ed in Hd. injection Hd as <-.
           subst h. rewrite Hr0 in Hh. injection Hh as <-.
           erewrite Hrows; [|apply list_lookup_insert_eq; apply lookup_lt_Some in Hr0; exact Hr0].
           simpl. unfold sumZ. simpl. f_equal. f_equal; lia.
        -- assert (Hne : Z.to_nat (Clock.getHours date) <> h).
           { intros E. apply Hin. exists date. auto. }
           erewrite Hrows; [reflexivity|].
           rewrite list_lookup_insert_ne by exact Hne. exact Hh.
      * destruct IH as [He Hex]. split; [exact He|]. right. exact Hex.
    + split; [reflexivity|]. left. exact Ed.
Qed.

(** X12.  [getSalesByHour] either throws a [TypeError], which it does
    exactly when some order has no valid date, or returns 24 rows, for the
    hours 0 to 23 in order: row [h] holds the number and the total of the
    orders dated in hour [h], so the rows account for every order once. *)
Theorem getSalesByHour_rows orders :
  match Hourly.getSalesByHour orders with
  | Store.Returned hours =>
      Forall (fun o => is_Some (orderDate o)) orders
      /\ hours
         = map (fun h : nat =>
                  Hourly.mkHourRow (Z.of_nat h)
                    (Z.of_nat (length (filter (Hourly.in_hour h) orders)))
                    (sumZ (map total_or_0 (filter (Hourly.in_hour h) orders))))
               (seq 0 24)
      /\ sumZ (map Hourly.hr_orders hours) = Z.of_nat (length orders)
      /\ sumZ (map Hourly.hr_revenue hours) = sumZ (map total_or_0 orders)
  | Store.Thrown e =>
      e = "TypeError" /\ Exists (fun o => orderDate o = None) orders
  end.
Proof.
  unfold Hourly.getSalesByHour.
  pose proof (add_sales_spec orders Hourly.empty_hours eq_refl) as H.
  destruct (Hourly.add_sales Hourly.empty_hours orders) as [hours|e]; [|exact H].
  destruct H as (Hv & Hl & Hso & Hsr & Hrows).
  split; [exact Hv|]. split; [|split; [rewrite Hso; reflexivity|rewrite Hsr; reflexivity]].
  apply list_eq. intros h.
  destruct (decide (h < 24)%nat) as [Hh|Hh].
  - rewrite (Hrows h (Hourly.mkHourRow (Z.of_nat h) 0 0)).
    + rewrite list_lookup_fmap, lookup_seq_lt by exact Hh. simpl. f_equal; f_equal; lia.
    + unfold Hourly.empty_hours. rewrite list_lookup_fmap, lookup_seq_lt by exact Hh.
      reflexivity.
  - rewrite !lookup_ge_None_2; [reflexivity| |]; rewrite ?length_map, ?length_seq; lia.
Qed.

(** ** Orders grouped by date *)

Lemma sumZ_perm (l l' : list Z) : l ≡ₚ l' -> sumZ l = sumZ l'.
Proof.
  unfold sumZ. induction 1; simpl; lia.
Qed.

Lemma set_add_length s id : (length (Grouping.set_add s id) <= S (length s))%nat.
Proof.
  unfold Grouping.set_add. destruct (decide (id ∈ s)); [lia|].
  rewrite length_app. simpl. lia.
Qed.

Lemma count_order_counted g o :
  0 <= Grouping.g_orders g ->
  Z.of_nat (length (Grouping.g_customers g)) <= Grouping.g_orders g ->
  counted (Grouping.count_order g o).
Proof.
  intros H0 Hc. unfold counted, Grouping.count_order. simpl. split; [lia|].
  destruct (truthy_userId (od_order o)) as [id|]; [|lia].
  pose proof (set_add_length (Grouping.g_customers g) id). lia.
Qed.

Lemma add_to_group_keys groups key o :
  map fst (Grouping.add_to_group groups key o)
  = if decide (key ∈ map fst groups) then map fst groups else map fst groups ++ [key].
Proof.
  induction groups as [|[k g] groups IH]; simpl.
  - destruct (decide (key ∈ [])) as [H|_]; [|reflexivity].
    apply elem_of_nil in H. contradiction.
  - destruct (String.eqb_spec k key) as [->|Hne]; simpl.
    + destruct (decide (key ∈ key :: map fst groups)) as [_|H]; [reflexivity|].
      exfalso. apply H. left.
    + rewrite IH.
      destruct (decide (key ∈ map fst groups)) as [Hin|Hin];
        destruct (decide (key ∈ k :: map fst groups)) as [Hin'|Hin']; try reflexivity.
      * exfalso. apply Hin'. right. exact Hin.
      * exfalso. apply elem_of_cons in Hin' as [E|Hin']; [congruence|contradiction].
Qed.

Lemma add_to_group_nodup groups key o :
  NoDup (map fst groups) -> NoDup (map fst (Grouping.add_to_group groups key o)).
Proof.
  intros H. rewrite add_to_group_keys.
  destruct (decide (key ∈ map fst groups)) as [Hin|Hin]; [exact H|].
  apply NoDup_app. split; [exact H|]. split; [|apply NoDup_singleton].
  intros x Hx Hx'. apply list_elem_of_singleton in Hx'. subst x. contradiction.
Qed.

Lemma add_to_group_counted groups key o :
  Forall (fun kg => counted (snd kg)) groups ->
  Forall (fun kg => counted (snd kg)) (Grouping.add_to_group groups key o).
Proof.
  induction 1 as [|[k g] groups Hg Hgs IH]; simpl.
  - constructor; [|constructor]. apply count_order_counted; simpl; lia.
  - destruct (k =? key)%string.
    + constructor; [|exact Hgs]. destruct Hg as [H1 H2].
      apply count_order_counted; simpl in *; lia.
    + constructor; [exact Hg|exact IH].
Qed.

Lemma add_to_group_sums groups key o :
  sumZ (map (fun kg => Grouping.g_orders (snd kg)) (Grouping.add_to_group groups key o))
  = sumZ (map (fun kg => Grouping.g_orders (snd kg)) groups) + 1
  /\ sumZ (map (fun kg => Grouping.g_revenue (snd kg)) (Grouping.add_to_group groups key o))
     = sumZ (map (fun kg => Grouping.g_revenue (snd kg)) groups) + total_or_0 (od_order o).
Proof.
  unfold sumZ. induction groups as [|[k g] groups IH]; simpl.
  - lia.
  - destruct (k =? key)%string; simpl; lia.
Qed.

Lemma key_of_outcome groupBy date :
  match Grouping.key_of groupBy date with
  | Store.Returned _ => Grouping.by_iso groupBy -> is_Some date
  | Store.Thrown e => e = "RangeError" /\ Grouping.by_iso groupBy /\ date = None
  end.
Proof.
  unfold Grouping.key_of, Grouping.by_iso, Grouping.iso_slice.
  destruct (String.eqb_spec groupBy "hour") as [->|H1].
  { destruct date; [eauto|]. auto. }
  destruct (String.eqb_spec groupBy "day") as [->|H2].
  { destruct date; [eauto|]. auto. }
  destruct (String.eqb_spec groupBy "week") as [->|H3].
  { intros [H | [H | H]]; discriminate. }
  destruct (String.eqb_spec groupBy "month") as [->|H4].
  { destruct date; [eauto|]. auto 6. }
  intros [H | [H | H]]; congruence.
Qed.

Lemma add_orders_spec groupBy orders : forall groups,
  NoDup (map fst groups) ->
  Forall (fun kg => counted (snd kg)) groups ->
  match Grouping.add_orders groupBy groups orders with
  | Store.Returned groups' =>
      (Grouping.by_iso groupBy -> Forall (fun o => is_Some (orderDate (od_order o))) orders)
      /\ NoDup (map fst groups')
      /\ Forall (fun kg => counted (snd kg)) groups'
      /\ sumZ (map (fun kg => Grouping.g_orders (snd kg)) groups')
         = sumZ (map (fun kg => Grouping.g_orders (snd kg)) groups) + Z.of_nat (length orders)
      /\ sumZ (map (fun kg => Grouping.g_revenue (snd kg)) groups')
         = sumZ (map (fun kg => Grouping.g_revenue (snd kg)) groups)
           + sumZ (map (fun o => total_or_0 (od_order o)) orders)
  | Store.Thrown e =>
      e = "RangeError" /\ Grouping.by_iso groupBy
      /\ Exists (fun o => orderDate (od_order o) = None) orders
  end.
Proof.
  induction orders as [|o orders IH]; intros groups Hnd Hc.
  - simpl. split; [intros _; constructor|]. split; [exact Hnd|]. split; [exact Hc|].
    unfold sumZ. simpl. lia.
  - simpl Grouping.add_orders.
    pose proof (key_of_outcome groupBy (orderDate (od_order o))) as Hk.
    destruct (Grouping.key_of groupBy (orderDate (od_order o))) as [key|e].
    + specialize (IH (Grouping.add_to_group groups key o)
                     (add_to_group_nodup groups key o Hnd)
                     (add_to_group_counted groups key o Hc)).
      destruct (Grouping.add_orders groupBy _ orders) as [groups'|e].
      * destruct IH as (Hv & Hnd' & Hc' & Hso & Hsr).
        destruct (add_to_group_sums groups key o) as [Ho Hr].
        split; [intros Hiso; constructor; auto|]. split; [exact Hnd'|].
        split; [exact Hc'|].
        rewrite Hso, Hsr, Ho, Hr. unfold sumZ. simpl. lia.
      * destruct IH as (He & Hiso & Hex). split; [exact He|]. split; [exact Hiso|].
        right. exact Hex.
    + destruct Hk as (He & Hiso & Hd). split; [exact He|]. split; [exact Hiso|].
      left. exact Hd.
Qed.

(** X13.  [groupOrdersByDate] throws a [RangeError] only when the key is
    cut from [toISOString()] (hour, day, month) and some order has no
    valid date.  Otherwise it returns one row per key; the rows account
    for every order and its total once, and each row has at least one
    order, so its average is the quotient of its revenue by its orders
    (never the fallback 0, never NaN) and its unique customers are at
    most its orders. *)
Theorem groupOrdersByDate_accounts localeCompare orders groupBy :
  match Grouping.groupOrdersByDate localeCompare orders groupBy with
  | Store.Returned rows =>
      (Grouping.by_iso groupBy -> Forall (fun o => is_Some (orderDate (od_order o))) orders)
      /\ NoDup (map Grouping.gr_date rows)
      /\ sumZ (map Grouping.gr_orders rows) = Z.of_nat (length orders)
      /\ sumZ (map Grouping.gr_revenue rows)
         = sumZ (map (fun o => total_or_0 (od_order o)) orders)
      /\ Forall (fun r =>
                   1 <= Grouping.gr_orders r
                   /\ Grouping.gr_avgOrderValue r
                      = JS.Num (inject_Z (Grouping.gr_revenue r)
                                / inject_Z (Grouping.gr_orders r))
                   /\ JS.isFinite (Grouping.gr_itemsPerOrder r) = true
                   /\ Z.of_nat (Grouping.gr_uniqueCustomers r) <= Grouping.gr_orders r)
                rows
  | Store.Thrown e =>
      e = "RangeError" /\ Grouping.by_iso groupBy
      /\ Exists (fun o => orderDate (od_order o) = None) orders
  end.
Proof.
  unfold Grouping.groupOrdersByDate.
  pose proof (add_orders_spec groupBy orders [] (NoDup_nil_2) (Forall_nil_2 _)) as H.
  destruct (Grouping.add_orders groupBy [] orders) as [groups|e]; [|exact H].
  destruct H as (Hv & Hnd & Hc & Hso & Hsr).
  set (cmp := fun a b => localeCompare (Grouping.gr_date a) (Grouping.gr_date b)).
  pose proof (js_sort_perm cmp (map Grouping.to_row groups)) as Hp.
  split; [exact Hv|]. split; [|split; [|split]].
  - rewrite Hp, map_map. erewrite map_ext; [exact Hnd|]. intros [k g]. reflexivity.
  - rewrite (sumZ_perm _ _ (Permutation_map Grouping.gr_orders Hp)), map_map.
    erewrite map_ext; [rewrite Hso; unfold sumZ; simpl; lia|]. intros [k g]. reflexivity.
  - rewrite (sumZ_perm _ _ (Permutation_map Grouping.gr_revenue Hp)), map_map.
    erewrite map_ext; [rewrite Hsr; unfold sumZ; simpl; lia|]. intros [k g]. reflexivity.
  - rewrite Hp. apply Forall_fmap. eapply Forall_impl; [exact Hc|].
    intros [k g] [H1 H2]. simpl in H1, H2. unfold compose, Grouping.to_row.
    cbn [Grouping.gr_orders Grouping.gr_revenue Grouping.gr_avgOrderValue
         Grouping.gr_itemsPerOrder Grouping.gr_uniqueCustomers].
    assert (E : (0 <? Grouping.g_orders g) = true) by (apply Z.ltb_lt; lia).
    rewrite E, !js_div_pos by exact H1. auto.
Qed.

(** ** The handler's filter and its helpers *)

Lemma filteredOrders_dated orders start end_ :
  Forall (fun o => is_Some (orderDate (od_order o))) (filteredOrders orders start end_).
Proof.
  unfold filteredOrders. apply Forall_forall. intros o Ho.
  apply list_elem_of_filter in Ho as [Hc _]. apply andb_true_iff in Hc as [Hc _].
  unfold date_ge, JS.ge in Hc. destruct start; [|discriminate].
  destruct (orderDate (od_order o)); [eauto|discriminate].
Qed.

Lemma dated_not_undated {A} (f : A -> option Z) (l : list A) :
  Forall (fun o => is_Some (f o)) l -> ~ Exists (fun o => f o = None) l.
Proof.
  intros Hall Hex. apply Exists_exists in Hex as (o & Ho & Hn).
  rewrite Forall_forall in Hall. specialize (Hall o Ho). rewrite Hn in Hall.
  destruct Hall as [? ?]. discriminate.
Qed.

(** X14.  The orders that the order analytics handler keeps all have a
    valid date, whatever the query parameters are (with a start or an end
    that is not a date it keeps none).  So neither [getSalesByHour] nor
    [groupOrdersByDate] throws on them, for any [groupBy]. *)
Theorem order_analytics_helpers_return localeCompare orders startDate endDate now1 now2
    groupBy :
  let start := analytics_start startDate now1 in
  let end_ := analytics_end endDate now2 in
  let filtered := filteredOrders orders start end_ in
  (forall o, o ∈ filtered <->
     o ∈ orders /\ exists s e t, start = Some s /\ end_ = Some e
                                 /\ orderDate (od_order o) = Some t /\ s <= t <= e)
  /\ (exists hours, Hourly.getSalesByHour (map od_order filtered) = Store.Returned hours)
  /\ (exists rows,
        Grouping.groupOrdersByDate localeCompare filtered groupBy = Store.Returned rows).
Proof.
  intros start end_ filtered.
  pose proof (filteredOrders_dated orders start end_) as Hd. fold filtered in Hd.
  split; [|split].
  - intros o. unfold filtered, filteredOrders. rewrite list_elem_of_filter.
    unfold date_ge, date_le, JS.ge, JS.le.
    destruct start as [s|], end_ as [e|], (orderDate (od_order o)) as [t|]; simpl;
      rewrite ?andb_false_r.
    + rewrite andb_true_iff, Z.leb_le, Z.leb_le. split.
      * intros [H Ho]. split; [exact Ho|]. exists s, e, t. auto.
      * intros (Ho & s' & e' & t' & Es & Ee & Et & H).
        injection Es as <-. injection Ee as <-. injection Et as <-. auto.
    + split; [intros [H _]; discriminate|]. intros (_ & s' & e' & t' & _ & _ & Et & _).
      discriminate.
    + split; [intros [H _]; discriminate|]. intros (_ & s' & e' & t' & _ & Ee & _).
      discriminate.
    + split; [intros [H _]; discriminate|]. intros (_ & s' & e' & t' & _ & Ee & _).
      discriminate.
    + split; [intros [H _]; discriminate|]. intros (_ & s' & e' & t' & Es & _).
      discriminate.
    + split; [intros [H _]; discriminate|]. intros (_ & s' & e' & t' & Es & _).
      discriminate.
    + split; [intros [H _]; discriminate|]. intros (_ & s' & e' & t' & Es & _).
      discriminate.
    + split; [intros [H _]; discriminate|]. intros (_ & s' & e' & t' & Es & _).
      discriminate.
  - unfold Hourly.getSalesByHour.
    pose proof (add_sales_spec (map od_order filtered) Hourly.empty_hours eq_refl) as H.
    destruct (Hourly.add_sales Hourly.empty_hours (map od_order filtered)) as [hours|e];
      [eauto|].
    destruct H as [_ Hex]. exfalso. revert Hex.
    apply dated_not_undated. apply Forall_fmap. exact Hd.
  - unfold Grouping.groupOrdersByDate.
    pose proof (add_orders_spec groupBy filtered [] (NoDup_nil_2) (Forall_nil_2 _)) as H.
    destruct (Grouping.add_orders groupBy [] filtered) as [groups|e]; [eauto|].
    destruct H as (_ & _ & Hex). exfalso. revert Hex.
    apply (dated_not_undated (fun o => orderDate (od_order o))). exact Hd.
Qed.

(** ** Top products *)

Lemma StronglySorted_take {A} (R : A -> A -> Prop) (n : nat) (l : list A) :
  StronglySorted R l -> StronglySorted R (take n l).
Proof.
  intros H. revert n. induction H as [|x l Hs IH Hx]; intros [|n]; simpl;
    try constructor; [apply IH|].
  apply Forall_take. exact Hx.
Qed.

Lemma add_item_keys sales productId item :
  map fst (TopProducts.add_item sales productId item)
  = if decide (productId ∈ map fst sales) then map fst sales
    else map fst sales ++ [productId].
Proof.
  induction sales as [|[k s] sales IH]; simpl.
  - destruct (decide (productId ∈ [])) as [H|_]; [|reflexivity].
    apply elem_of_nil in H. contradiction.
  - destruct (String.eqb_spec k productId) as [->|Hne]; simpl.
    + destruct (decide (productId ∈ productId :: map fst sales)) as [_|H]; [reflexivity|].
      exfalso. apply H. left.
    + rewrite IH.
      destruct (decide (productId ∈ map fst sales)) as [Hin|Hin];
        destruct (decide (productId ∈ k :: map fst sales)) as [Hin'|Hin']; try reflexivity.
      * exfalso. apply Hin'. right. exact Hin.
      * exfalso. apply elem_of_cons in Hin' as [E|Hin']; [congruence|contradiction].
Qed.

Lemma add_item_sums sales productId item :
  sumZ (map (fun e => TopProducts.s_revenue (snd e)) (TopProducts.add_item sales productId item))
  = sumZ (map (fun e => TopProducts.s_revenue (snd e)) sales) + TopProducts.item_revenue item
  /\ sumZ (map (fun e => TopProducts.s_orders (snd e))
               (TopProducts.add_item sales productId item))
     = sumZ (map (fun e => TopProducts.s_orders (snd e)) sales) + 1
  /\ sumZ (map (fun e => TopProducts.s_quantity (snd e))
               (TopProducts.add_item sales productId item))
     = sumZ (map (fun e => TopProducts.s_quantity (snd e)) sales)
       + TopProducts.quantity_or_1 item.
Proof.
  unfold sumZ, TopProducts.item_revenue. induction sales as [|[k s] sales IH]; simpl.
  - lia.
  - destruct (k =? productId)%string; simpl; lia.
Qed.

Lemma add_item_counted sales productId item :
  Forall (fun e => 1 <= TopProducts.s_orders (snd e)) sales ->
  Forall (fun e => 1 <= TopProducts.s_orders (snd e))
         (TopProducts.add_item sales productId item).
Proof.
  induction 1 as [|[k s] sales Hs Hrest IH]; simpl.
  - constructor; [simpl; lia|constructor].
  - destruct (k =? productId)%string.
    + constructor; [simpl in *; lia|exact Hrest].
    + constructor; [exact Hs|exact IH].
Qed.

Lemma productSales_from (items : list line_item) : forall sales,
  NoDup (map fst sales) ->
  Forall (fun e => 1 <= TopProducts.s_orders (snd e)) sales ->
  let sales' :=
    foldl (fun sales item =>
             TopProducts.add_item sales (property_name (li_productId item)) item)
          sales items in
  NoDup (map fst sales')
  /\ Forall (fun e => 1 <= TopProducts.s_orders (snd e)) sales'
  /\ sumZ (map (fun e => TopProducts.s_revenue (snd e)) sales')
     = sumZ (map (fun e => TopProducts.s_revenue (snd e)) sales)
       + sumZ (map TopProducts.item_revenue items)
  /\ sumZ (map (fun e => TopProducts.s_orders (snd e)) sales')
     = sumZ (map (fun e => TopProducts.s_orders (snd e)) sales) + Z.of_nat (length items)
  /\ sumZ (map (fun e => TopProducts.s_quantity (snd e)) sales')
     = sumZ (map (fun e => TopProducts.s_quantity (snd e)) sales)
       + sumZ (map TopProducts.quantity_or_1 items).
Proof.
  induction items as [|item items IH]; intros sales Hnd Hc; cbv zeta.
  - simpl. split; [exact Hnd|]. split; [exact Hc|]. unfold sumZ. simpl. lia.
  - simpl foldl.
    set (key := property_name (li_productId item)).
    assert (Hnd' : NoDup (map fst (TopProducts.add_item sales key item))).
    { rewrite add_item_keys. destruct (decide (key ∈ map fst sales)) as [Hin|Hin];
        [exact Hnd|].
      apply NoDup_app. split; [exact Hnd|]. split; [|apply NoDup_singleton].
      intros x Hx Hx'. apply list_elem_of_singleton in Hx'. subst x. contradiction. }
    destruct (IH _ Hnd' (add_item_counted sales key item Hc)) as (H1 & H2 & H3 & H4 & H5).
    destruct (add_item_sums sales key item) as (S1 & S2 & S3).
    split; [exact H1|]. split; [exact H2|].
    rewrite H3, H4, H5, S1, S2, S3. unfold sumZ. simpl. lia.
Qed.

(** X15.  [getTopProductsFromOrders] returns at most [limit] rows, for
    different products, in order of non-increasing revenue, each standing
    for at least one line item.  When there are no more than [limit]
    products in the orders, the rows account for every line item once: for
    its revenue, its quantity and its count.  (The product identifiers are
    taken not to be names that an object inherits.) *)
Theorem getTopProductsFromOrders_ranked orders products (limit : nat) :
  Forall plain_key
         (map (fun item => property_name (li_productId item)) (TopProducts.all_items orders)) ->
  let rows := TopProducts.getTopProductsFromOrders orders products limit in
  (length rows <= limit)%nat
  /\ NoDup (map TopProducts.tr_productId rows)
  /\ StronglySorted (fun a b => TopProducts.tr_revenue b <= TopProducts.tr_revenue a) rows
  /\ Forall (fun r => 1 <= TopProducts.tr_orders r) rows
  /\ ((length (TopProducts.productSales orders) <= limit)%nat ->
      sumZ (map TopProducts.tr_revenue rows)
      = sumZ (map TopProducts.item_revenue (TopProducts.all_items orders))
      /\ sumZ (map TopProducts.tr_orders rows)
         = Z.of_nat (length (TopProducts.all_items orders))
      /\ sumZ (map TopProducts.tr_quantity rows)
         = sumZ (map TopProducts.quantity_or_1 (TopProducts.all_items orders))).
Proof.
  intros _ rows. subst rows. unfold TopProducts.getTopProductsFromOrders, slice.
  rewrite drop_0, Nat.sub_0_r.
  destruct (productSales_from (TopProducts.all_items orders) [] (NoDup_nil_2)
              (Forall_nil_2 _)) as (H1 & H2 & H3 & H4 & H5).
  cbv zeta in *. fold (TopProducts.productSales orders) in *.
  set (entries := TopProducts.productSales orders) in *.
  set (sorted := js_sort TopProducts.by_revenue (map (TopProducts.to_row products) entries)).
  assert (Hp : sorted ≡ₚ map (TopProducts.to_row products) entries) by apply js_sort_perm.
  assert (Hids : map TopProducts.tr_productId (map (TopProducts.to_row products) entries)
                 = map fst entries).
  { rewrite map_map. apply map_ext. intros [k s]. reflexivity. }
  split; [rewrite length_take; lia|]. split; [|split; [|split]].
  - rewrite fmap_take. eapply sublist_NoDup; [|apply sublist_take].
    rewrite Hp.
    change (NoDup (map TopProducts.tr_productId (map (TopProducts.to_row products) entries))).
    rewrite Hids. exact H1.
  - apply StronglySorted_take. apply (js_sort_descending TopProducts.tr_revenue).
  - apply Forall_take. rewrite Hp. apply Forall_fmap. eapply Forall_impl; [exact H2|].
    intros [k s] Hs. exact Hs.
  - intros Hlen. rewrite take_ge by (rewrite Hp, length_map; exact Hlen).
    rewrite (sumZ_perm _ _ (Permutation_map TopProducts.tr_revenue Hp)),
            (sumZ_perm _ _ (Permutation_map TopProducts.tr_orders Hp)),
            (sumZ_perm _ _ (Permutation_map TopProducts.tr_quantity Hp)), !map_map.
    split; [|split].
    + erewrite map_ext; [rewrite H3; unfold sumZ; simpl; lia|]. intros [k s]. reflexivity.
    + erewrite map_ext; [rewrite H4; unfold sumZ; simpl; lia|]. intros [k s]. reflexivity.
    + erewrite map_ext; [rewrite H5; unfold sumZ; simpl; lia|]. intros [k s]. reflexivity.
Qed.

Lemma getTopProductsFromOrders_ranked_witness :
  Forall plain_key
         (map (fun item => property_name (li_productId item))
              (TopProducts.all_items TopProducts.two_lines))
  /\ map TopProducts.tr_revenue
         (TopProducts.getTopProductsFromOrders TopProducts.two_lines [] 10) = [10; 7]
  /\ StronglySorted (fun a b => TopProducts.tr_revenue b <= TopProducts.tr_revenue a)
                    (TopProducts.getTopProductsFromOrders TopProducts.two_lines [] 10).
Proof.
  assert (H : Forall plain_key
                (map (fun item => property_name (li_productId item))
                     (TopProducts.all_items TopProducts.two_lines))).
  { apply (bool_decide_unpack _). vm_compute. reflexivity. }
  split; [exact H|]. split; [vm_compute; reflexivity|].
  exact (proj1 (proj2 (proj2 (getTopProductsFromOrders_ranked
                                TopProducts.two_lines [] 10 H)))).
Defined.

(** ** Pagination *)

Lemma js_slice_window {A} (start end_ : Z) (arr : list A) :
  0 <= start <= end_ ->
  Pagination.js_slice start end_ arr
  = take (Z.to_nat (end_ - start)) (drop (Z.to_nat start) arr).
Proof.
  intros H. unfold Pagination.js_slice. cbv zeta.
  destruct (Z.ltb_spec start 0) as [?|_]; [lia|].
  destruct (Z.ltb_spec end_ 0) as [?|_]; [lia|].
  destruct (Z_le_gt_dec (Z.of_nat (length arr)) start) as [Hs|Hs].
  - rewrite !drop_ge by lia. rewrite !take_nil. reflexivity.
  - rewrite (Z.min_l start) by lia.
    destruct (Z_le_gt_dec end_ (Z.of_nat (length arr))) as [He|He].
    + rewrite Z.min_l by lia. reflexivity.
    + rewrite Z.min_r by lia.
      rewrite !take_ge; [reflexivity| |]; rewrite length_drop; lia.
Qed.

Lemma Qceiling_quotient (a b : Z) :
  1 <= b ->
  (Qceiling (inject_Z a / inject_Z b) - 1) * b < a <= Qceiling (inject_Z a / inject_Z b) * b.
Proof.
  intros Hb. unfold Qceiling, Qfloor, Qdiv, Qmult, Qinv, Qopp, inject_Z. simpl.
  destruct b as [|b|b]; try lia. simpl.
  rewrite ?Z.mul_1_r, ?Pos.mul_1_l.
  pose proof (Z.div_mod (- a) (Z.pos b) ltac:(lia)) as Hd.
  pose proof (Z.mod_pos_bound (- a) (Z.pos b) ltac:(lia)) as Hm.
  generalize dependent (- a / Z.pos b). generalize dependent (- a mod Z.pos b).
  intros r Hm q Hd.
  nia.
Qed.

Lemma pages_number {A} (items : list A) (limitNum : Z) :
  1 <= limitNum ->
  exists P : Z,
    Pagination.pages items limitNum = JS.Num (inject_Z P)
    /\ (P - 1) * limitNum < Z.of_nat (length items) <= P * limitNum.
Proof.
  intros Hl. unfold Pagination.pages. rewrite js_div_pos by exact Hl. simpl.
  eexists. split; [reflexivity|]. apply Qceiling_quotient. exact Hl.
Qed.

(** X16.  For a page number and a page size that are at least 1, the
    page holds the [limitNum] items that follow the first
    [(pageNum - 1) * limitNum] ones (fewer at the end of the list);
    [pages] is the least number of pages of that size that hold every
    item; there is a next page exactly when [pageNum < pages], a previous
    one exactly when [pageNum > 1], and the page is empty exactly when
    [pageNum > pages]. *)
Theorem paginate_page {A} (items : list A) (pageNum limitNum : Z) :
  1 <= pageNum -> 1 <= limitNum ->
  let data := fst (Pagination.paginate items pageNum limitNum) in
  let pg := snd (Pagination.paginate items pageNum limitNum) in
  data = take (Z.to_nat limitNum) (drop (Z.to_nat ((pageNum - 1) * limitNum)) items)
  /\ (length data <= Z.to_nat limitNum)%nat
  /\ exists P : Z,
       Pagination.pg_pages pg = JS.Num (inject_Z P)
       /\ (P - 1) * limitNum < Z.of_nat (length items) <= P * limitNum
       /\ (Pagination.pg_hasNext pg = true <-> pageNum < P)
       /\ (Pagination.pg_hasPrev pg = true <-> 1 < pageNum)
       /\ (data = [] <-> P < pageNum).
Proof.
  intros Hp Hl data pg.
  assert (Hdata : data = take (Z.to_nat limitNum)
                              (drop (Z.to_nat ((pageNum - 1) * limitNum)) items)).
  { unfold data, Pagination.paginate. cbv zeta. cbn [fst].
    rewrite js_slice_window by nia. f_equal. f_equal. lia. }
  split; [exact Hdata|]. split; [rewrite Hdata, length_take; lia|].
  destruct (pages_number items limitNum Hl) as (P & HP & Hlo & Hhi).
  exists P. split; [exact HP|]. split; [lia|].
  unfold pg, Pagination.paginate. cbv zeta. cbn [snd Pagination.pg_hasNext Pagination.pg_hasPrev].
  rewrite !Z.ltb_lt. split; [|split].
  - split; intros H; nia.
  - split; intros H; nia.
  - rewrite Hdata. split.
    + intros Hnil. apply (f_equal length) in Hnil.
      rewrite length_take, length_drop in Hnil. simpl in Hnil. nia.
    + intros H. rewrite drop_ge; [apply take_nil|]. nia.
Qed.

Lemma paginate_page_witness :
  1 <= 2 /\ 1 <= 4
  /\ fst (Pagination.paginate (seq 0 10) 2 4) = [4; 5; 6; 7]%nat.
Proof.
  split; [lia|]. split; [lia|].
  rewrite (proj1 (paginate_page (seq 0 10) 2 4 ltac:(lia) ltac:(lia))).
  reflexivity.
Defined.

Lemma chunks_concat {A} (lim : nat) (n : nat) : forall (items : list A) (skip : nat),
  (1 <= lim)%nat ->
  (length items <= skip * lim + n * lim)%nat ->
  concat (map (fun p => take lim (drop (p * lim) items)) (seq skip n))
  = drop (skip * lim) items.
Proof.
  induction n as [|n IH]; intros items skip Hlim Hlen.
  - simpl. rewrite drop_ge by lia. reflexivity.
  - simpl. rewrite IH by (simpl; lia).
    rewrite <- (take_drop lim (drop (skip * lim) items)) at 2.
    rewrite drop_drop. f_equal. f_equal. lia.
Qed.

(** X17.  Read one after the other, the pages 1 to [pages] hold every
    item of the listing once, in the order of the listing. *)
Theorem paginate_covers {A} (items : list A) (limitNum : Z) (P : Z) :
  1 <= limitNum ->
  Pagination.pages items limitNum = JS.Num (inject_Z P) ->
  concat (map (fun p : nat => fst (Pagination.paginate items (Z.of_nat p) limitNum))
              (seq 1 (Z.to_nat P)))
  = items.
Proof.
  intros Hl HP.
  destruct (pages_number items limitNum Hl) as (P' & HP' & Hlo & Hhi).
  rewrite HP in HP'. injection HP' as <-.
  transitivity (concat (map (fun p => take (Z.to_nat limitNum)
                                           (drop (p * Z.to_nat limitNum) items))
                            (seq 0 (Z.to_nat P)))).
  - f_equal. rewrite <- seq_shift, map_map. apply map_ext_in. intros p Hp.
    unfold Pagination.paginate. cbv zeta. cbn [fst].
    rewrite js_slice_window by nia. f_equal; [lia|]. f_equal. nia.
  - rewrite chunks_concat; [reflexivity|lia|]. simpl. nia.
Qed.

Lemma paginate_covers_witness :
  1 <= 4 /\ Pagination.pages (seq 0 10) 4 = JS.Num (inject_Z 3)
  /\ concat (map (fun p : nat => fst (Pagination.paginate (seq 0 10) (Z.of_nat p) 4))
                 (seq 1 (Z.to_nat 3)))
     = seq 0 10.
Proof.
  assert (H : Pagination.pages (seq 0 10) 4 = JS.Num (inject_Z 3))
    by (vm_compute; reflexivity).
  split; [lia|]. split; [exact H|].
  exact (paginate_covers (seq 0 10) 4 3 ltac:(lia) H).
Defined.

(** ** Slugs *)

Lemma lower_fixes_slug_chars c :
  Slug.is_alnum c = true \/ c = Slug.dash -> Slug.lower c = c.
Proof.
  destruct c as [[] [] [] [] [] [] [] []]; vm_compute; intuition congruence.
Qed.

Lemma dash_not_alnum : Slug.is_alnum Slug.dash = false.
Proof. reflexivity. Qed.

Lemma replace_runs_shape s : forall in_run,
  Forall (fun c => Slug.is_alnum c = true \/ c = Slug.dash) (Slug.replace_runs in_run s)
  /\ Slug.no_adjacent_dashes (Slug.replace_runs in_run s)
  /\ (in_run = true -> head (Slug.replace_runs in_run s) <> Some Slug.dash).
Proof.
  induction s as [|c s IH]; intros in_run.
  - simpl. split; [constructor|]. split; [exact I|]. intros _. discriminate.
  - simpl. destruct (Slug.is_alnum c) eqn:Ec.
    + destruct (IH false) as (H1 & H2 & _).
      split; [constructor; auto|]. split.
      * simpl. split; [|exact H2].
        destruct (Slug.replace_runs false s); [exact I|].
        intros [-> _]. rewrite dash_not_alnum in Ec. discriminate.
      * intros _. simpl. intros E. injection E as ->. rewrite dash_not_alnum in Ec. discriminate.
    + destruct (IH true) as (H1 & H2 & H3). destruct in_run.
      * auto.
      * split; [constructor; auto|]. split; [|intros; discriminate].
        simpl. split; [|exact H2].
        destruct (Slug.replace_runs true s) as [|d r] eqn:Er; [exact I|].
        intros [_ ->]. apply H3; reflexivity.
Qed.

Lemma no_adjacent_dashes_tail c s :
  Slug.no_adjacent_dashes (c :: s) -> Slug.no_adjacent_dashes s.
Proof. simpl. tauto. Qed.

Lemma strip_leading_shape s :
  Forall (fun c => Slug.is_alnum c = true \/ c = Slug.dash) s ->
  Slug.no_adjacent_dashes s ->
  Forall (fun c => Slug.is_alnum c = true \/ c = Slug.dash) (Slug.strip_leading s)
  /\ Slug.no_adjacent_dashes (Slug.strip_leading s)
  /\ head (Slug.strip_leading s) <> Some Slug.dash.
Proof.
  induction s as [|c s IH]; intros Hall Hadj.
  - simpl. split; [constructor|]. split; [exact I|]. discriminate.
  - simpl. destruct (Ascii.eqb_spec c Slug.dash) as [->|Hne].
    + apply IH; [inversion Hall; assumption|]. eapply no_adjacent_dashes_tail, Hadj.
    + split; [exact Hall|]. split; [exact Hadj|]. simpl. congruence.
Qed.

Lemma strip_trailing_nil s :
  Slug.strip_trailing s = [] -> Forall (fun c => c = Slug.dash) s.
Proof.
  induction s as [|c s IH]; intros H; [constructor|].
  simpl in H. destruct (Slug.strip_trailing s) as [|d r]; [|discriminate].
  destruct (Ascii.eqb_spec c Slug.dash) as [->|Hne]; [|discriminate].
  constructor; auto.
Qed.

Lemma strip_trailing_head s :
  head s <> Some Slug.dash -> head (Slug.strip_trailing s) = head s.
Proof.
  destruct s as [|c s]; [reflexivity|]. simpl. intros Hc.
  destruct (Slug.strip_trailing s); [|reflexivity].
  destruct (Ascii.eqb_spec c Slug.dash) as [->|Hne]; [congruence|reflexivity].
Qed.

Lemma strip_trailing_shape s :
  Forall (fun c => Slug.is_alnum c = true \/ c = Slug.dash) s ->
  Slug.no_adjacent_dashes s ->
  Forall (fun c => Slug.is_alnum c = true \/ c = Slug.dash) (Slug.strip_trailing s)
  /\ Slug.no_adjacent_dashes (Slug.strip_trailing s)
  /\ last (Slug.strip_trailing s) <> Some Slug.dash.
Proof.
  induction s as [|c s IH]; intros Hall Hadj.
  - simpl. split; [constructor|]. split; [exact I|]. discriminate.
  - inversion Hall as [|? ? Hc Hs]; subst.
    destruct (IH Hs (no_adjacent_dashes_tail _ _ Hadj)) as (H1 & H2 & H3).
    simpl. destruct (Slug.strip_trailing s) as [|d r] eqn:Er.
    + destruct (Ascii.eqb_spec c Slug.dash) as [->|Hne].
      * split; [constructor|]. split; [exact I|]. discriminate.
      * split; [constructor; [exact Hc|constructor]|]. split; [simpl; tauto|].
        simpl. congruence.
    + split; [constructor; assumption|]. split.
      * simpl. split; [|exact H2].
        destruct s as [|d' s']; [discriminate|].
        assert (Hd : d = d').
        { simpl in Er. destruct (Slug.strip_trailing s'); [|congruence].
          destruct (Ascii.eqb d' Slug.dash); congruence. }
        subst d'. simpl in Hadj. tauto.
      * rewrite last_cons. destruct (last (d :: r)) eqn:El; [exact H3|].
        apply last_None in El. discriminate.
Qed.

Lemma slug_of_shape name :
  Forall (fun c => Slug.is_alnum c = true \/ c = Slug.dash) (Slug.slug_of name)
  /\ Slug.no_adjacent_dashes (Slug.slug_of name)
  /\ head (Slug.slug_of name) <> Some Slug.dash
  /\ last (Slug.slug_of name) <> Some Slug.dash.
Proof.
  unfold Slug.slug_of.
  destruct (replace_runs_shape (map Slug.lower name) false) as (H1 & H2 & _).
  destruct (strip_leading_shape _ H1 H2) as (H3 & H4 & H5).
  destruct (strip_trailing_shape _ H3 H4) as (H6 & H7 & H8).
  split; [exact H6|]. split; [exact H7|]. split; [|exact H8].
  rewrite strip_trailing_head; exact H5.
Qed.

Lemma replace_runs_fixes s : forall in_run,
  Forall (fun c => Slug.is_alnum c = true \/ c = Slug.dash) s ->
  Slug.no_adjacent_dashes s ->
  (in_run = true -> head s <> Some Slug.dash) ->
  Slug.replace_runs in_run s = s.
Proof.
  induction s as [|c s IH]; intros in_run Hall Hadj Hhead; [reflexivity|].
  inversion Hall as [|? ? Hc Hs]; subst. simpl.
  destruct (Slug.is_alnum c) eqn:Ec.
  - f_equal. apply IH; [exact Hs|eapply no_adjacent_dashes_tail, Hadj|discriminate].
  - destruct Hc as [Hc | ->]; [discriminate|].
    destruct in_run; [exfalso; apply Hhead; reflexivity|].
    f_equal. apply IH; [exact Hs|eapply no_adjacent_dashes_tail, Hadj|].
    intros _. destruct s as [|d s']; [discriminate|]. simpl in *. intros E. injection E as ->. tauto.
Qed.

Lemma strip_leading_fixes s : head s <> Some Slug.dash -> Slug.strip_leading s = s.
Proof.
  destruct s as [|c s]; [reflexivity|]. simpl. intros H.
  destruct (Ascii.eqb_spec c Slug.dash) as [->|Hne]; [congruence|reflexivity].
Qed.

Lemma strip_trailing_fixes s : last s <> Some Slug.dash -> Slug.strip_trailing s = s.
Proof.
  induction s as [|c s IH]; [reflexivity|]. intros H. simpl.
  destruct s as [|d s'].
  - simpl. destruct (Ascii.eqb_spec c Slug.dash) as [->|Hne]; [|reflexivity].
    exfalso. apply H. reflexivity.
  - rewrite IH by (rewrite last_cons in H; destruct (last (d :: s')); congruence).
    reflexivity.
Qed.

(** X18.  A slug is made of the characters a-z, 0-9 and the dash; it
    neither starts nor ends with a dash, and no dash follows a dash. *)
Theorem generateSlug_shape (name : string) :
  let slug := list_ascii_of_string (Slug.generateSlug name) in
  Forall (fun c => Slug.is_alnum c = true \/ c = Slug.dash) slug
  /\ head slug <> Some Slug.dash
  /\ last slug <> Some Slug.dash
  /\ Slug.no_adjacent_dashes slug.
Proof.
  unfold Slug.generateSlug. cbv zeta. rewrite list_ascii_of_string_of_list_ascii.
  destruct (slug_of_shape (list_ascii_of_string name)) as (H1 & H2 & H3 & H4). auto.
Qed.

(** X19.  The slug of a slug is that slug. *)
Theorem generateSlug_idempotent (name : string) :
  Slug.generateSlug (Slug.generateSlug name) = Slug.generateSlug name.
Proof.
  unfold Slug.generateSlug. rewrite list_ascii_of_string_of_list_ascii. f_equal.
  destruct (slug_of_shape (list_ascii_of_string name)) as (H1 & H2 & H3 & H4).
  set (s := Slug.slug_of (list_ascii_of_string name)) in *.
  unfold Slug.slug_of at 1.
  assert (Hl : map Slug.lower s = s).
  { clear -H1. induction H1 as [|c s Hc Hs IH]; [reflexivity|].
    simpl. rewrite (lower_fixes_slug_chars c Hc), IH. reflexivity. }
  rewrite Hl, replace_runs_fixes, strip_leading_fixes, strip_trailing_fixes;
    auto; discriminate.
Qed.

(** ** The admin middleware *)

(** X20.  [verifyAdmin] hands a request on only with a user that is a
    record of the users file with the role admin, found under the
    identifier of a token that verifies; the token is the header without
    its first ["Bearer "].  Every other request is answered with 401 or
    403. *)
Theorem verifyAdmin_passes_admins_only jwt_verify (w : Store.world Admin.account)
    authorization :
  match Admin.verifyAdmin jwt_verify w authorization with
  | Admin.Next user =>
      Admin.ac_role user = Some "admin"
      /\ exists authHeader users,
           authorization = Some authHeader
           /\ fst (Store.readData w "users") = Store.Returned users
           /\ user ∈ users
           /\ jwt_verify (Admin.replace_first "Bearer " authHeader)
              = Store.Returned (Admin.ac_id user)
  | Admin.Reject status _ => status = 401 \/ status = 403
  end.
Proof.
  unfold Admin.verifyAdmin.
  destruct authorization as [authHeader|]; [|auto].
  destruct (authHeader =? "")%string; [auto|]. cbv zeta.
  destruct (Admin.replace_first "Bearer " authHeader =? "")%string; [auto|].
  destruct (jwt_verify (Admin.replace_first "Bearer " authHeader)) as [userId|e] eqn:Ev;
    [|auto].
  destruct (fst (Store.readData w "users")) as [users|e] eqn:Er; [|auto].
  destruct (List.find _ users) as [user|] eqn:Ef; [|auto].
  destruct (bool_decide (Admin.ac_role user = Some "admin")) eqn:Ea; [|auto].
  apply bool_decide_eq_true in Ea. split; [exact Ea|].
  apply List.find_some in Ef as [Hin Hid]. apply bool_decide_eq_true in Hid.
  exists authHeader, users. split; [reflexivity|]. split; [reflexivity|].
  split; [apply list_elem_of_In; exact Hin|]. rewrite Hid. exact Ev.
Qed.

(** X21.  While the users file cannot be read, [verifyAdmin] hands no
    request on: [readData] yields an empty collection, so even a valid
    token of an administrator is answered with a status. *)
Theorem verifyAdmin_unreadable_store jwt_verify (w : Store.world Admin.account)
    authorization e :
  Store.fs_read w (Store.DATA_FILES "users") = Store.Thrown e ->
  exists status error,
    Admin.verifyAdmin jwt_verify w authorization = Admin.Reject status error
    /\ (status = 401 \/ status = 403).
Proof.
  intros Hread. unfold Admin.verifyAdmin.
  destruct authorization as [authHeader|]; [|eauto].
  destruct (authHeader =? "")%string; [eauto|]. cbv zeta.
  destruct (Admin.replace_first "Bearer " authHeader =? "")%string; [eauto|].
  destruct (jwt_verify (Admin.replace_first "Bearer " authHeader)) as [userId|e'];
    [|eauto].
  unfold Store.readData. cbv zeta. rewrite Hread. simpl. eauto.
Qed.

Lemma verifyAdmin_unreadable_store_witness :
  exists status error,
    Admin.verifyAdmin (fun _ => Store.Returned (Some "user_a"))
      (Store.mkWorld Admin.account (fun _ => Store.Thrown "ENOENT")
                                   (fun _ => Store.Returned []))
      (Some "Bearer abc")
    = Admin.Reject status error
    /\ (status = 401 \/ status = 403).
Proof.
  apply (verifyAdmin_unreadable_store
           (fun _ => Store.Returned (Some "user_a"))
           (Store.mkWorld Admin.account (fun _ => Store.Thrown "ENOENT")
                                        (fun _ => Store.Returned []))
           (Some "Bearer abc") "ENOENT").
  reflexivity.
Defined.

(** ** The KPIs together *)

Lemma filter_length_impl {A} (P Q : A -> Prop) `{!forall x, Decision (P x)}
    `{!forall x, Decision (Q x)} (l : list A) :
  (forall x, P x -> Q x) -> (length (filter P l) <= length (filter Q l))%nat.
Proof.
  intros HPQ. induction l as [|x l IH]; [reflexivity|].
  rewrite !filter_cons.
  destruct (decide (P x)) as [HP|HP]; destruct (decide (Q x)) as [HQ|HQ]; simpl; try lia.
  exfalso. apply HQ, HPQ, HP.
Qed.

(** X22.  The KPIs of the analytics dashboard fit together.  With [n] the
    number of delivered orders dated in the range: [n] is at most
    [totalOrders]; the average order value is 0 when [n] is 0 and
    otherwise [totalRevenue / n]; the customer counts are at most the
    number of users. *)
Theorem dashboard_kpis_consistent orders users start end_ :
  let k := dashboard_kpis orders users start end_ in
  let n := length (delivered_orders orders start end_) in
  (n <= totalOrders k)%nat
  /\ (totalOrders k <= length orders)%nat
  /\ avgOrderValue k
     = (if (n =? 0)%nat then JS.Num 0
        else JS.Num (inject_Z (totalRevenue k) / inject_Z (Z.of_nat n)))
  /\ (n = 0%nat -> totalRevenue k = 0)
  /\ (activeCustomers k <= length users)%nat
  /\ (newCustomers k <= length users)%nat.
Proof.
  cbv zeta. unfold dashboard_kpis, delivered_orders. simpl.
  split; [|split; [|split; [|split; [|split]]]].
  - unfold calculateTotalOrders. apply filter_length_impl.
    intros o Ho. unfold delivered_in in Ho. apply andb_true_iff in Ho as [Ho _]. exact Ho.
  - unfold calculateTotalOrders. apply length_filter.
  - unfold calculateAverageOrderValue, calculateTotalRevenue. cbv zeta.
    destruct (filter _ orders) as [|o l]; [reflexivity|].
    simpl length. cbn [Nat.eqb]. apply js_div_pos. lia.
  - intros Hn. unfold calculateTotalRevenue.
    apply nil_length_inv in Hn. rewrite Hn. reflexivity.
  - unfold calculateActiveCustomers. apply length_filter.
  - unfold calculateNewCustomers. apply length_filter.
Qed.

(** ** The series of the trend, exactly *)

Lemma orderDate_counted_as_order o : orderDate (counted_as_order o) = orderDate o.
Proof. reflexivity. Qed.

Lemma orderDate_joined_as_order u :
  orderDate (joined_as_order u) = JS.newDate (u_createdAt u).
Proof. unfold orderDate, joined_as_order. simpl. destruct (u_createdAt u); reflexivity. Qed.

Lemma count_as_revenue {A} (as_order : A -> order) (date : A -> option Z) (l : list A)
    (a b : Z) :
  (forall x, orderDate (as_order x) = date x) ->
  (forall x, o_status (as_order x) = "delivered") ->
  (forall x, total_or_0 (as_order x) = 1) ->
  Z.of_nat (length (filter (fun x => JS.ge (date x) a && JS.le (date x) b = true) l))
  = calculateTotalRevenue (map as_order l) a b.
Proof.
  intros Hd Hs Ht. rewrite revenue_as_shares_of.
  induction l as [|x l IH]; [reflexivity|].
  rewrite filter_cons. unfold sumZ in *. simpl.
  unfold revenue_share at 1, delivered_in. rewrite Hd, Hs, Ht. simpl.
  rewrite andb_true_r.
  destruct (decide (JS.ge (date x) a && JS.le (date x) b = true)) as [H|H].
  - rewrite H. simpl length. rewrite <- IH. lia.
  - apply not_true_is_false in H. rewrite H, <- IH. lia.
Qed.

Lemma orders_as_revenue orders a b :
  Z.of_nat (calculateTotalOrders orders a b)
  = calculateTotalRevenue (map counted_as_order orders) a b.
Proof.
  unfold calculateTotalOrders.
  apply (count_as_revenue counted_as_order orderDate); reflexivity.
Qed.

Lemma customers_as_revenue users a b :
  Z.of_nat (calculateNewCustomers users a b)
  = calculateTotalRevenue (map joined_as_order users) a b.
Proof.
  unfold calculateNewCustomers.
  apply (count_as_revenue joined_as_order (fun u => JS.newDate (u_createdAt u)));
    [apply orderDate_joined_as_order|reflexivity|reflexivity].
Qed.

Lemma series_telescope (l : list order) period start :
  sumZ (map (fun i : nat =>
               calculateTotalRevenue l (pointAt period start (Z.of_nat i))
                                       (pointAt period start (Z.of_nat i + 1)))
            (loop_indices (dataPoints period)))
  = calculateTotalRevenue l start (pointAt period start (Z.of_nat (dataPoints period)))
    + sumZ (map (fun i : nat =>
                   calculateTotalRevenue l (pointAt period start (Z.of_nat i))
                                           (pointAt period start (Z.of_nat i)))
                (seq 1 (dataPoints period - 1))).
Proof.
  unfold loop_indices. rewrite map_rev, sumZ_rev.
  destruct (dataPoints_pos period) as [n Hn]. rewrite Hn.
  replace (S n - 1)%nat with n by lia.
  pose (bnd := fun i : nat => pointAt period start (Z.of_nat i)).
  assert (Hstep : forall i : nat, Z.of_nat i + 1 = Z.of_nat (S i)) by (intros; lia).
  erewrite map_ext; [|intros i; rewrite Hstep; reflexivity].
  change (sumZ (map (fun i => calculateTotalRevenue l (bnd i) (bnd (S i))) (seq 0 (S n)))
          = calculateTotalRevenue l start (bnd (S n))
            + sumZ (map (fun i => calculateTotalRevenue l (bnd i) (bnd i)) (seq 1 n))).
  rewrite buckets_telescope.
  - unfold bnd. simpl Z.of_nat at 1. rewrite pointAt_0. reflexivity.
  - intros i. unfold bnd. apply pointAt_mono. lia.
Qed.

(** X23.  The per-bucket revenues of [generateTrendData] add up to the
    revenue of the whole span of the buckets plus, for every boundary
    between two buckets, the revenue of the delivered orders dated exactly
    on it: such an order is counted in both buckets. *)
Theorem trend_revenue_exact orders products users period start end_ :
  sumZ (revenueData (generateTrendData orders products users period start end_))
  = calculateTotalRevenue orders start
      (pointAt period start (Z.of_nat (dataPoints period)))
    + sumZ (map (fun i : nat =>
                   calculateTotalRevenue orders (pointAt period start (Z.of_nat i))
                                                (pointAt period start (Z.of_nat i)))
                (seq 1 (dataPoints period - 1))).
Proof. rewrite revenueData_generateTrendData. apply series_telescope. Qed.

(** X24.  The per-bucket numbers of orders, and of new customers, of
    [generateTrendData] add up to the number over the whole span of the
    buckets plus the number dated exactly on a boundary between two
    buckets.  So no order and no customer of the span is left out, and one
    dated on a boundary is counted twice. *)
Theorem trend_counts_exact orders products users period start end_ :
  let t := generateTrendData orders products users period start end_ in
  let bnd (i : nat) := pointAt period start (Z.of_nat i) in
  sumZ (dataset_data "Orders" t)
  = Z.of_nat (calculateTotalOrders orders start (bnd (dataPoints period)))
    + sumZ (map (fun i => Z.of_nat (calculateTotalOrders orders (bnd i) (bnd i)))
                (seq 1 (dataPoints period - 1)))
  /\ sumZ (dataset_data "New Customers" t)
     = Z.of_nat (calculateNewCustomers users start (bnd (dataPoints period)))
       + sumZ (map (fun i => Z.of_nat (calculateNewCustomers users (bnd i) (bnd i)))
                   (seq 1 (dataPoints period - 1))).
Proof.
  cbv zeta. split.
  - change (dataset_data "Orders" (generateTrendData orders products users period start end_))
      with (map (fun i : nat =>
                   Z.of_nat (calculateTotalOrders orders
                               (pointAt period start (Z.of_nat i))
                               (pointAt period start (Z.of_nat i + 1))))
                (loop_indices (dataPoints period))).
    erewrite map_ext; [|intros i; apply orders_as_revenue].
    rewrite series_telescope, <- orders_as_revenue. f_equal. f_equal.
    apply map_ext. intros i. symmetry. apply orders_as_revenue.
  - change (dataset_data "New Customers"
              (generateTrendData orders products users period start end_))
      with (map (fun i : nat =>
                   Z.of_nat (calculateNewCustomers users
                               (pointAt period start (Z.of_nat i))
                               (pointAt period start (Z.of_nat i + 1))))
                (loop_indices (dataPoints period))).
    erewrite map_ext; [|intros i; apply customers_as_revenue].
    rewrite series_telescope, <- customers_as_revenue. f_equal. f_equal.
    apply map_ext. intros i. symmetry. apply customers_as_revenue.
Qed.

(** ** Parts of the total revenue *)

Lemma foldl_total_sumZ (l : list order) :
  foldl (fun sum o => sum + total_or_0 o) 0 l = sumZ (map total_or_0 l).
Proof.
  unfold sumZ. induction l as [|o l IH]; [reflexivity|].
  simpl. rewrite foldl_add_from, IH. lia.
Qed.

Lemma sumZ_filter_le {A} (f : A -> Z) (P Q : A -> Prop)
    `{!forall x, Decision (P x)} `{!forall x, Decision (Q x)} (l : list A) :
  Forall (fun x => 0 <= f x) l ->
  (forall x, P x -> Q x) ->
  sumZ (map f (filter P l)) <= sumZ (map f (filter Q l)).
Proof.
  intros Hpos HPQ. induction Hpos as [|x l Hx Hl IH]; [reflexivity|].
  rewrite !filter_cons.
  destruct (decide (P x)) as [HP|HP]; destruct (decide (Q x)) as [HQ|HQ];
    unfold sumZ in *; simpl; try lia.
  exfalso. apply HQ, HPQ, HP.
Qed.

(** X25.  When no order has a negative total, the parts never exceed the
    whole on the admin dashboard: the revenue of the month and the sum of
    the revenue trend of the last 30 days are both at most the total
    revenue.  Low-stock and out-of-stock products are different products,
    so the two counts together are at most the number of products. *)
Theorem admin_stats_parts orders products today now :
  Forall (fun o => 0 <= total_or_0 o) orders ->
  AdminStats.monthRevenue orders today <= DashboardStats.totalRevenue orders
  /\ sumZ (map Daily.rp_revenue (Daily.getRevenueTrend orders 30 now))
     <= DashboardStats.totalRevenue orders
  /\ (AdminStats.lowStockProducts products + AdminStats.outOfStockProducts products
      <= length products)%nat.
Proof.
  intros Hpos. unfold DashboardStats.totalRevenue. split; [|split].
  - unfold AdminStats.monthRevenue. rewrite !foldl_total_sumZ.
    apply sumZ_filter_le; [exact Hpos|].
    intros o Ho. unfold AdminStats.delivered_since in Ho.
    apply andb_true_iff in Ho as [_ Ho]. apply String.eqb_eq in Ho. exact Ho.
  - rewrite getRevenueTrend_total, !foldl_total_sumZ.
    apply sumZ_filter_le; [exact Hpos|].
    intros o Ho. unfold Daily.delivered_on in Ho.
    apply andb_true_iff in Ho as [_ Ho]. apply String.eqb_eq in Ho. exact Ho.
  - unfold AdminStats.lowStockProducts, AdminStats.outOfStockProducts.
    induction products as [|p products IH]; [reflexivity|].
    rewrite !filter_cons.
    destruct (decide ((p_stock p <? 10) && (0 <? p_stock p) = true)) as [H1|H1];
      destruct (decide ((p_stock p <=? 0) = true)) as [H2|H2]; simpl; lia.
Qed.

Lemma admin_stats_parts_witness :
  Forall (fun o => 0 <= total_or_0 o) Segmentation.ten_customers
  /\ AdminStats.monthRevenue Segmentation.ten_customers 0
     <= DashboardStats.totalRevenue Segmentation.ten_customers.
Proof.
  assert (H : Forall (fun o => 0 <= total_or_0 o) Segmentation.ten_customers).
  { repeat constructor; vm_compute; discriminate. }
  split; [exact H|].
  exact (proj1 (admin_stats_parts Segmentation.ten_customers [] 0 0 H)).
Defined.

(** ** Real-time statistics *)

Lemma Qfloor_nonneg (q : Q) : (0 <= q)%Q -> 0 <= Qfloor q.
Proof. intros H. change 0 with (Qfloor 0). apply Qfloor_resp_le. exact H. Qed.

Lemma toFixed_1_tenths (q : Q) :
  (-100 <= q)%Q -> exists n, JS.toFixed 1 (JS.Num q) = JS.Fixed n /\ -1000 <= n.
Proof.
  intros Hq. unfold JS.toFixed, JS.round_half_up. cbv zeta.
  change (inject_Z (10 ^ Z.of_nat 1)) with 10%Q.
  destruct (Qle_bool 0 q) eqn:E.
  - apply Qle_bool_iff in E. eexists. split; [reflexivity|].
    assert (H0 : 0 <= Qfloor (q * 10 + (1 # 2))) by (apply Qfloor_nonneg; lra). lia.
  - eexists. split; [reflexivity|].
    assert (H1 : Qfloor (- (q * 10) + (1 # 2)) <= 1000).
    { change 1000 with (Qfloor (1000 + (1 # 2))). apply Qfloor_resp_le. lra. }
    lia.
Qed.

Lemma toFixed_1_at_least (q : Q) :
  (-100 <= q)%Q -> Realtime.at_least (-100) (Realtime.Number_of 1 (JS.toFixed 1 (JS.Num q))).
Proof.
  intros Hq. destruct (toFixed_1_tenths q Hq) as (n & -> & Hn).
  unfold Realtime.Number_of, Realtime.at_least.
  change (inject_Z (10 ^ Z.of_nat 1)) with (inject_Z 10).
  apply Qle_shift_div_l; [reflexivity|].
  change (-100 * inject_Z 10)%Q with (inject_Z (-1000)).
  rewrite <- Zle_Qle. exact Hn.
Qed.

(** X26.  The revenue growth of the real-time statistics is a finite
    number, never NaN: the division by yesterday's revenue is made only
    when that revenue is positive.  No order counts for both today and
    yesterday, and when today's revenue is not negative the growth is at
    least -100. *)
Theorem realtime_revenueGrowth orders now :
  JS.isFinite (Realtime.revenueGrowth orders now) = true
  /\ (forall o, o ∈ Realtime.todayOrders orders now ->
                o ∉ Realtime.yesterdayOrders orders now)
  /\ (0 <= Realtime.revenue (Realtime.todayOrders orders now) ->
      Realtime.at_least (-100) (Realtime.revenueGrowth orders now)).
Proof.
  unfold Realtime.revenueGrowth. cbv zeta.
  set (T := Realtime.revenue (Realtime.todayOrders orders now)).
  set (Y := Realtime.revenue (Realtime.yesterdayOrders orders now)).
  split; [|split].
  - destruct (Z.ltb_spec 0 Y) as [HY|HY]; [|reflexivity].
    rewrite js_div_pos by lia. simpl JS.scale. unfold JS.toFixed.
    destruct (Qle_bool 0 _); reflexivity.
  - intros o Ht Hy. unfold Realtime.todayOrders in Ht. unfold Realtime.yesterdayOrders in Hy.
    apply list_elem_of_filter in Ht as [Ht _]. apply list_elem_of_filter in Hy as [Hy _].
    apply andb_true_iff in Hy as [_ Hy]. unfold JS.ge, JS.lt in *.
    destruct (orderDate o) as [t|]; [|discriminate].
    apply Z.leb_le in Ht. apply Z.ltb_lt in Hy. lia.
  - intros HT. destruct (Z.ltb_spec 0 Y) as [HY|HY]; [|simpl; discriminate].
    rewrite js_div_pos by lia. simpl JS.scale. apply toFixed_1_at_least.
    assert (H1 : (-1 <= inject_Z (T - Y) / inject_Z Y)%Q).
    { apply Qle_shift_div_l.
      - change 0%Q with (inject_Z 0). rewrite <- Zlt_Qlt. lia.
      - change (-1)%Q with (inject_Z (-1)). rewrite <- inject_Z_mult, <- Zle_Qle. lia. }
    lra.
Qed.

(** ** The customers export *)

Lemma placed_by_at_most_one users o :
  NoDup (map u_id users) ->
  (length (filter (fun u => placed_by u o = true) users) <= 1)%nat.
Proof.
  induction users as [|u users IH]; intros Hnd; [simpl; lia|].
  simpl in Hnd. apply NoDup_cons in Hnd as [Hu Hnd].
  rewrite filter_cons. destruct (decide (placed_by u o = true)) as [Hp|Hp]; [|auto].
  simpl. assert (Hnone : filter (fun u' => placed_by u' o = true) users = []); [|rewrite Hnone; simpl; lia].
  destruct (filter (fun u' => placed_by u' o = true) users) as [|u' rest] eqn:Ef;
    [reflexivity|].
  exfalso. assert (Hin : u' ∈ filter (fun u' => placed_by u' o = true) users)
    by (rewrite Ef; left).
  apply list_elem_of_filter in Hin as [Hp' Hin]. apply Hu.
  unfold placed_by in Hp, Hp'. destruct (o_userId o) as [s|]; [|discriminate].
  apply String.eqb_eq in Hp. apply String.eqb_eq in Hp'.
  rewrite <- Hp, Hp'. apply list_elem_of_fmap. exists u'. auto.
Qed.

Lemma orders_per_user_total users : forall orders,
  NoDup (map u_id users) ->
  (foldr Nat.add 0
     (map (fun u => length (filter (fun o => placed_by u o = true) orders)) users)
   <= length orders)%nat.
Proof.
  intros orders Hnd. induction orders as [|o orders IH].
  - simpl. induction users as [|u users IHu]; [reflexivity|].
    simpl. apply NoDup_cons in Hnd as [_ Hnd]. specialize (IHu Hnd). simpl in *. lia.
  - pose proof (placed_by_at_most_one users o Hnd) as Hone.
    assert (Hstep : foldr Nat.add 0%nat
              (map (fun u => length (filter (fun o' => placed_by u o' = true) (o :: orders)))
                   users)
            = (length (filter (fun u => placed_by u o = true) users)
               + foldr Nat.add 0
                   (map (fun u => length (filter (fun o' => placed_by u o' = true) orders))
                        users))%nat).
    { clear. induction users as [|u users IHu]; [reflexivity|].
      simpl map. simpl foldr. rewrite IHu, !filter_cons.
      destruct (decide (placed_by u o = true)); simpl; lia. }
    rewrite Hstep. simpl length. lia.
Qed.

(** X27.  The customers export has one row per user, in the order of the
    users.  In every row the average order value is a finite number, 0
    for a user without orders and otherwise the total spent divided by
    the number of orders.  When the users have different identifiers, no
    order is counted for two of them: the order counts of the rows
    together are at most the number of orders. *)
Theorem getCustomersExportData_rows users orders :
  NoDup (map u_id users) ->
  map CustomersExport.cr_id (CustomersExport.getCustomersExportData users orders)
  = map u_id users
  /\ Forall (fun r =>
               CustomersExport.cr_avgOrderValue r
               = if (CustomersExport.cr_totalOrders r =? 0)%nat then JS.Num 0
                 else JS.Num (inject_Z (CustomersExport.cr_totalSpent r)
                              / inject_Z (Z.of_nat (CustomersExport.cr_totalOrders r))))
            (CustomersExport.getCustomersExportData users orders)
  /\ (foldr Nat.add 0
        (map CustomersExport.cr_totalOrders
             (CustomersExport.getCustomersExportData users orders))
      <= length orders)%nat.
Proof.
  intros Hnd. unfold CustomersExport.getCustomersExportData. split; [|split].
  - rewrite map_map. reflexivity.
  - apply Forall_fmap, Forall_forall. intros u _.
    unfold compose, CustomersExport.row_of. cbv zeta.
    cbn [CustomersExport.cr_avgOrderValue CustomersExport.cr_totalOrders
         CustomersExport.cr_totalSpent].
    destruct (filter _ orders) as [|o l]; [reflexivity|].
    simpl length. cbn [Nat.ltb Nat.leb Nat.eqb]. apply js_div_pos. lia.
  - rewrite map_map. apply (orders_per_user_total users orders Hnd).
Qed.

Lemma getCustomersExportData_rows_witness :
  NoDup (map u_id Daily.two_users)
  /\ map CustomersExport.cr_id
         (CustomersExport.getCustomersExportData Daily.two_users Segmentation.ten_customers)
     = ["user_a"; "user_b"].
Proof.
  assert (H : NoDup (map u_id Daily.two_users)).
  { apply (bool_decide_unpack _). vm_compute. reflexivity. }
  split; [exact H|].
  exact (proj1 (getCustomersExportData_rows Daily.two_users Segmentation.ten_customers H)).
Defined.

(** ** The top-selling product *)




(** ** Week numbers *)

Lemma month_start_january y :
  JS.month_start (12 * y)
  = 365 * (y - 1) + (y - 1) / 4 - (y - 1) / 100 + (y - 1) / 400 + 306 - 719468.
Proof.
  unfold JS.month_start. cbv zeta.
  replace ((12 * y - 2) / 12) with (y - 1) by (Z.to_euclidean_division_equations; lia).
  replace ((12 * y - 2) mod 12) with 10 by (Z.to_euclidean_division_equations; lia).
  reflexivity.
Qed.

Lemma leap_step Y :
  0 <= Y / 4 - (Y - 1) / 4 - (Y / 100 - (Y - 1) / 100) + (Y / 400 - (Y - 1) / 400) <= 1.
Proof. Z.to_euclidean_division_equations. lia. Qed.

(** A day lies in its civil year. *)
Lemma year_start_bounds days :
  JS.month_start (12 * fst (fst (JS.civil_of_days days))) <= days
  <= JS.month_start (12 * fst (fst (JS.civil_of_days days))) + 365.
Proof.
  unfold JS.civil_of_days. cbv zeta.
  set (z := days + 719468).
  set (era := z / 146097).
  set (doe := z - era * 146097).
  assert (Hdoe : 0 <= doe < 146097)
    by (subst doe era; Z.to_euclidean_division_equations; lia).
  pose proof (yoe_range doe Hdoe) as Hy.
  pose proof (doy_range doe Hdoe) as Hd.
  assert (Hdoy : JS.doy_of doe =
                 doe - (365 * JS.yoe_of doe + JS.yoe_of doe / 4 - JS.yoe_of doe / 100))
    by reflexivity.
  set (yoe := JS.yoe_of doe) in *. set (doy := JS.doy_of doe) in *.
  set (mp := (5 * doy + 2) / 153).
  assert (Hmp : 0 <= mp <= 11) by (subst mp; Z.to_euclidean_division_equations; lia).
  set (m := if mp <? 10 then mp + 2 else mp - 10).
  cbn [fst].
  set (Y := yoe + era * 400).
  assert (H4 : Y / 4 = yoe / 4 + era * 100)
    by (subst Y; Z.to_euclidean_division_equations; lia).
  assert (H100 : Y / 100 = yoe / 100 + era * 4)
    by (subst Y; Z.to_euclidean_division_equations; lia).
  assert (H400 : Y / 400 = era)
    by (subst Y; Z.to_euclidean_division_equations; lia).
  assert (Hdays : days = 365 * Y + Y / 4 - Y / 100 + Y / 400 + doy - 719468)
    by (rewrite H4, H100, H400; subst Y doe z; lia).
  destruct (Z.ltb_spec mp 10) as [Hlt|Hge].
  - assert (Hm : (m <? 2) = false) by (subst m; destruct (mp <? 10) eqn:E; lia).
    rewrite Hm, Z.add_0_r. fold Y. rewrite month_start_january.
    assert (Hdoy305 : doy <= 305) by (subst mp; Z.to_euclidean_division_equations; lia).
    pose proof (leap_step Y). lia.
  - assert (Hm : (m <? 2) = true) by (subst m; destruct (mp <? 10) eqn:E; lia).
    rewrite Hm. fold Y. rewrite month_start_january.
    replace (Y + 1 - 1) with Y by lia.
    assert (Hdoy306 : 306 <= doy) by (subst mp; Z.to_euclidean_division_equations; lia).
    lia.
Qed.

Lemma Qceiling_pos (x : Q) : (0 < x)%Q -> 1 <= Qceiling x.
Proof.
  intros Hx. pose proof (Qle_ceiling x) as Hc.
  assert (H : (0 < inject_Z (Qceiling x))%Q) by (eapply Qlt_le_trans; eauto).
  change 0%Q with (inject_Z 0) in H. rewrite <- Zlt_Qlt in H. lia.
Qed.

Lemma Qceiling_le (x : Q) (n : Z) : (x <= inject_Z n)%Q -> Qceiling x <= n.
Proof.
  intros Hx. rewrite <- (Qceiling_Z n). apply Qceiling_resp_le. exact Hx.
Qed.

(** X29.  The week number of a valid date whose year is not one of the
    years 0 to 99 lies between 1 and 54.  (For those years
    [new Date(year, 0, 1)] is a day of the twentieth century.) *)
Theorem getWeekNumber_range t :
  ~ (0 <= JS.getFullYear t <= 99) -> 1 <= Clock.getWeekNumber t <= 54.
Proof.
  intros Hyear. unfold Clock.getWeekNumber, Clock.firstDayOfYear. cbv zeta.
  assert (Hq : (0 <=? JS.getFullYear t) && (JS.getFullYear t <=? 99) = false).
  { apply andb_false_iff. destruct (Z.leb_spec 0 (JS.getFullYear t)); [|auto].
    right. apply Z.leb_gt. lia. }
  rewrite Hq.
  pose proof (year_start_bounds (t / JS.msPerDay)) as Hb.
  fold (JS.getFullYear t) in Hb.
  set (ms := JS.month_start (12 * JS.getFullYear t)) in *.
  assert (Hday : 0 <= Clock.getDay (ms * JS.msPerDay) <= 6).
  { unfold Clock.getDay. pose proof (Z.mod_pos_bound (ms * JS.msPerDay / JS.msPerDay + 4) 7).
    lia. }
  set (gd := Clock.getDay (ms * JS.msPerDay)) in *.
  assert (Hpast : 0 <= t - ms * JS.msPerDay < 366 * 86400000).
  { unfold JS.msPerDay in *. pose proof (Z.div_mod t (24 * 60 * 60 * 1000) ltac:(lia)).
    pose proof (Z.mod_pos_bound t (24 * 60 * 60 * 1000) ltac:(lia)). lia. }
  set (p := t - ms * JS.msPerDay) in *.
  assert (Hp0 : (0 <= inject_Z p)%Q) by (change 0%Q with (inject_Z 0); rewrite <- Zle_Qle; lia).
  assert (Hp1 : (inject_Z p <= inject_Z (366 * 86400000))%Q) by (rewrite <- Zle_Qle; lia).
  assert (Hg0 : (0 <= inject_Z gd)%Q) by (change 0%Q with (inject_Z 0); rewrite <- Zle_Qle; lia).
  assert (Hg1 : (inject_Z gd <= inject_Z 6)%Q) by (rewrite <- Zle_Qle; lia).
  change (inject_Z (366 * 86400000)) with (31622400000 # 1)%Q in Hp1.
  change (inject_Z 6) with 6%Q in Hg1.
  unfold Qdiv. change (/ 86400000)%Q with (1 # 86400000)%Q.
  change (/ 7)%Q with (1 # 7)%Q.
  split.
  - apply Qceiling_pos. lra.
  - apply Qceiling_le. change (inject_Z 54) with 54%Q. lra.
Qed.

Lemma getWeekNumber_range_witness :
  ~ (0 <= JS.getFullYear 1709210096789 <= 99)
  /\ 1 <= Clock.getWeekNumber 1709210096789 <= 54.
Proof.
  assert (H : ~ (0 <= JS.getFullYear 1709210096789 <= 99)).
  { vm_compute. intros [_ H]. apply H. reflexivity. }
  split; [exact H|]. exact (getWeekNumber_range 1709210096789 H).
Defined.

(** ** The confidence band of the forecast *)

Lemma power_at_least_1 (g : Q) (k : Z) :
  (1 <= g)%Q -> k = 1 \/ k = 2 \/ k = 3 -> (1 <= g ^ k)%Q.
Proof.
  intros Hg [-> | [-> | ->]]; simpl.
  - exact Hg.
  - assert (H : (1 * 1 <= g * g)%Q) by (apply Qmult_le_compat_nonneg; split; lra). lra.
  - assert (H : (1 * 1 <= g * g)%Q) by (apply Qmult_le_compat_nonneg; split; lra).
    assert (H' : (1 * 1 <= g * (g * g))%Q) by (apply Qmult_le_compat_nonneg; split; lra).
    lra.
Qed.

Lemma band_of (last g : Q) (k : Z) :
  (20000 <= last)%Q -> (1 <= g)%Q -> k = 1 \/ k = 2 \/ k = 3 ->
  (last <= last * g ^ k
   /\ last * g ^ k * 0.9 < last * g ^ k
   /\ last * g ^ k < last * g ^ k * 1.1)%Q.
Proof.
  intros Hl Hg Hk.
  pose proof (power_at_least_1 g k Hg Hk) as Hp.
  assert (H1 : (last <= last * g ^ k)%Q).
  { rewrite <- (Qmult_1_r last) at 1. apply Qmult_le_l; [lra|exact Hp]. }
  set (X := (last * g ^ k)%Q) in *. split; [exact H1|]. split; lra.
Qed.

(** X30.  The confidence band of the forecast brackets it: every
    forecast point lies strictly between its lower and its upper bound,
    and is at least the last historical value. *)
Theorem forecast_band (random : nat -> Q) :
  (forall n, 0 <= random n /\ random n < 1)%Q ->
  let data := Forecast.generateForecastData random in
  let lastValue := List.last (Forecast.historical data) 0%Q in
  forall k : nat, (k < 3)%nat ->
    (lastValue <= nth k (Forecast.forecast data) 0
     /\ nth k (Forecast.confidenceLower data) 0 < nth k (Forecast.forecast data) 0
     /\ nth k (Forecast.forecast data) 0 < nth k (Forecast.confidenceUpper data) 0)%Q.
Proof.
  intros Hr data lastValue k Hk.
  assert (Hl : (20000 <= lastValue)%Q).
  { subst lastValue data. change (20000 <= 20000 + random 5%nat * 5000)%Q. destruct (Hr 5%nat). lra. }
  assert (Hcases : k = 0%nat \/ k = 1%nat \/ k = 2%nat) by lia.
  destruct Hcases as [-> | [-> | ->]].
  - destruct (Hr 6%nat) as [H0 H1].
    apply (band_of lastValue (1 + random 6%nat * 0.1) 1); [exact Hl|lra|auto].
  - destruct (Hr 7%nat) as [H0 H1].
    apply (band_of lastValue (1 + random 7%nat * 0.1) 2); [exact Hl|lra|auto].
  - destruct (Hr 8%nat) as [H0 H1].
    apply (band_of lastValue (1 + random 8%nat * 0.1) 3); [exact Hl|lra|auto].
Qed.

Lemma forecast_band_witness :
  (forall n : nat, 0 <= (fun _ : nat => 1 # 2) n /\ (fun _ : nat => 1 # 2) n < 1)%Q
  /\ (nth 0 (Forecast.confidenceLower (Forecast.generateForecastData (fun _ => 1 # 2))) 0
      < nth 0 (Forecast.forecast (Forecast.generateForecastData (fun _ => 1 # 2))) 0)%Q.
Proof.
  assert (H : (forall n : nat, 0 <= (fun _ : nat => 1 # 2) n
                               /\ (fun _ : nat => 1 # 2) n < 1)%Q).
  { intros n. split; [discriminate|reflexivity]. }
  split; [exact H|].
  exact (proj1 (proj2 (forecast_band (fun _ => 1 # 2) H 0%nat ltac:(lia)))).
Defined.
